(** * electroneum-sc: genesis bootstrap, priority transactors, priority transactions

    A shallow embedding of

    - [core/types/priority_tx.go]                    (module [priority_tx]),
    - the priority-transactor registry lookups       (module [priority_transactors]),
    - [core/genesis.go]                              (modules [genesis],
                                                      [storageJSON], [genesis_tools]),

    with the Go heap, the key-value store and the error values written out
    as explicit state.  Collaborators whose code lives in other packages of
    the repository (state trie, EVM, ABI codec, chain parameters, hashing)
    are taken as parameters. *)

From Stdlib Require Import ZArith Lia.
From Stdlib Require Strings.Byte.
From stdpp Require Import base option list gmap strings fin_maps.

(** ** Go values shared by the three files *)

(** A Go pointer: an address in a typed heap; [None] is [nil]. *)
Definition loc := positive.
Bind Scope positive_scope with loc.

Definition byte := Byte.byte.
#[global] Instance byte_eq_dec : EqDecision byte := Strings.Byte.byte_eq_dec.

(** [common.Hash] and [common.Address] are fixed-size byte arrays; they are
    read as the big-endian number they spell, the zero value being 0. *)
Definition Hash := N.
Definition Address := N.
Bind Scope N_scope with Hash Address.

(** [*params.ConfigCompatError]; this code reads [RewindTo] only. *)
Record ConfigCompatError := mkConfigCompatError {
  What : string;
  RewindTo : N
}.

(** The dynamic types an [error] value takes in these files. *)
Inductive error :=
| errors_New (msg : string)
| GenesisMismatchError (Stored New : Hash)
| ConfigCompat (e : ConfigCompatError).

(** A state-passing monad for a Go statement sequence over a mutable
    store; [Panic] is a run-time panic, which ends the run. *)
Inductive outcome (St A : Type) : Type :=
| Done (a : A) (s : St)
| Panic (msg : string).
Arguments Done {St A} a s.
Arguments Panic {St A} msg.

Section monad.
Context {St : Type}.

Definition M (A : Type) : Type := St -> outcome St A.
Definition ret {A} (a : A) : M A := fun s => Done a s.
Definition bind {A B} (m : M A) (f : A -> M B) : M B :=
  fun s => match m s with
           | Done a s' => f a s'
           | Panic msg => Panic msg
           end.
Definition get : M St := fun s => Done s s.
Definition put (s : St) : M unit := fun _ => Done tt s.
Definition panic {A} (msg : string) : M A := fun _ => Panic msg.
End monad.
Arguments M : clear implicits.

Declare Scope go_scope.
Delimit Scope go_scope with go.
Notation "x <- m ;; k" := (bind m (fun x => k))
  (at level 100, m at next level, right associativity) : go_scope.
Notation "m ;; k" := (bind m (fun _ => k))
  (at level 100, right associativity) : go_scope.
Open Scope go_scope.

(** * core/types/priority_tx.go *)

Module priority_tx.
Section tx.
(** [AccessTuple] is declared in another file of the package; [copy] only
    moves its values around. [zero_tuple] is its Go zero value. *)
Context {AccessTuple : Type} (zero_tuple : AccessTuple).

(** The typed heap: [*big.Int] cells, [*common.Address] cells, and the
    backing arrays of [[]byte] and [AccessList] slices.  A slice is
    modelled by its backing array ([None] is the nil slice). *)
Record Heap := mkHeap {
  ints : gmap loc Z;
  addrs : gmap loc Address;
  byte_arrays : gmap loc (list byte);
  tuple_arrays : gmap loc (list AccessTuple)
}.

Record PriorityTx := mkPriorityTx {
  ChainID : option loc;
  Nonce : N;
  GasTipCap : option loc;
  GasFeeCap : option loc;
  Gas : N;
  To : option loc;
  Value : option loc;
  Data : option loc;
  AccessList : option loc;
  V : option loc;
  R : option loc;
  S : option loc;
  PriorityV : option loc;
  PriorityR : option loc;
  PriorityS : option loc
}.

(** *** Heap primitives *)

(** [new(big.Int)]: a fresh cell holding 0. *)
Definition new_Int : M Heap loc := fun h =>
  let l := fresh (dom (ints h)) in
  Done l (mkHeap (<[l := 0%Z]> (ints h)) (addrs h) (byte_arrays h) (tuple_arrays h)).

(** [x.Set(y)]: the cell [x] receives the number held by [y]. *)
Definition Int_Set (x y : loc) : M Heap unit := fun h =>
  Done tt (mkHeap (<[x := default 0%Z (ints h !! y)]> (ints h))
                  (addrs h) (byte_arrays h) (tuple_arrays h)).

(** [if src != nil { dst.Set(src) }] *)
Definition Set_if_not_nil (dst : loc) (src : option loc) : M Heap unit :=
  match src with
  | Some y => Int_Set dst y
  | None => ret tt
  end.

(** Modelled from the spec: [copyAddressPtr] (its code is in another file
    of the package); "no field may alias the source's mutable storage":
    nil stays nil, otherwise a new cell receives the address. *)
Definition copyAddressPtr (a : option loc) : M Heap (option loc) := fun h =>
  match a with
  | None => Done None h
  | Some p =>
      let l := fresh (dom (addrs h)) in
      Done (Some l)
           (mkHeap (ints h) (<[l := default 0%N (addrs h !! p)]> (addrs h))
                   (byte_arrays h) (tuple_arrays h))
  end.

(** Modelled from the spec: [common.CopyBytes] (its code is in package
    [common]); "a new backing array for the ... payload bytes": nil stays
    nil, otherwise a new array receives the bytes. *)
Definition CopyBytes (b : option loc) : M Heap (option loc) := fun h =>
  match b with
  | None => Done None h
  | Some p =>
      let l := fresh (dom (byte_arrays h)) in
      Done (Some l)
           (mkHeap (ints h) (addrs h)
                   (<[l := default [] (byte_arrays h !! p)]> (byte_arrays h))
                   (tuple_arrays h))
  end.

(** [len(s)] of an access list: 0 for the nil slice. *)
Definition len_AccessList (s : option loc) : M Heap nat := fun h =>
  Done match s with
       | None => 0
       | Some p => length (default [] (tuple_arrays h !! p))
       end h.

(** [make(AccessList, n)]: a new array of [n] zero tuples. *)
Definition make_AccessList (n : nat) : M Heap (option loc) := fun h =>
  let l := fresh (dom (tuple_arrays h)) in
  Done (Some l)
       (mkHeap (ints h) (addrs h) (byte_arrays h)
               (<[l := replicate n zero_tuple]> (tuple_arrays h))).

(** The builtin [copy(dst, src)] on access lists: the first
    [min(len(dst), len(src))] elements of [dst] are overwritten. *)
Definition copy_AccessList (dst src : option loc) : M Heap unit := fun h =>
  match dst with
  | None => Done tt h
  | Some d =>
      let old := default [] (tuple_arrays h !! d) in
      let new := match src with
                 | None => []
                 | Some s => default [] (tuple_arrays h !! s)
                 end in
      let n := Nat.min (length old) (length new) in
      Done tt (mkHeap (ints h) (addrs h) (byte_arrays h)
                      (<[d := take n new ++ drop n old]> (tuple_arrays h)))
  end.

(** *** [func (tx *PriorityTx) copy() TxData] *)

Definition copy (tx : PriorityTx) : M Heap PriorityTx :=
  to <- copyAddressPtr (To tx);;
  data <- CopyBytes (Data tx);;
  n <- len_AccessList (AccessList tx);;
  accessList <- make_AccessList n;;
  value <- new_Int;;
  chainID <- new_Int;;
  gasTipCap <- new_Int;;
  gasFeeCap <- new_Int;;
  v <- new_Int;;
  r <- new_Int;;
  s <- new_Int;;
  priorityV <- new_Int;;
  priorityR <- new_Int;;
  priorityS <- new_Int;;
  let cpy := {|
    Nonce := Nonce tx;
    To := to;
    Data := data;
    Gas := Gas tx;
    (* These are copied below. *)
    AccessList := accessList;
    Value := Some value;
    ChainID := Some chainID;
    GasTipCap := Some gasTipCap;
    GasFeeCap := Some gasFeeCap;
    V := Some v;
    R := Some r;
    S := Some s;
    PriorityV := Some priorityV;
    PriorityR := Some priorityR;
    PriorityS := Some priorityS
  |} in
  copy_AccessList (AccessList cpy) (AccessList tx);;
  Set_if_not_nil value (Value tx);;
  Set_if_not_nil chainID (ChainID tx);;
  Set_if_not_nil gasTipCap (GasTipCap tx);;
  Set_if_not_nil gasFeeCap (GasFeeCap tx);;
  Set_if_not_nil v (V tx);;
  Set_if_not_nil r (R tx);;
  Set_if_not_nil s (S tx);;
  Set_if_not_nil priorityV (PriorityV tx);;
  Set_if_not_nil priorityR (PriorityR tx);;
  Set_if_not_nil priorityS (PriorityS tx);;
  ret cpy.

(** *** Accessors for innerTx *)

Definition chainID (tx : PriorityTx) : option loc := ChainID tx.
Definition accessList (tx : PriorityTx) : option loc := AccessList tx.
Definition data (tx : PriorityTx) : option loc := Data tx.
Definition gas (tx : PriorityTx) : N := Gas tx.
Definition gasFeeCap (tx : PriorityTx) : option loc := GasFeeCap tx.
Definition gasTipCap (tx : PriorityTx) : option loc := GasTipCap tx.
Definition gasPrice (tx : PriorityTx) : option loc := GasFeeCap tx.
Definition value (tx : PriorityTx) : option loc := Value tx.
Definition nonce (tx : PriorityTx) : N := Nonce tx.
Definition to (tx : PriorityTx) : option loc := To tx.

Definition rawSignatureValues (tx : PriorityTx)
  : option loc * option loc * option loc := (V tx, R tx, S tx).

Definition rawPrioritySignatureValues (tx : PriorityTx)
  : option loc * option loc * option loc :=
  (PriorityV tx, PriorityR tx, PriorityS tx).

(** The setters assign through the receiver: the result is the struct the
    receiver points to after the call. *)
Definition setSignatureValues (tx : PriorityTx) (chainID v r s : option loc)
  : PriorityTx :=
  {| ChainID := chainID; Nonce := Nonce tx; GasTipCap := GasTipCap tx;
     GasFeeCap := GasFeeCap tx; Gas := Gas tx; To := To tx; Value := Value tx;
     Data := Data tx; AccessList := AccessList tx;
     V := v; R := r; S := s;
     PriorityV := PriorityV tx; PriorityR := PriorityR tx;
     PriorityS := PriorityS tx |}.

Definition setPrioritySignatureValues (tx : PriorityTx) (chainID v r s : option loc)
  : PriorityTx :=
  {| ChainID := chainID; Nonce := Nonce tx; GasTipCap := GasTipCap tx;
     GasFeeCap := GasFeeCap tx; Gas := Gas tx; To := To tx; Value := Value tx;
     Data := Data tx; AccessList := AccessList tx;
     V := V tx; R := R tx; S := S tx;
     PriorityV := v; PriorityR := r; PriorityS := s |}.

(** *** What the claims speak about *)

(** The big-integer fields of the struct. *)
Inductive BigField :=
| FChainID | FGasTipCap | FGasFeeCap | FValue
| FV | FR | FS | FPriorityV | FPriorityR | FPriorityS.

Definition field (f : BigField) (tx : PriorityTx) : option loc :=
  match f with
  | FChainID => ChainID tx
  | FGasTipCap => GasTipCap tx
  | FGasFeeCap => GasFeeCap tx
  | FValue => Value tx
  | FV => V tx
  | FR => R tx
  | FS => S tx
  | FPriorityV => PriorityV tx
  | FPriorityR => PriorityR tx
  | FPriorityS => PriorityS tx
  end.

(** The number a [*big.Int] field holds; [None] for a nil pointer. *)
Definition int_value (h : Heap) (p : option loc) : option Z :=
  p ≫= fun l => ints h !! l.

Definition addr_value (h : Heap) (p : option loc) : option Address :=
  p ≫= fun l => addrs h !! l.

Definition bytes_value (h : Heap) (p : option loc) : option (list byte) :=
  p ≫= fun l => byte_arrays h !! l.

(** The elements of an access list; the nil slice has none. *)
Definition tuples_value (h : Heap) (p : option loc) : list AccessTuple :=
  match p with
  | None => []
  | Some l => default [] (tuple_arrays h !! l)
  end.

(** Go hands out no dangling pointer: every non-nil pointer of a
    transaction points to a cell of the heap. *)
Definition valid (h : Heap) (tx : PriorityTx) : Prop :=
  (forall f l, field f tx = Some l -> l ∈ dom (ints h)) /\
  (forall l, To tx = Some l -> l ∈ dom (addrs h)) /\
  (forall l, Data tx = Some l -> l ∈ dom (byte_arrays h)) /\
  (forall l, AccessList tx = Some l -> l ∈ dom (tuple_arrays h)).

(** In-place mutation of a big integer, as [p.Set], [p.Add], ... do. *)
Definition store_int (l : loc) (z : Z) (h : Heap) : Heap :=
  mkHeap (<[l := z]> (ints h)) (addrs h) (byte_arrays h) (tuple_arrays h).

End tx.
End priority_tx.

(** * The priority-transactor registry
    ([GetPriorityTransactors], [getPriorityTransactorByKey]) *)

Module priority_transactors.

(** [common.PriorityTransactor] *)
Record PriorityTransactor := mkPriorityTransactor {
  EntityName : string;
  IsGasPriceWaiver : bool
}.

(** [prioritytransactors.ETNPriorityTransactorsInterfaceTransactorMeta],
    the tuple the contract returns. *)
Module TransactorMeta.
Record t := mk {
  PublicKey : string;
  IsGasPriceWaiver : bool;
  Name : string
}.
End TransactorMeta.

(** One [evm.StaticCall(caller, addr, input, gas)]. *)
Record Call := mkCall {
  call_caller : Address;
  call_addr : Address;
  call_input : list byte;
  call_gas : N
}.

(** What the two functions take from other packages: the chain
    configuration's address lookup, the EVM and its state view, the ABI
    codec of the registry contract, and the public-key conversions. *)
Class Registry := {
  ChainConfig : Type;
  EVM : Type;
  PublicKey : Type;
  PublicKey_eq_dec :: EqDecision PublicKey;
  PublicKey_countable :: Countable PublicKey;
(** [config.GetPriorityTransactorsContractAddress(blockNumber)] *)
GetPriorityTransactorsContractAddress : ChainConfig -> option Z -> Address;
(** [evm.StateDB.GetCode(address)] *)
GetCode : EVM -> Address -> list byte;
(** [evm.StaticCall]: output and error (the leftover gas is dropped by
    both callers). *)
StaticCall : EVM -> Call -> list byte * option error;
(** [contractABI.Pack(method, args...)] *)
Pack : string -> list string -> list byte;
(** [contractABI.Unpack("getTransactors", output)] followed by
    [abi.ConvertType] of the first unpacked value. *)
Unpack_getTransactors : list byte -> error + list TransactorMeta.t;
(** [contractABI.Unpack("getTransactorByKey", output)] followed by
    [abi.ConvertType] of the first unpacked value. *)
Unpack_getTransactorByKey : list byte -> error + TransactorMeta.t;
HexToPublicKey : string -> PublicKey;
ToUnprefixedHexString : PublicKey -> string;
(** [params.MaxGasLimit] *)
MaxGasLimit : N
}.

(** [common.PriorityTransactorMap] *)
Abbreviation PriorityTransactorMap := (gmap PublicKey PriorityTransactor).

Section registry.
Context {reg : Registry}.

(** The calls issued so far are the state the functions run over. *)
Definition Trace := list Call.

Definition evm_StaticCall (evm : EVM) (caller addr : Address)
    (input : list byte) (gas : N) : M Trace (list byte * option error) :=
  fun tr =>
    let c := mkCall caller addr input gas in
    Done (StaticCall evm c) (tr ++ [c]).

(** [vm.AccountRef(address)] *)
Definition AccountRef (a : Address) : Address := a.

Definition GetPriorityTransactors (blockNumber : option Z)
    (config : ChainConfig) (evm : EVM)
  : M Trace (PriorityTransactorMap * option error) :=
  let address := GetPriorityTransactorsContractAddress config blockNumber in
  let contract := AccountRef address in
  let method := "getTransactors"%string in
  let result : PriorityTransactorMap := ∅ in
  if decide (address ≠ 0%N) then
    (* Check if contract code exists at the address. *)
    let byteCode := GetCode evm address in
    if decide (length byteCode = 0) then ret (result, None)
    else
      let input := Pack method [] in
      r <- evm_StaticCall evm contract address input MaxGasLimit;;
      let '(output, err) := r in
      match err with
      | Some e => ret (result, Some e)
      | None =>
          match Unpack_getTransactors output with
          | inl e => ret (result, Some e)
          | inr transactorsMeta =>
              let result :=
                foldl (fun (result : PriorityTransactorMap) t =>
                         <[HexToPublicKey (TransactorMeta.PublicKey t) :=
                             {| IsGasPriceWaiver := TransactorMeta.IsGasPriceWaiver t;
                                EntityName := TransactorMeta.Name t |}]> result)
                      result transactorsMeta in
              ret (result, None)
          end
      end
  else ret (result, None).

Definition getPriorityTransactorByKey (blockNumber : option Z)
    (publicKey : PublicKey) (config : ChainConfig) (evm : EVM)
  : M Trace (PriorityTransactor * bool) :=
  let address := GetPriorityTransactorsContractAddress config blockNumber in
  let contract := AccountRef address in
  let method := "getTransactorByKey"%string in
  if decide (address ≠ 0%N) then
    let input := Pack method [ToUnprefixedHexString publicKey] in
    r <- evm_StaticCall evm contract address input MaxGasLimit;;
    let '(output, err) := r in
    match err with
    | Some _ => ret (mkPriorityTransactor "" false, false)
    | None =>
        match Unpack_getTransactorByKey output with
        | inl _ => ret (mkPriorityTransactor "" false, false)
        | inr transactorMeta =>
            ret ({| EntityName := TransactorMeta.Name transactorMeta;
                    IsGasPriceWaiver := TransactorMeta.IsGasPriceWaiver transactorMeta |},
                 true)
        end
    end
  else ret (mkPriorityTransactor "" false, false).

(** The not-found result of [getPriorityTransactorByKey]. *)
Definition NotFound : PriorityTransactor * bool :=
  (mkPriorityTransactor "" false, false).

(** The entry [GetPriorityTransactors] stores for a tuple. *)
Definition entry_of (t : TransactorMeta.t) : PriorityTransactor :=
  {| IsGasPriceWaiver := TransactorMeta.IsGasPriceWaiver t;
     EntityName := TransactorMeta.Name t |}.

Definition key_of (t : TransactorMeta.t) : PublicKey :=
  HexToPublicKey (TransactorMeta.PublicKey t).

(** The last tuple of the list carrying the key [k]. *)
Definition last_with_key (k : PublicKey) (ts : list TransactorMeta.t)
  : option TransactorMeta.t :=
  last (filter (fun t => key_of t = k) ts).

(** The loop of [GetPriorityTransactors] over the decoded tuples. *)
Definition build (ts : list TransactorMeta.t) : PriorityTransactorMap :=
  foldl (fun (result : PriorityTransactorMap) t =>
           <[key_of t := entry_of t]> result) ∅ ts.

End registry.
End priority_transactors.

(** * core/genesis.go *)

(** ** Package [params]: what genesis.go touches of a chain configuration *)

Module params.
Record CliqueConfig := mkCliqueConfig {
  Period : N;
  Epoch : N
}.

(** [params.ChainConfig]: the two fields genesis.go assigns, the one it
    tests against nil, and [forks] for every other field (the fork
    schedule), whose type is left to the package. *)
Record ChainConfig {Forks : Type} := mkChainConfig {
  ArrowGlacierBlock : option Z;
  TerminalTotalDifficulty : option Z;
  Clique : option CliqueConfig;
  forks : Forks
}.
Arguments ChainConfig : clear implicits.
Arguments mkChainConfig {Forks}.

(** [c.ArrowGlacierBlock = v] and [c.TerminalTotalDifficulty = v] *)
Definition set_ArrowGlacierBlock {Forks} (v : option Z) (c : ChainConfig Forks)
  : ChainConfig Forks :=
  mkChainConfig v (TerminalTotalDifficulty c) (Clique c) (forks c).

Definition set_TerminalTotalDifficulty {Forks} (v : option Z) (c : ChainConfig Forks)
  : ChainConfig Forks :=
  mkChainConfig (ArrowGlacierBlock c) v (Clique c) (forks c).
End params.

(** ** Package [core/state]: the account state the allocation is flushed into *)

Module state.
Record Account := mkAccount {
  Balance : Z;
  Nonce : N;
  Code : list byte;
  Storage : gmap Hash Hash
}.

Definition empty_account : Account := mkAccount 0 0 [] ∅.

(** The accounts of a [*state.StateDB], by address.  A trie is canonical:
    its root is a function of this content alone. *)
Abbreviation StateDB := (gmap Address Account).

Definition getOrNewStateObject (addr : Address) (s : StateDB) : Account :=
  default empty_account (s !! addr).

(** Modelled from the spec: the four [StateDB] setters [flush] calls
    (their code is in package core/state); "for each allocation entry set
    balance, code, nonce, and each storage slot". *)
Definition AddBalance (addr : Address) (amount : Z) (s : StateDB) : StateDB :=
  let o := getOrNewStateObject addr s in
  <[addr := mkAccount (Balance o + amount) (Nonce o) (Code o) (Storage o)]> s.

Definition SetCode (addr : Address) (code : list byte) (s : StateDB) : StateDB :=
  let o := getOrNewStateObject addr s in
  <[addr := mkAccount (Balance o) (Nonce o) code (Storage o)]> s.

Definition SetNonce (addr : Address) (nonce : N) (s : StateDB) : StateDB :=
  let o := getOrNewStateObject addr s in
  <[addr := mkAccount (Balance o) nonce (Code o) (Storage o)]> s.

Definition SetState (addr : Address) (key value : Hash) (s : StateDB) : StateDB :=
  let o := getOrNewStateObject addr s in
  <[addr := mkAccount (Balance o) (Nonce o) (Code o) (<[key := value]> (Storage o))]> s.
End state.

(** ** Package [core/types]: headers and blocks *)

Module types.
Module Header.
Record t := mk {
  ParentHash : Hash;
  UncleHash : Hash;
  Coinbase : Address;
  Root : Hash;
  TxHash : Hash;
  ReceiptHash : Hash;
  Difficulty : option Z;
  Number : Z;
  GasLimit : N;
  GasUsed : N;
  Time : N;
  Extra : list byte;
  MixDigest : Hash;
  Nonce : N;
  BaseFee : option Z
}.

(** [head.GasLimit = v], [head.Difficulty = v], [head.BaseFee = v] *)
Definition set_GasLimit (v : N) (h : t) : t :=
  mk (ParentHash h) (UncleHash h) (Coinbase h) (Root h) (TxHash h)
     (ReceiptHash h) (Difficulty h) (Number h) v (GasUsed h) (Time h)
     (Extra h) (MixDigest h) (Nonce h) (BaseFee h).

Definition set_Difficulty (v : option Z) (h : t) : t :=
  mk (ParentHash h) (UncleHash h) (Coinbase h) (Root h) (TxHash h)
     (ReceiptHash h) v (Number h) (GasLimit h) (GasUsed h) (Time h)
     (Extra h) (MixDigest h) (Nonce h) (BaseFee h).

Definition set_BaseFee (v : option Z) (h : t) : t :=
  mk (ParentHash h) (UncleHash h) (Coinbase h) (Root h) (TxHash h)
     (ReceiptHash h) (Difficulty h) (Number h) (GasLimit h) (GasUsed h)
     (Time h) (Extra h) (MixDigest h) (Nonce h) v.

Definition set_body_hashes (tx receipt uncle : Hash) (h : t) : t :=
  mk (ParentHash h) uncle (Coinbase h) (Root h) tx receipt
     (Difficulty h) (Number h) (GasLimit h) (GasUsed h) (Time h)
     (Extra h) (MixDigest h) (Nonce h) (BaseFee h).
End Header.

(** A block with no transactions, no uncles and no receipts: genesis.go
    builds no other. *)
Record Block := mkBlock {
  header : Header.t
}.

(** [types.Receipt]; genesis.go writes the empty receipt list only. *)
Definition Receipt := unit.

(** [types.QBFTExtra], the genesis extra-data of a validator set. *)
Record QBFTExtra {Vote : Type} := mkQBFTExtra {
  VanityData : list byte;
  Validators : list Address;
  Vote_ : option Vote;
  Round : N;
  CommittedSeal : list (list byte)
}.
Arguments QBFTExtra : clear implicits.
Arguments mkQBFTExtra {Vote}.
End types.

(** ** Package [core/rawdb]: the records of the key-value store *)

Module rawdb.
Section rawdb.
Context {Forks : Type}.

(** The store, one table per kind of record.  State tries are kept by
    their root; blocks, total difficulties and receipts by number and
    hash; chain configurations and genesis allocations by block hash. *)
Record DB := mkDB {
  states : gmap Hash state.StateDB;
  genesis_state : gmap Hash (list byte);
  td : gmap (N * Hash) (option Z);
  blocks : gmap (N * Hash) types.Block;
  header_numbers : gmap Hash N;
  receipts : gmap (N * Hash) (list types.Receipt);
  canonical : gmap N Hash;
  head_block : option Hash;
  head_fast_block : option Hash;
  head_header : option Hash;
  chain_config : gmap Hash (params.ChainConfig Forks)
}.

Definition NewMemoryDatabase : DB :=
  mkDB ∅ ∅ ∅ ∅ ∅ ∅ ∅ None None None ∅.

(** Modelled from the spec: the [rawdb] accessors (their code is in
    package core/rawdb); "allocation blob stored keyed by block hash;
    chain configuration stored keyed by block hash;
    canonical-hash-by-height index; head-pointer records", with
    "read-after-write visibility within the same store handle". *)
Definition WriteGenesisState (hash : Hash) (blob : list byte) (db : DB) : DB :=
  mkDB (states db) (<[hash := blob]> (genesis_state db)) (td db) (blocks db)
       (header_numbers db) (receipts db) (canonical db) (head_block db)
       (head_fast_block db) (head_header db) (chain_config db).

Definition WriteTd (hash : Hash) (number : N) (d : option Z) (db : DB) : DB :=
  mkDB (states db) (genesis_state db) (<[(number, hash) := d]> (td db)) (blocks db)
       (header_numbers db) (receipts db) (canonical db) (head_block db)
       (head_fast_block db) (head_header db) (chain_config db).

Definition WriteBlock (hash : Hash) (number : N) (block : types.Block) (db : DB) : DB :=
  mkDB (states db) (genesis_state db) (td db) (<[(number, hash) := block]> (blocks db))
       (<[hash := number]> (header_numbers db)) (receipts db) (canonical db)
       (head_block db) (head_fast_block db) (head_header db) (chain_config db).

Definition WriteReceipts (hash : Hash) (number : N) (rs : list types.Receipt)
    (db : DB) : DB :=
  mkDB (states db) (genesis_state db) (td db) (blocks db) (header_numbers db)
       (<[(number, hash) := rs]> (receipts db)) (canonical db) (head_block db)
       (head_fast_block db) (head_header db) (chain_config db).

Definition WriteCanonicalHash (hash : Hash) (number : N) (db : DB) : DB :=
  mkDB (states db) (genesis_state db) (td db) (blocks db) (header_numbers db)
       (receipts db) (<[number := hash]> (canonical db)) (head_block db)
       (head_fast_block db) (head_header db) (chain_config db).

Definition WriteHeadBlockHash (hash : Hash) (db : DB) : DB :=
  mkDB (states db) (genesis_state db) (td db) (blocks db) (header_numbers db)
       (receipts db) (canonical db) (Some hash)
       (head_fast_block db) (head_header db) (chain_config db).

Definition WriteHeadFastBlockHash (hash : Hash) (db : DB) : DB :=
  mkDB (states db) (genesis_state db) (td db) (blocks db) (header_numbers db)
       (receipts db) (canonical db) (head_block db)
       (Some hash) (head_header db) (chain_config db).

Definition WriteHeadHeaderHash (hash : Hash) (db : DB) : DB :=
  mkDB (states db) (genesis_state db) (td db) (blocks db) (header_numbers db)
       (receipts db) (canonical db) (head_block db)
       (head_fast_block db) (Some hash) (chain_config db).

Definition WriteChainConfig (hash : Hash) (cfg : params.ChainConfig Forks)
    (db : DB) : DB :=
  mkDB (states db) (genesis_state db) (td db) (blocks db) (header_numbers db)
       (receipts db) (canonical db) (head_block db)
       (head_fast_block db) (head_header db) (<[hash := cfg]> (chain_config db)).

(** A missing canonical or head hash reads as the zero hash. *)
Definition ReadCanonicalHash (number : N) (db : DB) : Hash :=
  default 0%N (canonical db !! number).

Definition ReadHeader (hash : Hash) (number : N) (db : DB) : option types.Header.t :=
  types.header <$> blocks db !! (number, hash).

Definition ReadHeadHeaderHash (db : DB) : Hash :=
  default 0%N (head_header db).

Definition ReadHeaderNumber (hash : Hash) (db : DB) : option N :=
  header_numbers db !! hash.

Definition ReadChainConfig (hash : Hash) (db : DB) : option (params.ChainConfig Forks) :=
  chain_config db !! hash.

(** Modelled from the spec: committing a state trie (the code is in
    packages core/state and trie); "commit and obtain the resulting state
    root".  The nodes of the trie become resolvable by its root; the
    empty trie has no node to write. *)
Definition commit_state (root : Hash) (statedb : state.StateDB) (db : DB) : DB :=
  match map_to_list statedb with
  | [] => db
  | _ :: _ =>
      mkDB (<[root := statedb]> (states db)) (genesis_state db) (td db) (blocks db)
           (header_numbers db) (receipts db) (canonical db) (head_block db)
           (head_fast_block db) (head_header db) (chain_config db)
  end.
End rawdb.
Arguments DB : clear implicits.
End rawdb.

(** ** The genesis specification and its operations *)

Module genesis.

(** [GenesisAccount]: an account in the state of the genesis block.  The
    balance is a required field of the declarative format. *)
Module GenesisAccount.
Record t := mk {
  Code : list byte;
  Storage : gmap Hash Hash;
  Balance : Z;
  Nonce : N;
  PrivateKey : list byte
}.
End GenesisAccount.

(** [GenesisAlloc]: [map[common.Address]GenesisAccount] *)
Abbreviation GenesisAlloc := (gmap Address GenesisAccount.t).

(** [Genesis]; [Config] is a pointer into the heap of chain
    configurations. *)
Module Genesis.
Record t := mk {
  Config : option loc;
  Nonce : N;
  Timestamp : N;
  ExtraData : list byte;
  GasLimit : N;
  Difficulty : option Z;
  Mixhash : Hash;
  Coinbase : Address;
  Alloc : GenesisAlloc;
  Number : N;
  GasUsed : N;
  ParentHash : Hash;
  BaseFee : option Z
}.
End Genesis.

(** The order in which a [for ... range] loop visits a Go map is not
    specified: a [MapOrder] is one way the runtime may enumerate the
    allocation table and a storage map, each entry once. *)
Record MapOrder := mkMapOrder {
  range_alloc : GenesisAlloc -> list (Address * GenesisAccount.t);
  range_alloc_perm : forall ga, range_alloc ga ≡ₚ map_to_list ga;
  range_storage : gmap Hash Hash -> list (Hash * Hash);
  range_storage_perm : forall m, range_storage m ≡ₚ map_to_list m
}.

(** What genesis.go takes from other packages. *)
Class Externals := {
  (** package params: the rest of a chain configuration and its methods *)
  Forks : Type;
  IsLondon : params.ChainConfig Forks -> Z -> bool;
  CheckConfigForkOrder : params.ChainConfig Forks -> option error;
  CheckCompatible :
    params.ChainConfig Forks -> params.ChainConfig Forks -> N ->
    option ConfigCompatError;
  (** package params: protocol constants *)
  GenesisGasLimit : N;
  GenesisDifficulty : Z;
  InitialBaseFee : N;
  MainnetGenesisHash : Hash;
  StagenetGenesisHash : Hash;
  TestnetGenesisHash : Hash;
  (** package params: the global configurations, as pointers *)
  MainnetChainConfig : loc;
  StagenetChainConfig : loc;
  TestnetChainConfig : loc;
  AllEthashProtocolChanges : loc;
  (** package crypto *)
  SignatureLength : nat;
  (** hashing: the Merkle root of an account state, the hash of a header,
      the roots of the empty transaction/receipt tries and uncle list *)
  state_root : state.StateDB -> Hash;
  block_hash : types.Header.t -> Hash;
  EmptyRootHash : Hash;
  EmptyUncleHash : Hash;
  (** codecs: [json.Marshal] of an allocation, [rlp.EncodeToBytes] of the
      validator-set extra-data *)
  ValidatorVote : Type;
  json_Marshal : GenesisAlloc -> error + list byte;
  rlp_EncodeToBytes : types.QBFTExtra ValidatorVote -> error + list byte
}.

(** What a run of genesis.go works on: the store behind the [db] handle
    and the heap of [*params.ChainConfig] objects. *)
Record World_of {Forks : Type} := mkWorld {
  store : rawdb.DB Forks;
  configs : gmap loc (params.ChainConfig Forks)
}.
Arguments World_of : clear implicits.
Arguments mkWorld {Forks} store configs.
Arguments store {Forks} w.
Arguments configs {Forks} w.

Abbreviation ChainConfig := (params.ChainConfig Forks).
Abbreviation DB := (rawdb.DB Forks).
Abbreviation World := (World_of Forks).

Section genesis.
Context {ext : Externals} (order : MapOrder).

(** The [db] argument of [ToBlock]: nil, or the handle of the store. *)
Inductive Database := db_nil | db_store.

Definition rawdb_read {A} (f : DB -> A) : M World A :=
  fun w => Done (f (store w)) w.

Definition rawdb_write (f : DB -> DB) : M World unit :=
  fun w => Done tt (mkWorld (f (store w)) (configs w)).

(** [*p] for a configuration pointer. *)
Definition load (p : option loc) : M World ChainConfig :=
  fun w => match p ≫= fun l => configs w !! l with
           | Some c => Done c w
           | None => Panic "invalid memory address or nil pointer dereference"
           end.

(** [p.field = v] *)
Definition assign (p : option loc) (f : ChainConfig -> ChainConfig) : M World unit :=
  fun w => match p with
           | Some l =>
               match configs w !! l with
               | Some c => Done tt (mkWorld (store w) (<[l := f c]> (configs w)))
               | None => Panic "invalid memory address or nil pointer dereference"
               end
           | None => Panic "invalid memory address or nil pointer dereference"
           end.

(** [rawdb.ReadChainConfig] decodes the stored configuration into a new
    object. *)
Definition ReadChainConfig (hash : Hash) : M World (option loc) :=
  fun w => match rawdb.ReadChainConfig hash (store w) with
           | None => Done None w
           | Some c =>
               let l := fresh (dom (configs w)) in
               Done (Some l) (mkWorld (store w) (<[l := c]> (configs w)))
           end.

Definition errGenesisNoConfig : error :=
  errors_New "genesis has no chain configuration".

(** *** [func (ga *GenesisAlloc) flush(db) (common.Hash, error)] *)

(** The body of the loop over the allocation. *)
Definition flush_account (statedb : state.StateDB)
    (entry : Address * GenesisAccount.t) : state.StateDB :=
  let '(addr, account) := entry in
  let statedb := state.AddBalance addr (GenesisAccount.Balance account) statedb in
  let statedb := state.SetCode addr (GenesisAccount.Code account) statedb in
  let statedb := state.SetNonce addr (GenesisAccount.Nonce account) statedb in
  foldl (fun statedb '(key, value) => state.SetState addr key value statedb)
        statedb (range_storage order (GenesisAccount.Storage account)).

(** A store held in memory does not fail: the three error returns of
    [flush] (opening the empty state, committing it, committing the trie
    database) are never taken, and the error is always nil. *)
Definition flush (ga : GenesisAlloc) (db : DB) : Hash * option error * DB :=
  let statedb : state.StateDB := ∅ in
  let statedb := foldl flush_account statedb (range_alloc order ga) in
  let root := state_root statedb in
  (root, None, rawdb.commit_state root statedb db).

(** *** [func (ga *GenesisAlloc) write(db, hash) error] *)

Definition write (ga : GenesisAlloc) (hash : Hash) : M World (option error) :=
  match json_Marshal ga with
  | inl err => ret (Some err)
  | inr blob => rawdb_write (rawdb.WriteGenesisState hash blob);; ret None
  end.

(** *** [func (g *Genesis) configOrDefault(ghash) *params.ChainConfig] *)

Definition configOrDefault (g : option Genesis.t) (ghash : Hash) : option loc :=
  match g with
  | Some g => Genesis.Config g
  | None =>
      if decide (ghash = MainnetGenesisHash) then Some MainnetChainConfig
      else if decide (ghash = StagenetGenesisHash) then Some StagenetChainConfig
      else if decide (ghash = TestnetGenesisHash) then Some TestnetChainConfig
      else Some AllEthashProtocolChanges
  end.

(** *** [func (g *Genesis) ToBlock(db) *types.Block] *)

(** Modelled from the spec: [types.NewBlock] with no transactions, uncles
    or receipts (its code is in package core/types); "produce an
    empty-body block (no transactions, no receipts, no ommers) using a
    canonical empty trie root for transactions/receipts". *)
Definition NewBlock (head : types.Header.t) : types.Block :=
  types.mkBlock
    (types.Header.set_body_hashes EmptyRootHash EmptyRootHash EmptyUncleHash head).

Definition Block_Hash (b : types.Block) : Hash := block_hash (types.header b).
Definition Block_Number (b : types.Block) : Z := types.Header.Number (types.header b).
Definition Block_NumberU64 (b : types.Block) : N := Z.to_N (Block_Number b).
Definition Block_Extra (b : types.Block) : list byte := types.Header.Extra (types.header b).
Definition Block_Difficulty (b : types.Block) : option Z :=
  types.Header.Difficulty (types.header b).

(** The header [ToBlock] assembles, given the state root and whether the
    configuration has London active at block zero. *)
Definition genesis_header (g : Genesis.t) (root : Hash) (london : bool)
  : types.Header.t :=
  let head := {|
    types.Header.Number := Z.of_N (Genesis.Number g);
    types.Header.Nonce := Genesis.Nonce g;
    types.Header.Time := Genesis.Timestamp g;
    types.Header.ParentHash := Genesis.ParentHash g;
    types.Header.Extra := Genesis.ExtraData g;
    types.Header.GasLimit := Genesis.GasLimit g;
    types.Header.GasUsed := Genesis.GasUsed g;
    types.Header.BaseFee := Genesis.BaseFee g;
    types.Header.Difficulty := Genesis.Difficulty g;
    types.Header.MixDigest := Genesis.Mixhash g;
    types.Header.Coinbase := Genesis.Coinbase g;
    types.Header.Root := root;
    (* left at their zero value by the composite literal *)
    types.Header.UncleHash := 0%N;
    types.Header.TxHash := 0%N;
    types.Header.ReceiptHash := 0%N
  |} in
  let head :=
    if decide (Genesis.GasLimit g = 0%N)
    then types.Header.set_GasLimit GenesisGasLimit head else head in
  let head :=
    if decide (Genesis.Difficulty g = None /\ Genesis.Mixhash g = 0%N)
    then types.Header.set_Difficulty (Some GenesisDifficulty) head else head in
  if london then
    match Genesis.BaseFee g with
    | Some fee => types.Header.set_BaseFee (Some fee) head
    | None => types.Header.set_BaseFee (Some (Z.of_N InitialBaseFee)) head
    end
  else head.

Definition ToBlock (g : Genesis.t) (db : Database) : M World types.Block :=
  w <- get;;
  let db0 := match db with
             | db_nil => rawdb.NewMemoryDatabase
             | db_store => store w
             end in
  let '(root, err, db1) := flush (Genesis.Alloc g) db0 in
  match db with
  | db_nil => ret tt
  | db_store => rawdb_write (fun _ => db1)
  end;;
  match err with
  | Some _ => panic "flush"
  | None =>
      london <- match Genesis.Config g with
                | None => ret false
                | Some c => cfg <- load (Some c);; ret (IsLondon cfg 0)
                end;;
      ret (NewBlock (genesis_header g root london))
  end.

(** *** [func (g *Genesis) Commit(db)], returning a block or an error *)

Definition Commit (g : Genesis.t) : M World (error + types.Block) :=
  block <- ToBlock g db_store;;
  if decide (Z.sgn (Block_Number block) ≠ 0%Z) then
    ret (inl (errors_New "can't commit genesis block with number > 0"))
  else
    let config := match Genesis.Config g with
                  | Some c => Some c
                  | None => Some AllEthashProtocolChanges
                  end in
    cfg <- load config;;
    match CheckConfigForkOrder cfg with
    | Some err => ret (inl err)
    | None =>
        if decide (params.Clique cfg ≠ None /\
                   length (Block_Extra block) < 32 + SignatureLength) then
          ret (inl (errors_New "can't start clique chain without signers"))
        else
          werr <- write (Genesis.Alloc g) (Block_Hash block);;
          match werr with
          | Some err => ret (inl err)
          | None =>
              rawdb_write (rawdb.WriteTd (Block_Hash block) (Block_NumberU64 block)
                                         (Block_Difficulty block));;
              rawdb_write (rawdb.WriteBlock (Block_Hash block) (Block_NumberU64 block) block);;
              rawdb_write (rawdb.WriteReceipts (Block_Hash block) (Block_NumberU64 block) []);;
              rawdb_write (rawdb.WriteCanonicalHash (Block_Hash block) (Block_NumberU64 block));;
              rawdb_write (rawdb.WriteHeadBlockHash (Block_Hash block));;
              rawdb_write (rawdb.WriteHeadFastBlockHash (Block_Hash block));;
              rawdb_write (rawdb.WriteHeadHeaderHash (Block_Hash block));;
              rawdb_write (rawdb.WriteChainConfig (Block_Hash block) cfg);;
              ret (inr block)
          end
    end.

(** *** [GenerateGenesisExtraDataForIBFTValSet], [DefaultGenesisBlock] *)

Definition GenerateGenesisExtraDataForIBFTValSet (valset : list Address)
  : M World (list byte) :=
  let extra := {|
    types.VanityData := replicate 32 Byte.x00;
    types.Validators := valset;
    types.Vote_ := None;
    types.Round := 0%N;
    types.CommittedSeal := []
  |} in
  match rlp_EncodeToBytes extra with
  | inl _ =>
      panic "RLP Encoding of genesis extra failed. Unable to create genesis block"
  | inr extraBytes => ret extraBytes
  end.

Definition DefaultGenesisBlock : M World Genesis.t :=
  let validatorSet : list Address := [
    0x135ec2bc4c04935ccd53967a072562120e4a3f92;
    0x57752beb85f0b8811023f048039591ef9eb78929;
    0xd8a2376cf7afa426414b960cfbfb4bb780e5181a;
    0x83ff6272d1de08ad8d492167412f1f329bd805f3;
    0x5584c91681cd7d850750941618dbaea2944e8ed4;
    0x763976728bc214a5c389d3928e03661bd6e7a649;
    0x915956a26fd7ee449d37ec93bbcfc5cad5ac8e27;
    0xd3e10f17e2e34e0a0fea05573992b21e13c224c9;
    0x7779ab2cb675d7a31714e86d01bd7a56a03f41d8
  ]%N in
  extraData <- GenerateGenesisExtraDataForIBFTValSet validatorSet;;
  ret {|
    Genesis.Config := Some MainnetChainConfig;
    Genesis.Number := 0;
    Genesis.Nonce := 0;
    Genesis.Timestamp := 0;
    Genesis.ExtraData := extraData;
    Genesis.GasLimit := 30000000;
    Genesis.GasUsed := 0;
    Genesis.Difficulty := Some 1%Z;
    Genesis.Mixhash :=
      0x63746963616c2062797a616e74696e65206661756c7420746f6c6572616e6365%N;
    Genesis.ParentHash := 0%N;
    Genesis.Coinbase := 0%N;
    Genesis.Alloc :=
      {[ 0x7b56c6e6f53498e3e9332b180fe41f1add202f28%N :=
           GenesisAccount.mk [] ∅ 1000000000000000000000000000%Z 0 [] ]};
    Genesis.BaseFee := None
  |}.

(** *** [SetupGenesisBlockWithOverride] *)

(** [if override != nil { cfg.Field = override }], for both overrides. *)
Definition apply_overrides (overrideArrowGlacier overrideTerminalTotalDifficulty : option Z)
    (newcfg : option loc) : M World unit :=
  match overrideArrowGlacier with
  | Some _ => assign newcfg (params.set_ArrowGlacierBlock overrideArrowGlacier)
  | None => ret tt
  end;;
  match overrideTerminalTotalDifficulty with
  | Some _ =>
      assign newcfg (params.set_TerminalTotalDifficulty overrideTerminalTotalDifficulty)
  | None => ret tt
  end.

(** Modelled from the spec: opening the state at a root (the code is in
    package core/state); the "state is unreadable" when the "state root
    [is] not resolvable in the store".  The zero root and the root of the
    empty trie resolve in any store. *)
Definition state_New (root : Hash) (db : DB) : bool :=
  bool_decide (root = 0%N) || bool_decide (root = state_root ∅)
  || bool_decide (is_Some (rawdb.states db !! root)).

Definition SetupGenesisBlockWithOverride (genesis : option Genesis.t)
    (overrideArrowGlacier overrideTerminalTotalDifficulty : option Z)
  : M World (option loc * Hash * option error) :=
  if match genesis with
     | Some g => bool_decide (Genesis.Config g = None)
     | None => false
     end
  then ret (Some AllEthashProtocolChanges, 0%N, Some errGenesisNoConfig)
  else
    (* Just commit the new block if there is no stored genesis block. *)
    stored <- rawdb_read (rawdb.ReadCanonicalHash 0);;
    if decide (stored = 0%N) then
      genesis <- match genesis with
                 | None => DefaultGenesisBlock
                 | Some g => ret g
                 end;;
      r <- Commit genesis;;
      match r with
      | inl err => ret (Genesis.Config genesis, 0%N, Some err)
      | inr block => ret (Genesis.Config genesis, Block_Hash block, None)
      end
    else
    (* We have the genesis block in database but the corresponding state
       is missing. *)
    header <- rawdb_read (rawdb.ReadHeader stored 0);;
    match header with
    | None => panic "invalid memory address or nil pointer dereference"
    | Some header =>
    readable <- rawdb_read (state_New (types.Header.Root header));;
    if negb readable then
      genesis <- match genesis with
                 | None => DefaultGenesisBlock
                 | Some g => ret g
                 end;;
      (* Ensure the stored genesis matches with the given one. *)
      block <- ToBlock genesis db_nil;;
      let hash := Block_Hash block in
      if decide (hash ≠ stored) then
        ret (Genesis.Config genesis, hash, Some (GenesisMismatchError stored hash))
      else
        r <- Commit genesis;;
        match r with
        | inl err => ret (Genesis.Config genesis, hash, Some err)
        | inr block => ret (Genesis.Config genesis, Block_Hash block, None)
        end
    else
    (* Check whether the genesis block is already written. *)
    mismatch <- match genesis with
                | Some g =>
                    block <- ToBlock g db_nil;;
                    let hash := Block_Hash block in
                    if decide (hash ≠ stored)
                    then ret (Some (Genesis.Config g, hash,
                                    Some (GenesisMismatchError stored hash)))
                    else ret None
                | None => ret None
                end;;
    match mismatch with
    | Some result => ret result
    | None =>
    (* Get the existing chain configuration. *)
    let newcfg := configOrDefault genesis stored in
    apply_overrides overrideArrowGlacier overrideTerminalTotalDifficulty newcfg;;
    cfg <- load newcfg;;
    match CheckConfigForkOrder cfg with
    | Some err => ret (newcfg, 0%N, Some err)
    | None =>
    storedcfg <- ReadChainConfig stored;;
    match storedcfg with
    | None =>
    (* Found genesis block without chain config *)
    cfg <- load newcfg;;
    rawdb_write (rawdb.WriteChainConfig stored cfg);;
    ret (newcfg, stored, None)
    | Some _ =>
    (* Special case: a private network (no genesis and also no mainnet hash
       in the database): only apply the overrides. *)
    newcfg <- (if decide (genesis = None /\ stored ≠ MainnetGenesisHash) then
                 let newcfg := storedcfg in
                 apply_overrides overrideArrowGlacier overrideTerminalTotalDifficulty newcfg;;
                 ret newcfg
               else ret newcfg);;
    (* Check config compatibility and write the config. Compatibility errors
       are returned to the caller unless we're already at block zero. *)
    headhash <- rawdb_read rawdb.ReadHeadHeaderHash;;
    height <- rawdb_read (rawdb.ReadHeaderNumber headhash);;
    match height with
    | None =>
        ret (newcfg, stored, Some (errors_New "missing block number for head header hash"))
    | Some height =>
        scfg <- load storedcfg;;
        ncfg <- load newcfg;;
        let compatErr := CheckCompatible scfg ncfg height in
        match compatErr with
        | Some e =>
            if decide (height ≠ 0%N /\ RewindTo e ≠ 0%N)
            then ret (newcfg, stored, Some (ConfigCompat e))
            else
              rawdb_write (rawdb.WriteChainConfig stored ncfg);;
              ret (newcfg, stored, None)
        | None =>
            rawdb_write (rawdb.WriteChainConfig stored ncfg);;
            ret (newcfg, stored, None)
        end
    end
    end
    end
    end
    end.

(** *** [SetupGenesisBlock] *)

Definition SetupGenesisBlock (genesis : option Genesis.t)
  : M World (option loc * Hash * option error) :=
  SetupGenesisBlockWithOverride genesis None None.

End genesis.
End genesis.

(** * Definitions the statements below use *)

(** What a run returned, when it did not panic. *)
Definition result {St A} (o : outcome St A) : option A :=
  match o with
  | Done a _ => Some a
  | Panic _ => None
  end.

Definition final_state {St A} (o : outcome St A) : option St :=
  match o with
  | Done _ s => Some s
  | Panic _ => None
  end.

Module genesis_spec.
Section genesis_spec.
Import genesis.
Context {ext : Externals}.

(** The account the flush leaves for an allocation entry. *)
Definition account_of (a : GenesisAccount.t) : state.Account :=
  state.mkAccount (GenesisAccount.Balance a) (GenesisAccount.Nonce a)
                  (GenesisAccount.Code a) (GenesisAccount.Storage a).

(** The visiting order reversed. *)
Definition reverse_order (o : MapOrder) : MapOrder :=
  {| range_alloc := fun ga => reverse (range_alloc o ga);
     range_alloc_perm := fun ga =>
       transitivity (reverse_Permutation _) (range_alloc_perm o ga);
     range_storage := fun m => reverse (range_storage o m);
     range_storage_perm := fun m =>
       transitivity (reverse_Permutation _) (range_storage_perm o m) |}.

(** Whether the configuration a specification points to has London
    active at block zero ([g.Config != nil && g.Config.IsLondon(0)]). *)
Definition london_at_genesis (cfgs : gmap loc ChainConfig) (g : Genesis.t) : bool :=
  match Genesis.Config g ≫= fun l => cfgs !! l with
  | Some cfg => IsLondon cfg 0
  | None => false
  end.

(** The block [ToBlock] materializes from a specification, and its hash. *)
Definition genesis_block (cfgs : gmap loc ChainConfig) (g : Genesis.t) : types.Block :=
  NewBlock (genesis_header g (state_root (account_of <$> Genesis.Alloc g))
                           (london_at_genesis cfgs g)).

Definition genesis_hash (cfgs : gmap loc ChainConfig) (g : Genesis.t) : Hash :=
  Block_Hash (genesis_block cfgs g).

(** The store after the allocation of [g] was flushed into it. *)
Definition flushed (g : Genesis.t) (db : DB) : DB :=
  rawdb.commit_state (state_root (account_of <$> Genesis.Alloc g))
                     (account_of <$> Genesis.Alloc g) db.

(** Every configuration pointer a run may follow points into the heap. *)
Definition config_valid (cfgs : gmap loc ChainConfig) (p : option loc) : Prop :=
  forall l, p = Some l -> is_Some (cfgs !! l).

Definition globals_valid (cfgs : gmap loc ChainConfig) : Prop :=
  is_Some (cfgs !! MainnetChainConfig) /\ is_Some (cfgs !! StagenetChainConfig) /\
  is_Some (cfgs !! TestnetChainConfig) /\ is_Some (cfgs !! AllEthashProtocolChanges).

(** A configuration with the explicit overrides applied. *)
Definition overridden (overrideArrowGlacier overrideTerminalTotalDifficulty : option Z)
    (c : ChainConfig) : ChainConfig :=
  let c := match overrideArrowGlacier with
           | Some _ => params.set_ArrowGlacierBlock overrideArrowGlacier c
           | None => c
           end in
  match overrideTerminalTotalDifficulty with
  | Some _ => params.set_TerminalTotalDifficulty overrideTerminalTotalDifficulty c
  | None => c
  end.

(** The two configurations the compatibility check of
    [SetupGenesisBlockWithOverride] compares: the stored one and the
    candidate.  [c0] is the configuration [configOrDefault] points to,
    [sc] the stored one.  On a private network the candidate is the
    stored object itself, so the check compares it with itself. *)
Definition candidate (genesis : option Genesis.t) (stored : Hash)
    (overrideArrowGlacier overrideTerminalTotalDifficulty : option Z)
    (c0 sc : ChainConfig) : ChainConfig :=
  if decide (genesis = None /\ stored ≠ MainnetGenesisHash)
  then overridden overrideArrowGlacier overrideTerminalTotalDifficulty sc
  else overridden overrideArrowGlacier overrideTerminalTotalDifficulty c0.

Definition stored_operand (genesis : option Genesis.t) (stored : Hash)
    (overrideArrowGlacier overrideTerminalTotalDifficulty : option Z)
    (sc : ChainConfig) : ChainConfig :=
  if decide (genesis = None /\ stored ≠ MainnetGenesisHash)
  then overridden overrideArrowGlacier overrideTerminalTotalDifficulty sc
  else sc.

(** The store differs from [db] in its state tries only. *)
Definition same_chain_records (db db' : DB) : Prop :=
  rawdb.genesis_state db' = rawdb.genesis_state db /\
  rawdb.td db' = rawdb.td db /\
  rawdb.blocks db' = rawdb.blocks db /\
  rawdb.header_numbers db' = rawdb.header_numbers db /\
  rawdb.receipts db' = rawdb.receipts db /\
  rawdb.canonical db' = rawdb.canonical db /\
  rawdb.head_block db' = rawdb.head_block db /\
  rawdb.head_fast_block db' = rawdb.head_fast_block db /\
  rawdb.head_header db' = rawdb.head_header db /\
  rawdb.chain_config db' = rawdb.chain_config db.

(** The pointer [Commit] takes the configuration from. *)
Definition commit_config (g : Genesis.t) : option loc :=
  match Genesis.Config g with
  | Some c => Some c
  | None => Some AllEthashProtocolChanges
  end.

(** The specification a run works with: the supplied one, or the default
    main-net genesis. *)
Definition effective (genesis : option Genesis.t) : M World Genesis.t :=
  match genesis with
  | None => DefaultGenesisBlock
  | Some g => ret g
  end.

(** The end of a reconciliation that reached the compatibility check
    with the stored configuration [scfg], the candidate [ncfg] at [p],
    the store [db] and the configuration heap [cfgs]. *)
Definition compat_outcome (stored : Hash) (p : option loc)
    (scfg ncfg : ChainConfig) (db : DB) (cfgs : gmap loc ChainConfig)
  : outcome World (option loc * Hash * option error) :=
  match rawdb.ReadHeaderNumber (rawdb.ReadHeadHeaderHash db) db with
  | None =>
      Done (p, stored, Some (errors_New "missing block number for head header hash"))
           (mkWorld db cfgs)
  | Some height =>
      match CheckCompatible scfg ncfg height with
      | Some e =>
          if decide (height ≠ 0%N /\ RewindTo e ≠ 0%N)
          then Done (p, stored, Some (ConfigCompat e)) (mkWorld db cfgs)
          else Done (p, stored, None)
                    (mkWorld (rawdb.WriteChainConfig stored ncfg db) cfgs)
      | None =>
          Done (p, stored, None)
               (mkWorld (rawdb.WriteChainConfig stored ncfg db) cfgs)
      end
  end.

(** The three structural errors of [Commit]. *)
Definition InvalidGenesisHeight : error :=
  errors_New "can't commit genesis block with number > 0".
Definition MissingSignerSet : error :=
  errors_New "can't start clique chain without signers".

End genesis_spec.
End genesis_spec.

(** * Sample collaborators, for running the model on concrete inputs *)

Module sample.
Import priority_transactors genesis.

(** ** A registry: the configuration is the registry address itself, the
    EVM holds the code at that address and answers every call alike. *)
Record SampleEVM := mkEVM {
  evm_code : list byte;
  evm_answer : list byte * option error
}.

Definition char (b : byte) : string := String (Ascii.ascii_of_byte b) EmptyString.

(** A sample codec: a tuple is two bytes, its public key and its name;
    the waiver flag is set for the name ["A"].  An empty or odd-length
    output does not decode. *)
Fixpoint decode_tuples (fuel : nat) (bs : list byte) : error + list TransactorMeta.t :=
  match fuel, bs with
  | _, [] => inr []
  | Datatypes.S fuel, k :: n :: bs =>
      match decode_tuples fuel bs with
      | inr ts => inr (TransactorMeta.mk (char k) (bool_decide (n = Byte.x41)) (char n) :: ts)
      | inl e => inl e
      end
  | _, _ => inl (errors_New "abi: improperly formatted output")
  end.

Definition decode_list (bs : list byte) : error + list TransactorMeta.t :=
  match bs with
  | [] => inl (errors_New "abi: attempting to unmarshal an empty string")
  | _ => decode_tuples (length bs) bs
  end.

Definition decode_one (bs : list byte) : error + TransactorMeta.t :=
  match decode_list bs with
  | inr [t] => inr t
  | inr _ => inl (errors_New "abi: improperly formatted output")
  | inl e => inl e
  end.

#[export] Instance registry : Registry := {|
  priority_transactors.ChainConfig := Address;
  EVM := SampleEVM;
  PublicKey := string;
  GetPriorityTransactorsContractAddress := fun cfg _ => cfg;
  GetCode := fun evm _ => evm_code evm;
  StaticCall := fun evm _ => evm_answer evm;
  Pack := fun _ _ => [];
  Unpack_getTransactors := decode_list;
  Unpack_getTransactorByKey := decode_one;
  HexToPublicKey := fun s => s;
  ToUnprefixedHexString := fun k => k;
  MaxGasLimit := 0x7fffffffffffffff%N
|}.

(** ** Chain parameters: a schedule of two forks, the second one London. *)
Record SampleForks := mkForks {
  berlin : option N;
  london : option N
}.

Definition isForked (s : option N) (head : N) : bool :=
  match s with
  | Some b => (b <=? head)%N
  | None => false
  end.

(** A fork is incompatible when it is active at the head in either
    configuration and the two disagree on its block.  The rewind target
    is one below the lower of the two blocks, and 0 when that block is 0
    or 1. *)
Definition fork_incompatible (s1 s2 : option N) (head : N) : bool :=
  (isForked s1 head || isForked s2 head) && negb (bool_decide (s1 = s2)).

Definition rewind_target (s1 s2 : option N) : N :=
  match s1, s2 with
  | None, None => 0
  | Some a, None | None, Some a => N.pred a
  | Some a, Some b => N.pred (N.min a b)
  end.

Definition sample_CheckCompatible (c newcfg : params.ChainConfig SampleForks)
    (height : N) : option ConfigCompatError :=
  let f := params.forks c in
  let g := params.forks newcfg in
  if fork_incompatible (berlin f) (berlin g) height then
    Some (mkConfigCompatError "Berlin fork block" (rewind_target (berlin f) (berlin g)))
  else if fork_incompatible (london f) (london g) height then
    Some (mkConfigCompatError "London fork block" (rewind_target (london f) (london g)))
  else None.

(** Berlin must not be scheduled after London. *)
Definition sample_CheckConfigForkOrder (c : params.ChainConfig SampleForks)
  : option error :=
  match berlin (params.forks c), london (params.forks c) with
  | Some b, Some l =>
      if (l <? b)%N then Some (errors_New "unsupported fork ordering") else None
  | None, Some _ => Some (errors_New "unsupported fork ordering")
  | _, _ => None
  end.

(** Sums stand in for the Merkle root and the header hash. *)
Definition sum_storage (m : gmap Hash Hash) : N :=
  map_fold (fun k v acc => k + v + acc)%N 0%N m.

Definition sample_state_root (s : state.StateDB) : Hash :=
  map_fold (fun a o acc =>
              a + Z.to_N (state.Balance o) + state.Nonce o
              + N.of_nat (length (state.Code o)) + sum_storage (state.Storage o)
              + acc)%N 1%N s.

Definition sample_block_hash (h : types.Header.t) : Hash :=
  (1 + types.Header.Root h + types.Header.GasLimit h + types.Header.Time h
   + types.Header.Nonce h + Z.to_N (types.Header.Number h)
   + Z.to_N (default 0%Z (types.Header.Difficulty h))
   + Z.to_N (default 0%Z (types.Header.BaseFee h))
   + N.of_nat (length (types.Header.Extra h)))%N.

#[export] Instance externals : Externals := {|
  Forks := SampleForks;
  IsLondon := fun c num => isForked (london (params.forks c)) (Z.to_N num);
  CheckConfigForkOrder := sample_CheckConfigForkOrder;
  CheckCompatible := sample_CheckCompatible;
  GenesisGasLimit := 4712388%N;
  GenesisDifficulty := 131072%Z;
  InitialBaseFee := 1000000000%N;
  MainnetGenesisHash := 1001%N;
  StagenetGenesisHash := 1002%N;
  TestnetGenesisHash := 4843570%N;
  MainnetChainConfig := 1%positive;
  StagenetChainConfig := 2%positive;
  TestnetChainConfig := 3%positive;
  AllEthashProtocolChanges := 4%positive;
  SignatureLength := 65;
  state_root := sample_state_root;
  block_hash := sample_block_hash;
  EmptyRootHash := 77%N;
  EmptyUncleHash := 78%N;
  ValidatorVote := unit;
  json_Marshal := fun _ => inr [];
  rlp_EncodeToBytes := fun extra =>
    inr (types.VanityData extra
         ++ replicate (20 * length (types.Validators extra)) Byte.x00)
|}.

(** The visiting order of stdpp's [map_to_list]. *)
Definition order : MapOrder :=
  {| range_alloc := map_to_list;
     range_alloc_perm := fun _ => reflexivity _;
     range_storage := map_to_list;
     range_storage_perm := fun _ => reflexivity _ |}.

Definition config (berlin london : option N) : params.ChainConfig SampleForks :=
  params.mkChainConfig None None None (mkForks berlin london).

(** The heap at start-up: the four global configurations, and at 5 the
    configuration the sample genesis was first committed with. *)
Definition heap : gmap loc (params.ChainConfig SampleForks) :=
  {[ 1%positive := config (Some 0%N) (Some 0%N);
     2%positive := config (Some 0%N) (Some 0%N);
     3%positive := config (Some 0%N) (Some 0%N);
     4%positive := config (Some 0%N) (Some 0%N);
     5%positive := config (Some 4%N) (Some 6%N) ]}.

Definition fresh_world : World := mkWorld rawdb.NewMemoryDatabase heap.

(** The sample genesis: one funded account, an explicit base fee.  With
    number 0 and balance 100 it is the testnet genesis of these
    parameters: its hash is [TestnetGenesisHash]. *)
Definition spec (number : N) (balance : Z) : Genesis.t :=
  {| Genesis.Config := Some 5%positive;
     Genesis.Nonce := 0;
     Genesis.Timestamp := 0;
     Genesis.ExtraData := [];
     Genesis.GasLimit := 0;
     Genesis.Difficulty := None;
     Genesis.Mixhash := 0;
     Genesis.Coinbase := 0;
     Genesis.Alloc := {[ 1%N := GenesisAccount.mk [] ∅ balance 0 [] ]};
     Genesis.Number := number;
     Genesis.GasUsed := 0;
     Genesis.ParentHash := 0;
     Genesis.BaseFee := Some 7%Z |}.

(** The world after [spec 0 100] was committed to the empty store. *)
Definition committed_world : World :=
  default fresh_world (final_state (Commit order (spec 0 100) fresh_world)).

(** The committed world with the head header advanced to a block at
    height [n], and the configuration at 5 replaced by [c]. *)
Definition advanced_world (n : N) (c : params.ChainConfig SampleForks) : World :=
  let db := store committed_world in
  let head : Hash := 424242%N in
  mkWorld
    (rawdb.WriteHeadHeaderHash head
       (rawdb.mkDB (rawdb.states db) (rawdb.genesis_state db) (rawdb.td db)
                   (rawdb.blocks db) (<[head := n]> (rawdb.header_numbers db))
                   (rawdb.receipts db) (rawdb.canonical db) (rawdb.head_block db)
                   (rawdb.head_fast_block db) (rawdb.head_header db)
                   (rawdb.chain_config db)))
    (<[5%positive := c]> (configs committed_world)).
(** The hash and the header of the committed sample genesis. *)
Definition stored_hash : Hash := 4843570%N.

Definition stored_header : types.Header.t :=
  types.header (genesis_spec.genesis_block heap (spec 0 100)).

(** The sample genesis with another balance and no configuration. *)
Definition spec_without_config : Genesis.t :=
  let g := spec 0 200 in
  Genesis.mk None (Genesis.Nonce g) (Genesis.Timestamp g) (Genesis.ExtraData g)
    (Genesis.GasLimit g) (Genesis.Difficulty g) (Genesis.Mixhash g)
    (Genesis.Coinbase g) (Genesis.Alloc g) (Genesis.Number g) (Genesis.GasUsed g)
    (Genesis.ParentHash g) (Genesis.BaseFee g).

(** The registry at address 7 with no code deployed: a call to it returns
    no output and no error. *)
Definition evm_without_code : SampleEVM := mkEVM [] ([], None).

(** The registry with code, answering with two tuples under one key. *)
Definition evm_duplicate_key : SampleEVM :=
  mkEVM [Byte.x60] ([Byte.x4b; Byte.x41; Byte.x4b; Byte.x42], None).

(** A transaction with a chain id and a fee cap, every other pointer nil. *)
Definition tx_heap : @priority_tx.Heap unit :=
  priority_tx.mkHeap {[ 1%positive := 5%Z; 2%positive := 9%Z ]} ∅ ∅ ∅.

Definition tx : priority_tx.PriorityTx :=
  priority_tx.mkPriorityTx (Some 1%positive) 3 None (Some 2%positive) 21000
    None None None None None None None None None None.

End sample.

(** * core/genesis.go: the storage-key codec and the remaining entry points *)

(** ** Go's [encoding/hex], as [storageJSON] uses it *)

Module hex.

(** [hex.InvalidByteError] and [hex.ErrLength] *)
Inductive decode_error :=
| InvalidByteError (b : byte)
| ErrLength.

Definition byte_of_N (n : N) : byte := default Byte.x00 (Byte.of_N n).

(** [reverseHexTable]: the value of a hex digit of either case; any other
    byte has none (the table holds 0xff there). *)
Definition fromHexChar (c : byte) : option N :=
  let n := Byte.to_N c in
  if decide (48 ≤ n ≤ 57)%N then Some (n - 48)%N
  else if decide (97 ≤ n ≤ 102)%N then Some (n - 87)%N
  else if decide (65 ≤ n ≤ 70)%N then Some (n - 55)%N
  else None.

(** A hex digit. *)
Definition is_hex (c : byte) : Prop := is_Some (fromHexChar c).

(** The loop of [hex.Decode(dst, src)] from index [i] of [dst]; the state
    is the destination slice.  A byte is written as soon as its two
    digits are read, so what was decoded before an error stays written. *)
Fixpoint Decode_loop (i : nat) (src : list byte) : M (list byte) (nat * option decode_error) :=
  match src with
  | p :: q :: src =>
      match fromHexChar p with
      | None => ret (i, Some (InvalidByteError p))
      | Some a =>
          match fromHexChar q with
          | None => ret (i, Some (InvalidByteError q))
          | Some b =>
              dst <- get;;
              if decide (i < length dst) then
                put (<[i := byte_of_N (N.lor (N.shiftl a 4) b)]> dst);;
                Decode_loop (Datatypes.S i) src
              else panic "index out of range"
          end
      end
  | [p] =>
      (* an odd length: the invalid character, if any, is the earlier
         problem *)
      match fromHexChar p with
      | None => ret (i, Some (InvalidByteError p))
      | Some _ => ret (i, Some ErrLength)
      end
  | [] => ret (i, None)
  end.

Definition Decode (src : list byte) : M (list byte) (nat * option decode_error) :=
  Decode_loop 0 src.

(** [hextable] and [hex.Encode] *)
Definition hextable : list byte :=
  [Byte.x30; Byte.x31; Byte.x32; Byte.x33; Byte.x34; Byte.x35; Byte.x36; Byte.x37;
   Byte.x38; Byte.x39; Byte.x61; Byte.x62; Byte.x63; Byte.x64; Byte.x65; Byte.x66].

Definition digit (n : N) : byte := default Byte.x00 (hextable !! N.to_nat n).

Definition Encode (src : list byte) : list byte :=
  v ← src; [digit (N.shiftr (Byte.to_N v) 4); digit (N.land (Byte.to_N v) 0x0f)].

End hex.

(** ** [storageJSON]: a 256 bit byte array that unmarshals from shorter hex *)

Module storageJSON.

(** The two errors of [UnmarshalText], with the text they quote. *)
Inductive unmarshal_error :=
| TooManyHexCharacters (text : list byte)
| InvalidHex (text : list byte).

(** [bytes.TrimPrefix] *)
Definition TrimPrefix (s prefix : list byte) : list byte :=
  if decide (take (length prefix) s = prefix) then drop (length prefix) s else s.

(** The text ["0x"] *)
Definition prefix_0x : list byte := [Byte.x30; Byte.x78].

(** [func (h *storageJSON) UnmarshalText(text []byte) error]; the state
    is the array [h] points to.  [h[offset:]] shares its storage with
    [h], so what [hex.Decode] writes is written to [h]. *)
Definition UnmarshalText (text : list byte)
  : M (list byte) (option unmarshal_error) :=
  let text := TrimPrefix text prefix_0x in
  if decide (64 < length text) then ret (Some (TooManyHexCharacters text))
  else
    h <- get;;
    let offset := (Z.of_nat (length h) - Z.of_nat (length text / 2))%Z in
    if decide (offset < 0 \/ Z.of_nat (length h) < offset)%Z then
      panic "slice bounds out of range"
    else
      let offset := Z.to_nat offset in
      match hex.Decode text (drop offset h) with
      | Panic msg => panic msg
      | Done (_, err) dst =>
          put (take offset h ++ dst);;
          match err with
          | Some _ => ret (Some (InvalidHex text))
          | None => ret None
          end
      end.

End storageJSON.

(** ** The remaining entry points of genesis.go *)

Module genesis_tools.
Import genesis.

(** [common.Address] as its twenty bytes, [a[:]] *)
Definition Address_bytes (a : Address) : list byte :=
  (fun i => hex.byte_of_N ((a / 256 ^ N.of_nat (19 - i)) mod 256)%N) <$> seq 0 20.

(** The extra-data literal of the stage network, [hexutil.MustDecode]d. *)
Definition stagenet_extra_hex : string :=
  "f88fa00000000000000000000000000000000000000000000000000000000000000000f86994c21ee98b5a90a6a45aba37fa5eddf90f5e8e181694ff0d56bd960c455a71f908496c79e8eafec34ccf9407afbe0d7d36b80454be1e185f55e02b9453625a944f9a82d7e094de7fb70d9ce2033ec0d65ac311249497f060952b1008c75cb030e3599725ad5cc306a2c080c0".

Definition stagenet_extra : list byte :=
  Eval vm_compute in
    let text := String.list_byte_of_string stagenet_extra_hex in
    match hex.Decode text (replicate (length text / 2) Byte.x00) with
    | Done (_, None) dst => dst
    | _ => []
    end.

Section genesis_tools.
Context {ext : Externals} (order : MapOrder).
(** [json.Unmarshal] into a table keyed by unprefixed address *)
Context (json_Unmarshal : list byte -> error + GenesisAlloc).
(** [params.AllCliqueProtocolChanges], as a pointer *)
Context (AllCliqueProtocolChanges : loc).

(** Modelled from the spec: [rawdb.ReadGenesisState] (its code is in
    package core/rawdb); the "allocation blob stored keyed by block
    hash", nil when there is none. *)
Definition ReadGenesisState (hash : Hash) (db : DB) : list byte :=
  default [] (rawdb.genesis_state db !! hash).

(** *** [func (ga *GenesisAlloc) UnmarshalJSON(data []byte) error] *)

Definition UnmarshalJSON (data : list byte) : error + GenesisAlloc :=
  match json_Unmarshal data with
  | inl err => inl err
  | inr m =>
      inr (foldl (fun (ga : GenesisAlloc) '(addr, a) => <[addr := a]> ga) ∅
                 (range_alloc order m))
  end.

(** *** [DefaultTestnetGenesisBlock], [DefaultStagenetGenesisBlock] *)

Definition DefaultTestnetGenesisBlock : M World Genesis.t :=
  let validatorSet : list Address := [
    0x3254e381fbc4b4cb796cadbaa7f8f1039ce672db;
    0xad76beb1f31c987ceb8bca6bb1889ea72651ce03;
    0x3dec15db792252b5541b839b735731adc9e6506d;
    0x3d950613caddabbe8e2188b61e0a4ab66754dddd
  ]%N in
  extraData <- GenerateGenesisExtraDataForIBFTValSet validatorSet;;
  ret {|
    Genesis.Config := Some TestnetChainConfig;
    Genesis.Number := 0;
    Genesis.Nonce := 0;
    Genesis.Timestamp := 1704292320;
    Genesis.ExtraData := extraData;
    Genesis.GasLimit := 30000000;
    Genesis.GasUsed := 0;
    Genesis.Difficulty := Some 1%Z;
    Genesis.Mixhash :=
      0x63746963616c2062797a616e74696e65206661756c7420746f6c6572616e6365%N;
    Genesis.ParentHash := 0%N;
    Genesis.Coinbase := 0%N;
    Genesis.Alloc :=
      {[ 0x8baf588ed346f0dff956da926d0ab473b4bc9dd9%N :=
           GenesisAccount.mk [] ∅ 17951808565760000000000000000%Z 0 [] ]};
    Genesis.BaseFee := None
  |}.

Definition DefaultStagenetGenesisBlock : M World Genesis.t :=
  ret {|
    Genesis.Config := Some StagenetChainConfig;
    Genesis.Nonce := 0;
    Genesis.Timestamp := 0;
    Genesis.ExtraData := stagenet_extra;
    Genesis.GasLimit := 16234336;
    Genesis.Difficulty := Some 1%Z;
    Genesis.Mixhash :=
      0x63746963616c2062797a616e74696e65206661756c7420746f6c6572616e6365%N;
    Genesis.Coinbase := 0%N;
    Genesis.Alloc :=
      <[ 0xf29A0844926Fe8d63e5B211978B26E3f6d9e9fd5%N :=
           GenesisAccount.mk [] ∅ 1000000000000000000000000000%Z 0 [] ]>
      {[ 0x72f1a0bAA7f1C79129A391C2F32bCD8247A18a63%N :=
           GenesisAccount.mk [] ∅ 1000000000000000000000000000%Z 0 [] ]};
    (* left at their zero value by the composite literal *)
    Genesis.Number := 0;
    Genesis.GasUsed := 0;
    Genesis.ParentHash := 0%N;
    Genesis.BaseFee := None
  |}.

(** *** [func CommitGenesisState(db, hash) error] *)

Definition CommitGenesisState (hash : Hash) : M World (option error) :=
  blob <- rawdb_read (ReadGenesisState hash);;
  r <- (if decide (length blob ≠ 0) then
          ret (UnmarshalJSON blob)
        else
          (* Genesis allocation is missing: supported networks recover
             with defined allocations, a private network can't *)
          genesis <- (if decide (hash = MainnetGenesisHash) then
                        g <- DefaultGenesisBlock;; ret (Some g)
                      else if decide (hash = StagenetGenesisHash) then
                        g <- DefaultStagenetGenesisBlock;; ret (Some g)
                      else if decide (hash = TestnetGenesisHash) then
                        g <- DefaultTestnetGenesisBlock;; ret (Some g)
                      else ret None);;
          match genesis with
          | Some g => ret (inr (Genesis.Alloc g))
          | None => ret (inl (errors_New "not found"))
          end);;
  match r with
  | inl err => ret (Some err)
  | inr alloc =>
      w <- get;;
      let '(_, err, db1) := flush order alloc (store w) in
      rawdb_write (fun _ => db1);;
      ret err
  end.

(** *** [func (g *Genesis) MustCommit(db) *types.Block] *)

(** The text a panic with an error value carries. *)
Definition Error (e : error) : string :=
  match e with
  | errors_New msg => msg
  | GenesisMismatchError _ _ => "database contains incompatible genesis"
  | ConfigCompat e => What e
  end.

Definition MustCommit (g : Genesis.t) : M World types.Block :=
  r <- Commit order g;;
  match r with
  | inl err => panic (Error err)
  | inr block => ret block
  end.

(** *** [func GenesisBlockForTesting(db, addr, balance) *types.Block] *)

Definition GenesisBlockForTesting (addr : Address) (balance : Z) : M World types.Block :=
  let g := {|
    Genesis.Alloc := {[ addr := GenesisAccount.mk [] ∅ balance 0 [] ]};
    Genesis.BaseFee := Some (Z.of_N InitialBaseFee);
    (* left at their zero value by the composite literal *)
    Genesis.Config := None;
    Genesis.Nonce := 0;
    Genesis.Timestamp := 0;
    Genesis.ExtraData := [];
    Genesis.GasLimit := 0;
    Genesis.Difficulty := None;
    Genesis.Mixhash := 0%N;
    Genesis.Coinbase := 0%N;
    Genesis.Number := 0;
    Genesis.GasUsed := 0;
    Genesis.ParentHash := 0%N
  |} in
  MustCommit g.

(** *** [func DeveloperGenesisBlock(period, gasLimit, faucet) *Genesis] *)

(** [&config] for a local that escapes: a new object on the heap. *)
Definition new_config (c : ChainConfig) : M World loc :=
  fun w =>
    let l := fresh (dom (configs w)) in
    Done l (mkWorld (store w) (<[l := c]> (configs w))).

Definition DeveloperGenesisBlock (period gasLimit : N) (faucet : Address)
  : M World Genesis.t :=
  (* Override the default period to the user requested one *)
  config <- load (Some AllCliqueProtocolChanges);;
  match params.Clique config with
  | None => panic "invalid memory address or nil pointer dereference"
  | Some clique =>
      let config :=
        params.mkChainConfig (params.ArrowGlacierBlock config)
          (params.TerminalTotalDifficulty config)
          (Some (params.mkCliqueConfig period (params.Epoch clique)))
          (params.forks config) in
      p <- new_config config;;
      (* Assemble and return the genesis with the precompiles and faucet
         pre-funded *)
      let one := GenesisAccount.mk [] ∅ 1%Z 0 [] in
      ret {|
        Genesis.Config := Some p;
        Genesis.ExtraData :=
          (replicate 32 Byte.x00 ++ Address_bytes faucet)
          ++ replicate SignatureLength Byte.x00;
        Genesis.GasLimit := gasLimit;
        Genesis.BaseFee := Some (Z.of_N InitialBaseFee);
        Genesis.Difficulty := Some 1%Z;
        Genesis.Alloc :=
          <[ faucet := GenesisAccount.mk [] ∅ (Z.shiftl 1 256 - 9)%Z 0 [] ]>
          (<[ 9%N := one ]> (<[ 8%N := one ]> (<[ 7%N := one ]> (<[ 6%N := one ]>
          (<[ 5%N := one ]> (<[ 4%N := one ]> (<[ 3%N := one ]> (<[ 2%N := one ]>
          (<[ 1%N := one ]> ∅)))))))));
        (* left at their zero value by the composite literal *)
        Genesis.Nonce := 0;
        Genesis.Timestamp := 0;
        Genesis.Mixhash := 0%N;
        Genesis.Coinbase := 0%N;
        Genesis.Number := 0;
        Genesis.GasUsed := 0;
        Genesis.ParentHash := 0%N
      |}
  end.

(** *** Definitions the statements about these functions use *)

(** The store after the eight record writes of a successful [Commit] of
    [block] with configuration [cfg] and allocation blob [blob]. *)
Definition committed_store (block : types.Block) (cfg : ChainConfig)
    (blob : list byte) (db : DB) : DB :=
  let hash := Block_Hash block in
  let number := Block_NumberU64 block in
  rawdb.WriteChainConfig hash cfg
    (rawdb.WriteHeadHeaderHash hash
       (rawdb.WriteHeadFastBlockHash hash
          (rawdb.WriteHeadBlockHash hash
             (rawdb.WriteCanonicalHash hash number
                (rawdb.WriteReceipts hash number []
                   (rawdb.WriteBlock hash number block
                      (rawdb.WriteTd hash number (Block_Difficulty block)
                         (rawdb.WriteGenesisState hash blob db)))))))).

(** The signer check of [Commit] passes. *)
Definition signers_ok (cfg : ChainConfig) (g : Genesis.t) : Prop :=
  params.Clique cfg = None \/ 32 + SignatureLength <= length (Genesis.ExtraData g).

End genesis_tools.
End genesis_tools.
(** ** Further sample inputs *)

Module sample_tools.
Import genesis.

(** A sample allocation codec: a brace, two bytes per account (the low
    byte of the address and of the balance), a brace. *)
Definition marshal (ga : GenesisAlloc) : list byte :=
  Byte.x7b
  :: (map_to_list ga ≫= fun '(a, account) =>
        [hex.byte_of_N (a mod 256);
         hex.byte_of_N (Z.to_N (GenesisAccount.Balance account) mod 256)])
  ++ [Byte.x7d].

Fixpoint unmarshal_accounts (bs : list byte) : error + GenesisAlloc :=
  match bs with
  | [b] => if decide (b = Byte.x7d) then inr ∅
           else inl (errors_New "invalid character")
  | a :: b :: bs =>
      match unmarshal_accounts bs with
      | inr ga =>
          inr (<[Byte.to_N a := GenesisAccount.mk [] ∅ (Z.of_N (Byte.to_N b)) 0 []]> ga)
      | inl e => inl e
      end
  | [] => inl (errors_New "unexpected end of JSON input")
  end.

Definition unmarshal (bs : list byte) : error + GenesisAlloc :=
  match bs with
  | b :: bs => if decide (b = Byte.x7b) then unmarshal_accounts bs
               else inl (errors_New "invalid character")
  | [] => inl (errors_New "unexpected end of JSON input")
  end.

(** The sample collaborators of genesis.go, with this codec. *)
Definition externals : Externals := {|
  Forks := sample.SampleForks;
  IsLondon := @IsLondon sample.externals;
  CheckConfigForkOrder := @CheckConfigForkOrder sample.externals;
  CheckCompatible := @CheckCompatible sample.externals;
  GenesisGasLimit := @GenesisGasLimit sample.externals;
  GenesisDifficulty := @GenesisDifficulty sample.externals;
  InitialBaseFee := @InitialBaseFee sample.externals;
  MainnetGenesisHash := @MainnetGenesisHash sample.externals;
  StagenetGenesisHash := @StagenetGenesisHash sample.externals;
  TestnetGenesisHash := @TestnetGenesisHash sample.externals;
  MainnetChainConfig := @MainnetChainConfig sample.externals;
  StagenetChainConfig := @StagenetChainConfig sample.externals;
  TestnetChainConfig := @TestnetChainConfig sample.externals;
  AllEthashProtocolChanges := @AllEthashProtocolChanges sample.externals;
  SignatureLength := @SignatureLength sample.externals;
  state_root := @state_root sample.externals;
  block_hash := @block_hash sample.externals;
  EmptyRootHash := @EmptyRootHash sample.externals;
  EmptyUncleHash := @EmptyUncleHash sample.externals;
  ValidatorVote := @ValidatorVote sample.externals;
  json_Marshal := fun ga => inr (marshal ga);
  rlp_EncodeToBytes := @rlp_EncodeToBytes sample.externals
|}.

#[local] Existing Instance sample.externals.

(** One account, the address 1 with balance 100. *)
Definition alloc : GenesisAlloc := {[ 1%N := GenesisAccount.mk [] ∅ 100%Z 0 [] ]}.

(** The committed sample world without its chain configuration. *)
Definition world_without_config : World :=
  let db := store sample.committed_world in
  mkWorld
    (rawdb.mkDB (rawdb.states db) (rawdb.genesis_state db) (rawdb.td db)
                (rawdb.blocks db) (rawdb.header_numbers db) (rawdb.receipts db)
                (rawdb.canonical db) (rawdb.head_block db)
                (rawdb.head_fast_block db) (rawdb.head_header db) ∅)
    (configs sample.committed_world).

(** The committed sample world with its state tries lost. *)
Definition world_without_state : World :=
  let db := store sample.committed_world in
  mkWorld
    (rawdb.mkDB ∅ (rawdb.genesis_state db) (rawdb.td db)
                (rawdb.blocks db) (rawdb.header_numbers db) (rawdb.receipts db)
                (rawdb.canonical db) (rawdb.head_block db)
                (rawdb.head_fast_block db) (rawdb.head_header db)
                (rawdb.chain_config db))
    (configs sample.committed_world).

(** The committed sample world with the head header set to a hash no
    header number is stored for. *)
Definition world_with_unknown_head : World :=
  mkWorld (rawdb.WriteHeadHeaderHash 424242%N (store sample.committed_world))
          (configs sample.committed_world).

(** The sample heap with a Clique configuration at 6. *)
Definition clique_config : params.ChainConfig sample.SampleForks :=
  params.mkChainConfig None None (Some (params.mkCliqueConfig 15 30000))
                       (sample.mkForks (Some 0%N) (Some 0%N)).

Definition clique_world : World :=
  mkWorld rawdb.NewMemoryDatabase (<[6%positive := clique_config]> sample.heap).

End sample_tools.

(** * Running the monad *)

Lemma bind_Done {St A B} (m : M St A) (f : A -> M St B) s a s1 :
  m s = Done a s1 -> bind m f s = f a s1.
Proof. unfold bind. by intros ->. Qed.

Lemma bind_inv {St A B} (m : M St A) (f : A -> M St B) s r s2 :
  bind m f s = Done r s2 -> exists a s1, m s = Done a s1 /\ f a s1 = Done r s2.
Proof. unfold bind. destruct (m s) as [a s1|]; [eauto | done]. Qed.

Lemma bind_ret {St A B} (a : A) (f : A -> M St B) s : bind (ret a) f s = f a s.
Proof. done. Qed.

Ltac step H :=
  let a := fresh "a" in
  let s := fresh "h" in
  let E := fresh "E" in
  apply bind_inv in H as (a & s & E & H).

(** * core/types/priority_tx.go *)

Section priority_tx_facts.
Import priority_tx.
Context {AccessTuple : Type} (zero_tuple : AccessTuple).
Implicit Types (h : @Heap AccessTuple) (tx : PriorityTx).

Lemma new_Int_inv h l h' :
  new_Int h = Done l h' ->
  (l ∉ dom (ints h)) /\
  (forall x, x ≠ l -> ints h' !! x = ints h !! x) /\
  ints h' !! l = Some 0%Z /\
  dom (ints h') = {[l]} ∪ dom (ints h) /\
  addrs h' = addrs h /\ byte_arrays h' = byte_arrays h /\
  tuple_arrays h' = tuple_arrays h.
Proof.
  unfold new_Int. intros [= <- <-]. simpl. repeat split.
  - apply is_fresh.
  - intros x Hx. by rewrite lookup_insert_ne.
  - by rewrite lookup_insert_eq.
  - by rewrite dom_insert_L.
Qed.

Lemma Set_if_not_nil_inv dst src h u h' :
  Set_if_not_nil dst src h = Done u h' ->
  (forall x, x ≠ dst -> ints h' !! x = ints h !! x) /\
  ints h' !! dst = match src with
                   | Some y => Some (default 0%Z (ints h !! y))
                   | None => ints h !! dst
                   end /\
  addrs h' = addrs h /\ byte_arrays h' = byte_arrays h /\
  tuple_arrays h' = tuple_arrays h.
Proof.
  destruct src; intros [= <- <-]; simpl; repeat split; try done.
  - intros x Hx. by rewrite lookup_insert_ne.
  - by rewrite lookup_insert_eq.
Qed.

Lemma copyAddressPtr_inv a h r h' :
  copyAddressPtr a h = Done r h' ->
  ints h' = ints h /\ byte_arrays h' = byte_arrays h /\
  tuple_arrays h' = tuple_arrays h /\
  (forall l, l ∈ dom (addrs h) -> addrs h' !! l = addrs h !! l) /\
  (forall l, r = Some l -> l ∉ dom (addrs h)) /\
  addr_value h' r = (fun p => default 0%N (addrs h !! p)) <$> a.
Proof.
  destruct a as [p|]; intros [= <- <-]; simpl; repeat split; try done.
  - intros l Hl. rewrite lookup_insert_ne; [done|].
    intros <-. by apply is_fresh in Hl.
  - intros l [= <-]. apply is_fresh.
  - by rewrite lookup_insert_eq.
Qed.

Lemma CopyBytes_inv b h r h' :
  CopyBytes b h = Done r h' ->
  ints h' = ints h /\ addrs h' = addrs h /\ tuple_arrays h' = tuple_arrays h /\
  (forall l, l ∈ dom (byte_arrays h) -> byte_arrays h' !! l = byte_arrays h !! l) /\
  (forall l, r = Some l -> l ∉ dom (byte_arrays h)) /\
  bytes_value h' r = (fun p => default [] (byte_arrays h !! p)) <$> b.
Proof.
  destruct b as [p|]; intros [= <- <-]; simpl; repeat split; try done.
  - intros l Hl. rewrite lookup_insert_ne; [done|].
    intros <-. by apply is_fresh in Hl.
  - intros l [= <-]. apply is_fresh.
  - by rewrite lookup_insert_eq.
Qed.

Lemma len_AccessList_inv s h n h' :
  len_AccessList s h = Done n h' ->
  h' = h /\ n = length (tuples_value h s).
Proof. intros [= <- <-]. by destruct s. Qed.

Lemma make_AccessList_inv n h r h' :
  make_AccessList zero_tuple n h = Done r h' ->
  ints h' = ints h /\ addrs h' = addrs h /\ byte_arrays h' = byte_arrays h /\
  (forall l, l ∈ dom (tuple_arrays h) -> tuple_arrays h' !! l = tuple_arrays h !! l) /\
  exists l, r = Some l /\ (l ∉ dom (tuple_arrays h)) /\
            tuple_arrays h' !! l = Some (replicate n zero_tuple).
Proof.
  intros [= <- <-]; simpl; repeat split; try done.
  - intros l Hl. rewrite lookup_insert_ne; [done|].
    intros <-. by apply is_fresh in Hl.
  - eexists. split; [done|]. split; [apply is_fresh|]. by rewrite lookup_insert_eq.
Qed.

Lemma copy_AccessList_inv d src h u h' :
  copy_AccessList (Some d) src h = Done u h' ->
  ints h' = ints h /\ addrs h' = addrs h /\ byte_arrays h' = byte_arrays h /\
  (forall l, l ≠ d -> tuple_arrays h' !! l = tuple_arrays h !! l) /\
  tuple_arrays h' !! d =
    Some (let old := default [] (tuple_arrays h !! d) in
          let new := tuples_value h src in
          let n := Nat.min (length old) (length new) in
          take n new ++ drop n old).
Proof.
  intros [= <- <-]; simpl; repeat split; try done.
  - intros l Hl. by rewrite lookup_insert_ne.
  - rewrite lookup_insert_eq. by destruct src.
Qed.

(** [copy] never panics. *)
Lemma copy_Done tx h : exists cpy h', copy zero_tuple tx h = Done cpy h'.
Proof.
  unfold copy.
  repeat lazymatch goal with
  | |- exists _ _, (let _ := _ in _) _ = _ => cbv zeta
  | |- exists _ _, bind ?m _ ?h0 = _ =>
      let E := fresh "E" in
      let a := fresh "a" in
      let g := fresh "g" in
      assert (exists a g, m h0 = Done a g) as (a & g & E);
      [ unfold copyAddressPtr, CopyBytes, len_AccessList, make_AccessList, new_Int,
          copy_AccessList, Set_if_not_nil, Int_Set, ret; simpl;
        repeat case_match; by eexists _, _
      | rewrite (bind_Done _ _ _ _ _ E); clear E ]
  end.
  by eexists _, _.
Qed.

Ltac ne :=
  solve [ assumption | apply not_eq_sym; assumption | intros ->; contradiction ].

Ltac look :=
  repeat match goal with
  | Hhit : ints ?g !! ?d = _ |- context [ints ?g !! ?d] => rewrite Hhit
  | Hfr : forall x, x ≠ ?d -> ints ?g !! x = _ |- context [ints ?g !! ?x] =>
      rewrite (Hfr x) by ne
  end.

Ltac run_copy H :=
  unfold copy in H;
  do 14 step H; cbv zeta in H; do 11 step H;
  injection H as <- <-;
  repeat match goal with
  | E : new_Int _ = _ |- _ => apply new_Int_inv in E as (? & ? & ? & ? & ? & ? & ?)
  | E : Set_if_not_nil _ _ _ = _ |- _ =>
      apply Set_if_not_nil_inv in E as (? & ? & ? & ? & ?)
  end.

(** The big-integer cells after [copy]. *)
Lemma copy_ints tx h cpy h' :
  valid h tx ->
  copy zero_tuple tx h = Done cpy h' ->
  (forall f, exists l, field f cpy = Some l /\ (l ∉ dom (ints h)) /\
     ints h' !! l = Some (default 0%Z (int_value h (field f tx)))) /\
  (forall l, l ∈ dom (ints h) -> ints h' !! l = ints h !! l) /\
  (forall f g, field f cpy = field g cpy -> f = g).
Proof.
  intros Hv H. run_copy H.
  match goal with E : copyAddressPtr _ _ = _ |- _ =>
    apply copyAddressPtr_inv in E as (Ei1 & _) end.
  match goal with E : CopyBytes _ _ = _ |- _ =>
    apply CopyBytes_inv in E as (Ei2 & _) end.
  match goal with E : len_AccessList _ _ = _ |- _ =>
    apply len_AccessList_inv in E as (-> & _) end.
  match goal with E : make_AccessList _ _ _ = _ |- _ =>
    apply make_AccessList_inv in E as (Ei3 & _ & _ & _ & (al & -> & _)) end.
  match goal with E : copy_AccessList _ _ _ = _ |- _ =>
    apply copy_AccessList_inv in E as (Ei4 & _) end.
  rewrite Ei2, Ei1 in Ei3.
  repeat match goal with
  | Hd : dom (ints ?g) = _, Hn : context [dom (ints ?g)] |- _ =>
      lazymatch type of Hn with
      | dom (ints g) = _ => fail
      | _ => rewrite Hd in Hn
      end
  end.
  rewrite Ei3, ?Ei4 in *. clear Ei1 Ei2 Ei3.
  repeat match goal with
  | Hn : _ ∉ _ ∪ _ |- _ => apply not_elem_of_union in Hn as [? ?]
  | Hn : _ ∉ {[ _ ]} |- _ => apply not_elem_of_singleton in Hn
  end.
  destruct Hv as (Hvi & _).
  assert (Hold : forall l, l ∈ dom (ints h) -> ints h24 !! l = ints h !! l).
  { intros l Hl. look. done. }
  split; [|split; [done|]].
  - intros f.
    destruct f; (eexists; split; [reflexivity|]; split; [done|]); simpl.
    all: look.
    all: match goal with
         | |- context [match ?o with _ => _ end] =>
             destruct o as [y|] eqn:Ey; simpl
         end.
    all: try (assert (Hy : y ∈ dom (ints h))
                by (first [ exact (Hvi FChainID _ Ey) | exact (Hvi FGasTipCap _ Ey)
                          | exact (Hvi FGasFeeCap _ Ey) | exact (Hvi FValue _ Ey)
                          | exact (Hvi FV _ Ey) | exact (Hvi FR _ Ey)
                          | exact (Hvi FS _ Ey) | exact (Hvi FPriorityV _ Ey)
                          | exact (Hvi FPriorityR _ Ey) | exact (Hvi FPriorityS _ Ey) ])).
    all: look; try done.
    all: apply elem_of_dom in Hy as [z ->]; done.
  - intros f g. destruct f, g; simpl; intros Hfg;
      first [ reflexivity | exfalso; congruence ].
Qed.

(** The other three kinds of storage after [copy]. *)
Lemma copy_others tx h cpy h' :
  valid h tx ->
  copy zero_tuple tx h = Done cpy h' ->
  Nonce cpy = Nonce tx /\ Gas cpy = Gas tx /\
  addr_value h' (To cpy) = addr_value h (To tx) /\
  bytes_value h' (Data cpy) = bytes_value h (Data tx) /\
  tuples_value h' (AccessList cpy) = tuples_value h (AccessList tx) /\
  (forall l, l ∈ dom (addrs h) -> addrs h' !! l = addrs h !! l) /\
  (forall l, l ∈ dom (byte_arrays h) -> byte_arrays h' !! l = byte_arrays h !! l) /\
  (forall l, l ∈ dom (tuple_arrays h) -> tuple_arrays h' !! l = tuple_arrays h !! l) /\
  (forall l, To cpy = Some l -> l ∉ dom (addrs h)) /\
  (forall l, Data cpy = Some l -> l ∉ dom (byte_arrays h)) /\
  (forall l, AccessList cpy = Some l -> l ∉ dom (tuple_arrays h)).
Proof.
  intros (_ & Hvt & Hvd & Hva) H. run_copy H.
  match goal with E : copyAddressPtr _ _ = _ |- _ =>
    apply copyAddressPtr_inv in E as (_ & Hb1 & Ht1 & Ha1 & Ha2 & Ha3) end.
  match goal with E : CopyBytes _ _ = _ |- _ =>
    apply CopyBytes_inv in E as (_ & Ha4 & Ht2 & Hb2 & Hb3 & Hb4) end.
  match goal with E : len_AccessList _ _ = _ |- _ =>
    apply len_AccessList_inv in E as (-> & ->) end.
  match goal with E : make_AccessList _ _ _ = _ |- _ =>
    apply make_AccessList_inv in E as (_ & Ha5 & Hb5 & Ht3 & (al & -> & Ht4 & Ht5)) end.
  match goal with E : copy_AccessList _ _ _ = _ |- _ =>
    apply copy_AccessList_inv in E as (_ & Ha6 & Hb6 & Ht6 & Ht7) end.
  assert (Ha : addrs h24 = addrs h0) by congruence.
  assert (Hb : byte_arrays h24 = byte_arrays h1) by congruence.
  assert (Ht : tuple_arrays h24 = tuple_arrays h14) by congruence.
  assert (Hsrc : forall l, l ∈ dom (tuple_arrays h) ->
                   tuple_arrays h13 !! l = tuple_arrays h !! l).
  { intros l Hl. replace (tuple_arrays h13) with (tuple_arrays h3) by congruence.
    rewrite Ht3 by (by rewrite Ht2, Ht1). by rewrite Ht2, Ht1. }
  assert (Hal : al ∉ dom (tuple_arrays h)) by (by rewrite Ht2, Ht1 in Ht4).
  simpl. repeat split; try done.
  - unfold addr_value, Address in *. rewrite Ha. simpl in Ha3. rewrite Ha3.
    destruct (To tx) as [p|] eqn:Ep; [simpl|done].
    pose proof (Hvt p eq_refl) as [v Hv']%elem_of_dom. rewrite Hv'. reflexivity.
  - unfold bytes_value in *. rewrite Hb. simpl in Hb4. rewrite Hb4.
    destruct (Data tx) as [p|] eqn:Ep; [simpl|done].
    rewrite Hb1. pose proof (Hvd p eq_refl) as [v Hv']%elem_of_dom.
    rewrite Hv'. reflexivity.
  - rewrite Ht, Ht7. simpl.
    replace (tuple_arrays h13 !! al) with (tuple_arrays h3 !! al) by congruence.
    rewrite Ht5. simpl.
    assert (Hnew : tuples_value h13 (AccessList tx) = tuples_value h (AccessList tx)).
    { destruct (AccessList tx) as [p|] eqn:Ep; [simpl|done].
      by rewrite Hsrc by (by apply Hva). }
    assert (Hlen : tuples_value h1 (AccessList tx) = tuples_value h (AccessList tx)).
    { unfold tuples_value. by rewrite Ht2, Ht1. }
    rewrite Hnew, Hlen, length_replicate, Nat.min_id.
    rewrite firstn_all, drop_replicate, Nat.sub_diag. simpl. apply app_nil_r.
  - intros l Hl. by rewrite Ha, Ha1.
  - intros l Hl. rewrite Hb, Hb2 by (by rewrite Hb1). by rewrite Hb1.
  - intros l Hl. rewrite Ht, Ht6; [by apply Hsrc|]. intros ->. done.
  - intros l Hl. rewrite <- Hb1. by apply Hb3.
  - by intros l [= <-].
Qed.

(** C9, as the code has it.  For every transaction whose pointers are
    valid, [copy] returns a transaction such that: [Nonce] and [Gas] are
    equal; [To] and [Data] are nil when the source's are and hold equal
    values otherwise; the access list holds the same tuples; every
    big-integer field is a non-nil pointer to the source's number, or to
    0 where the source's field is nil; everything reachable from the
    source reads as before; every pointer of the copy is to storage
    allocated by the call, the big-integer fields to ten distinct cells;
    and a later store into a big-integer cell of the original leaves
    every big-integer field of the copy unchanged, and the other way
    round. *)
Theorem copy_independent_storage tx h :
  valid h tx ->
  exists cpy h', copy zero_tuple tx h = Done cpy h' /\
    Nonce cpy = Nonce tx /\ Gas cpy = Gas tx /\
    addr_value h' (To cpy) = addr_value h (To tx) /\
    bytes_value h' (Data cpy) = bytes_value h (Data tx) /\
    tuples_value h' (AccessList cpy) = tuples_value h (AccessList tx) /\
    (forall f, int_value h' (field f cpy)
               = Some (default 0%Z (int_value h (field f tx)))) /\
    (forall f, int_value h' (field f tx) = int_value h (field f tx)) /\
    addr_value h' (To tx) = addr_value h (To tx) /\
    bytes_value h' (Data tx) = bytes_value h (Data tx) /\
    tuples_value h' (AccessList tx) = tuples_value h (AccessList tx) /\
    (forall f l, field f cpy = Some l -> l ∉ dom (ints h)) /\
    (forall l, To cpy = Some l -> l ∉ dom (addrs h)) /\
    (forall l, Data cpy = Some l -> l ∉ dom (byte_arrays h)) /\
    (forall l, AccessList cpy = Some l -> l ∉ dom (tuple_arrays h)) /\
    (forall f g, field f cpy = field g cpy -> f = g) /\
    (forall f g l z, field f tx = Some l ->
       int_value (store_int l z h') (field g cpy) = int_value h' (field g cpy)) /\
    (forall f g l z, field g cpy = Some l ->
       int_value (store_int l z h') (field f tx) = int_value h' (field f tx)).
Proof.
  intros Hv. destruct (copy_Done tx h) as (cpy & h' & Hc).
  exists cpy, h'. split; [done|].
  destruct (copy_ints _ _ _ _ Hv Hc) as (Hnew & Hold & Hinj).
  destruct (copy_others _ _ _ _ Hv Hc)
    as (Hn & Hg & Hto & Hda & Hal & Ha & Hb & Ht & Hfa & Hfb & Hft).
  pose proof Hv as (Hvi & Hvt & Hvd & Hva).
  assert (Hfresh : forall f l, field f cpy = Some l -> l ∉ dom (ints h)).
  { intros f l Hl. destruct (Hnew f) as (l' & Hl' & Hd & _). congruence. }
  repeat split; try done.
  - intros f. destruct (Hnew f) as (l & -> & _ & Hl). done.
  - intros f. unfold int_value. destruct (field f tx) as [l|] eqn:El; [simpl|done].
    apply Hold. by eapply Hvi.
  - unfold addr_value. destruct (To tx) as [l|] eqn:El; [simpl|done].
    apply Ha. by apply Hvt.
  - unfold bytes_value. destruct (Data tx) as [l|] eqn:El; [simpl|done].
    apply Hb. by apply Hvd.
  - unfold tuples_value. destruct (AccessList tx) as [l|] eqn:El; [|done].
    rewrite Ht; [done|]. by apply Hva.
  - intros f g l z Hl. destruct (Hnew g) as (l' & -> & Hd & _). simpl.
    rewrite lookup_insert_ne; [done|]. intros ->. apply Hd. by eapply Hvi.
  - intros f g l z Hl. unfold int_value.
    destruct (field f tx) as [l'|] eqn:El; [simpl|done].
    rewrite lookup_insert_ne; [done|]. intros ->.
    eapply Hfresh; [done|]. by eapply Hvi.
Qed.

(** C10.  [setPrioritySignatureValues] overwrites the chain id and the
    priority triple and nothing else; afterwards
    [rawPrioritySignatureValues] returns the triple given and [chainID]
    the chain id given.  [setSignatureValues] does the same with the
    ordinary triple, and leaves the priority triple alone. *)
Theorem set_signature_values_frame tx (c v r s : option loc) :
  let tx' := setPrioritySignatureValues tx c v r s in
  let tx'' := setSignatureValues tx c v r s in
  (rawPrioritySignatureValues tx' = (v, r, s) /\
   chainID tx' = c /\
   rawSignatureValues tx' = rawSignatureValues tx /\
   Nonce tx' = Nonce tx /\ GasTipCap tx' = GasTipCap tx /\
   GasFeeCap tx' = GasFeeCap tx /\ Gas tx' = Gas tx /\ To tx' = To tx /\
   Value tx' = Value tx /\ Data tx' = Data tx /\
   AccessList tx' = AccessList tx) /\
  (rawSignatureValues tx'' = (v, r, s) /\
   chainID tx'' = c /\
   rawPrioritySignatureValues tx'' = rawPrioritySignatureValues tx /\
   Nonce tx'' = Nonce tx /\ GasTipCap tx'' = GasTipCap tx /\
   GasFeeCap tx'' = GasFeeCap tx /\ Gas tx'' = Gas tx /\ To tx'' = To tx /\
   Value tx'' = Value tx /\ Data tx'' = Data tx /\
   AccessList tx'' = AccessList tx).
Proof. intros tx' tx''. subst tx' tx''. repeat split. Qed.
End priority_tx_facts.


Lemma sample_tx_valid : priority_tx.valid sample.tx_heap sample.tx.
Proof.
  repeat split; try (intros l; discriminate).
  intros f l. destruct f; simpl; intros [= <-]; by apply elem_of_dom.
Qed.

Lemma copy_independent_storage_witness :
  exists cpy h', priority_tx.copy tt sample.tx sample.tx_heap = Done cpy h' /\
    priority_tx.int_value h' (priority_tx.GasFeeCap cpy) = Some 9%Z /\
    priority_tx.int_value h' (priority_tx.GasTipCap cpy) = Some 0%Z /\
    priority_tx.int_value (priority_tx.store_int 2 100%Z h') (priority_tx.GasFeeCap cpy)
    = Some 9%Z.
Proof.
  destruct (copy_independent_storage tt sample.tx sample.tx_heap sample_tx_valid)
    as (cpy & h' & Hc & _ & _ & _ & _ & _ & Hval & _ & _ & _ & _ & _ & _ & _ & _ & _ & Hiso & _).
  exists cpy, h'. split; [done|].
  split; [exact (Hval priority_tx.FGasFeeCap)|].
  split; [exact (Hval priority_tx.FGasTipCap)|].
  exact (eq_trans
           (Hiso priority_tx.FGasFeeCap priority_tx.FGasFeeCap 2%positive 100%Z eq_refl)
           (Hval priority_tx.FGasFeeCap)).
Defined.

(** C9 as stated fails where the source has a nil big-integer field: the
    copy's field is not nil, it points to a new zero. *)
Lemma copy_nil_field_not_equal :
  exists cpy h', priority_tx.copy tt sample.tx sample.tx_heap = Done cpy h' /\
    priority_tx.int_value sample.tx_heap (priority_tx.GasTipCap sample.tx) = None /\
    priority_tx.int_value h' (priority_tx.GasTipCap cpy) = Some 0%Z.
Proof.
  destruct (priority_tx.copy tt sample.tx sample.tx_heap) as [cpy h'|] eqn:E;
    [|vm_compute in E; discriminate].
  exists cpy, h'. split; [done|].
  vm_compute in E. injection E as <- <-. split; vm_compute; reflexivity.
Qed.

Section registry_facts.
Import priority_transactors.
Context {reg : Registry}.

Lemma build_snoc ts t : build (ts ++ [t]) = <[key_of t := entry_of t]> (build ts).
Proof. unfold build. by rewrite foldl_snoc. Qed.

Lemma build_lookup ts k :
  build ts !! k = entry_of <$> last_with_key k ts.
Proof.
  unfold last_with_key.
  induction ts as [|t ts IH] using rev_ind; [done|].
  rewrite build_snoc, filter_app, filter_cons, filter_nil.
  destruct (decide (key_of t = k)) as [<-|Hne].
  - by rewrite lookup_insert_eq, last_snoc.
  - by rewrite lookup_insert_ne, app_nil_r.
Qed.

Lemma build_NoDup ts :
  NoDup (key_of <$> ts) ->
  size (build ts) = length ts /\
  forall t, t ∈ ts -> build ts !! key_of t = Some (entry_of t).
Proof.
  induction ts as [|t ts IH] using rev_ind; [by split; [|intros ? ?%elem_of_nil]|].
  rewrite fmap_app, NoDup_app. intros (Hnd & Hfresh & _).
  destruct (IH Hnd) as (Hsize & Hall).
  assert (Hnone : build ts !! key_of t = None).
  { rewrite build_lookup. unfold last_with_key.
    destruct (filter _ ts) as [|u us] eqn:Ef; [done|].
    assert (Hu : u ∈ filter (fun t0 => key_of t0 = key_of t) ts)
      by (rewrite Ef; left).
    apply list_elem_of_filter in Hu as [Hk Hu].
    exfalso. apply (Hfresh (key_of t)).
    - rewrite <- Hk. by apply list_elem_of_fmap_2.
    - simpl. left. }
  rewrite build_snoc. split.
  - rewrite map_size_insert_None by done. rewrite length_app, Hsize. simpl. lia.
  - intros u [Hu | ->%list_elem_of_singleton]%elem_of_app.
    + rewrite lookup_insert_ne; [by apply Hall|].
      intros Heq. apply (Hfresh (key_of u)).
      * by apply list_elem_of_fmap_2.
      * rewrite <- Heq. simpl. left.
    + by rewrite lookup_insert_eq.
Qed.

(** C7, as the code has it.  [GetPriorityTransactors] returns the empty
    mapping, a nil error and issues no call when the registry address is
    zero or no code is deployed there.  Otherwise it issues one static
    call with the gas ceiling; a failing call or a failing decode returns
    that error with the empty mapping; on success the mapping has, for
    every public key, the entity name and waiver flag of the last decoded
    tuple carrying that key, so one entry per tuple when the keys are
    pairwise distinct. *)
Theorem GetPriorityTransactors_cases blockNumber config evm tr :
  let address := GetPriorityTransactorsContractAddress config blockNumber in
  let c := mkCall address address (Pack "getTransactors" []) MaxGasLimit in
  let run := GetPriorityTransactors blockNumber config evm tr in
  (address = 0%N \/ length (GetCode evm address) = 0 ->
     run = Done (∅, None) tr) /\
  (address ≠ 0%N -> length (GetCode evm address) ≠ 0 ->
     (forall out e, StaticCall evm c = (out, Some e) ->
        run = Done (∅, Some e) (tr ++ [c])) /\
     (forall out e, StaticCall evm c = (out, None) ->
        Unpack_getTransactors out = inl e ->
        run = Done (∅, Some e) (tr ++ [c])) /\
     (forall out ts, StaticCall evm c = (out, None) ->
        Unpack_getTransactors out = inr ts ->
        exists m, run = Done (m, None) (tr ++ [c]) /\
          (forall k, m !! k = entry_of <$> last_with_key k ts) /\
          (NoDup (key_of <$> ts) ->
             size m = length ts /\
             forall t, t ∈ ts -> m !! key_of t = Some (entry_of t)))).
Proof.
  intros address c run. subst run. unfold GetPriorityTransactors.
  fold address. split.
  - intros [-> | Hcode].
    + by rewrite decide_False by (intros Hne; by apply Hne).
    + destruct (decide (address ≠ 0%N)); [|done].
      by rewrite decide_True by done.
  - intros Hnz Hcode.
    rewrite decide_True by done. rewrite decide_False by done.
    unfold bind, evm_StaticCall, AccountRef. fold c.
    repeat split.
    + intros out e ->. done.
    + intros out e -> ->. done.
    + intros out ts -> ->. eexists. split; [reflexivity|].
      split; [apply build_lookup | apply build_NoDup].
Qed.

(** The runs of [getPriorityTransactorByKey], case by case: not-found
    without a call when the registry address is zero; for any other
    address one static call with the gas ceiling, whether code is
    deployed there or not, a failing call and a failing decode folded
    into not-found, and the decoded entry otherwise. *)
Lemma getPriorityTransactorByKey_cases blockNumber publicKey config evm tr :
  let address := GetPriorityTransactorsContractAddress config blockNumber in
  let c := mkCall address address
             (Pack "getTransactorByKey" [ToUnprefixedHexString publicKey])
             MaxGasLimit in
  let run := getPriorityTransactorByKey blockNumber publicKey config evm tr in
  (address = 0%N -> run = Done NotFound tr) /\
  (address ≠ 0%N ->
     (forall out e, StaticCall evm c = (out, Some e) ->
        run = Done NotFound (tr ++ [c])) /\
     (forall out e, StaticCall evm c = (out, None) ->
        Unpack_getTransactorByKey out = inl e ->
        run = Done NotFound (tr ++ [c])) /\
     (forall out t, StaticCall evm c = (out, None) ->
        Unpack_getTransactorByKey out = inr t ->
        run = Done (entry_of t, true) (tr ++ [c]))).
Proof.
  intros address c run. subst run. unfold getPriorityTransactorByKey.
  fold address. split.
  - intros ->. by rewrite decide_False by (intros Hne; by apply Hne).
  - intros Hnz. rewrite decide_True by done.
    unfold bind, evm_StaticCall, AccountRef. fold c.
    repeat split.
    + intros out e ->. done.
    + intros out e -> ->. done.
    + intros out t -> ->. done.
Qed.

(** The two lookups where the registry address is set and no code is
    deployed there: [GetPriorityTransactors] returns without a call, by
    its check of the code; [getPriorityTransactorByKey] has no such check
    and issues the call. *)
Lemma lookups_differ_without_code blockNumber publicKey config evm tr :
  let address := GetPriorityTransactorsContractAddress config blockNumber in
  let c := mkCall address address
             (Pack "getTransactorByKey" [ToUnprefixedHexString publicKey])
             MaxGasLimit in
  address ≠ 0%N ->
  length (GetCode evm address) = 0 ->
  GetPriorityTransactors blockNumber config evm tr = Done (∅, None) tr /\
  exists r,
    getPriorityTransactorByKey blockNumber publicKey config evm tr
    = Done r (tr ++ [c]).
Proof.
  intros address c Hnz Hcode. split.
  - unfold GetPriorityTransactors. fold address.
    rewrite decide_True by done. by rewrite decide_True by done.
  - unfold getPriorityTransactorByKey. fold address.
    rewrite decide_True by done.
    unfold bind, evm_StaticCall, AccountRef. fold c.
    destruct (StaticCall evm c) as [out [e|]]; [by eexists|].
    destruct (Unpack_getTransactorByKey out); by eexists.
Qed.
End registry_facts.


(** C6.  The code misses the check of deployed code the claim asks of
    [getPriorityTransactorByKey].  With the registry address set to 7
    and no code deployed there, [GetPriorityTransactors] returns the
    empty mapping and issues no call, while [getPriorityTransactorByKey]
    issues a static call to the address before it returns not-found. *)
Lemma getPriorityTransactorByKey_calls_without_code :
  priority_transactors.GetCode (Registry := sample.registry)
    sample.evm_without_code 7%N = [] /\
  priority_transactors.GetPriorityTransactors (reg := sample.registry) None 7%N
    sample.evm_without_code []
  = Done (∅, None) [] /\
  priority_transactors.getPriorityTransactorByKey (reg := sample.registry) None
    "K"%string 7%N sample.evm_without_code []
  = Done priority_transactors.NotFound
         [priority_transactors.mkCall 7 7 [] 0x7fffffffffffffff].
Proof. split; [|split]; reflexivity. Qed.


(** C7 as stated fails where two decoded tuples carry one public key: the
    mapping has one entry for the two tuples, the later one's. *)
Lemma GetPriorityTransactors_duplicate_key :
  exists m tr,
    priority_transactors.Unpack_getTransactors (Registry := sample.registry)
      [Byte.x4b; Byte.x41; Byte.x4b; Byte.x42]
    = inr [priority_transactors.TransactorMeta.mk "K" true "A";
           priority_transactors.TransactorMeta.mk "K" false "B"] /\
    priority_transactors.GetPriorityTransactors (reg := sample.registry) None 7%N sample.evm_duplicate_key []
    = Done (m, None) tr /\
    size m = 1 /\
    m !! "K"%string = Some (priority_transactors.mkPriorityTransactor "B" false).
Proof.
  destruct (priority_transactors.GetPriorityTransactors (reg := sample.registry)
              None 7%N sample.evm_duplicate_key []) as [[m e] tr|] eqn:E;
    vm_compute in E; [|discriminate].
  injection E as <- <- <-.
  eexists _, _. split; [reflexivity|]. split; [reflexivity|].
  split; vm_compute; reflexivity.
Qed.

Section flush_facts.
Import genesis genesis_spec.
Context {ext : Externals}.
Implicit Types (order : MapOrder) (ga : GenesisAlloc) (s : state.StateDB).

(** Storing a list of slots with distinct keys into an account. *)
Lemma SetState_foldl addr (kvs : list (Hash * Hash)) s o :
  s !! addr = Some o ->
  foldl (fun statedb '(key, value) => state.SetState addr key value statedb) s kvs
  = <[addr := state.mkAccount (state.Balance o) (state.Nonce o) (state.Code o)
                (list_to_map (reverse kvs) ∪ state.Storage o)]> s.
Proof.
  revert s o. induction kvs as [|[k v] kvs IH]; intros s o Ho; simpl.
  - rewrite (left_id_L ∅ (∪)). symmetry. apply insert_id. by destruct o.
  - erewrite IH; last first.
    { unfold state.SetState, state.getOrNewStateObject.
      rewrite Ho. simpl. apply lookup_insert_eq. }
    simpl. unfold state.SetState, state.getOrNewStateObject. rewrite Ho. simpl.
    rewrite insert_insert_eq. f_equal. f_equal.
    rewrite reverse_cons, list_to_map_app. simpl.
    rewrite <- (assoc_L (∪)). f_equal.
    by rewrite insert_empty, insert_union_singleton_l.
Qed.

Lemma list_to_map_reverse_range order (m : gmap Hash Hash) :
  list_to_map (reverse (range_storage order m)) = m.
Proof.
  rewrite <- (list_to_map_to_list m) at 2.
  apply list_to_map_proper.
  - rewrite fmap_reverse, reverse_Permutation, (range_storage_perm order m).
    apply NoDup_fst_map_to_list.
  - rewrite reverse_Permutation. apply range_storage_perm.
Qed.

(** One turn of the loop on an address the state does not hold yet. *)
Lemma flush_account_fresh order s addr account :
  s !! addr = None ->
  flush_account order s (addr, account) = <[addr := account_of account]> s.
Proof.
  intros Hs. unfold flush_account.
  erewrite SetState_foldl; last first.
  { unfold state.SetNonce, state.getOrNewStateObject. apply lookup_insert_eq. }
  unfold state.SetNonce, state.SetCode, state.AddBalance, state.getOrNewStateObject.
  rewrite !lookup_insert_eq, Hs. simpl. rewrite !insert_insert_eq.
  rewrite list_to_map_reverse_range, (right_id_L ∅ (∪)). done.
Qed.

Lemma flush_foldl order (l : list (Address * GenesisAccount.t)) s :
  NoDup l.*1 ->
  (forall a, a ∈ l.*1 -> s !! a = None) ->
  foldl (flush_account order) s l
  = list_to_map (prod_map id account_of <$> reverse l) ∪ s.
Proof.
  revert s. induction l as [|[a acc] l IH]; intros s Hnd Hs; cbn [foldl].
  - rewrite reverse_nil. simpl. by rewrite (left_id_L ∅ (∪)).
  - apply NoDup_cons in Hnd as [Ha Hnd].
    rewrite flush_account_fresh by (apply Hs; left).
    rewrite IH; [|done|].
    + rewrite reverse_cons, fmap_app, list_to_map_app. simpl.
      rewrite <- (assoc_L (∪)). f_equal.
      by rewrite insert_empty, insert_union_singleton_l.
    + intros b Hb. rewrite lookup_insert_ne; [apply Hs; by right|].
      intros <-. done.
Qed.

(** The state [flush] builds is the allocation table itself, whatever
    the visiting order. *)
Lemma flush_state order ga :
  foldl (flush_account order) ∅ (range_alloc order ga) = account_of <$> ga.
Proof.
  rewrite flush_foldl.
  - rewrite (right_id_L ∅ (∪)), list_to_map_fmap. f_equal.
    rewrite <- (list_to_map_to_list ga) at 2.
    apply list_to_map_proper.
    + rewrite fmap_reverse, reverse_Permutation, (range_alloc_perm order ga).
      apply NoDup_fst_map_to_list.
    + rewrite reverse_Permutation. apply range_alloc_perm.
  - rewrite (range_alloc_perm order ga). apply NoDup_fst_map_to_list.
  - intros a _. apply lookup_empty.
Qed.

Lemma flush_eq order ga db :
  flush order ga db
  = (state_root (account_of <$> ga), None,
     rawdb.commit_state (state_root (account_of <$> ga)) (account_of <$> ga) db).
Proof. unfold flush. by rewrite flush_state. Qed.
End flush_facts.

Section genesis_facts.
Import genesis genesis_spec.
Context {ext : Externals}.
Implicit Types (order : MapOrder) (g : Genesis.t) (w : World).

Lemma World_eta w : mkWorld (store w) (configs w) = w.
Proof. by destruct w. Qed.

Lemma bind_rawdb_read {A B} (r : DB -> A) (f : A -> M World B) w :
  bind (rawdb_read r) f w = f (r (store w)) w.
Proof. done. Qed.

Lemma bind_rawdb_write {B} (u : DB -> DB) (f : unit -> M World B) w :
  bind (rawdb_write u) f w = f tt (mkWorld (u (store w)) (configs w)).
Proof. done. Qed.

Lemma bind_load {B} l c (f : ChainConfig -> M World B) w :
  configs w !! l = Some c -> bind (load (Some l)) f w = f c w.
Proof. intros Hc. unfold bind, load. simpl. by rewrite Hc. Qed.

(** What [ToBlock] returns and leaves behind. *)
Lemma ToBlock_eq order g db w :
  ToBlock order g db w =
    let w' := match db with
              | db_nil => w
              | db_store => mkWorld (flushed g (store w)) (configs w)
              end in
    match Genesis.Config g with
    | None => Done (genesis_block (configs w) g) w'
    | Some c =>
        match configs w !! c with
        | Some _ => Done (genesis_block (configs w) g) w'
        | None => Panic "invalid memory address or nil pointer dereference"
        end
    end.
Proof.
  unfold ToBlock, genesis_block, london_at_genesis, flushed.
  unfold bind at 1. unfold get. rewrite flush_eq.
  destruct db; simpl.
  - destruct (Genesis.Config g) as [c|]; simpl; [|done].
    unfold bind, load. simpl. by destruct (configs w !! c).
  - destruct (Genesis.Config g) as [c|]; simpl; [|done].
    unfold bind, load, rawdb_write. simpl. by destruct (configs w !! c).
Qed.

Lemma ToBlock_valid order g db w :
  config_valid (configs w) (Genesis.Config g) ->
  ToBlock order g db w =
    Done (genesis_block (configs w) g)
         match db with
         | db_nil => w
         | db_store => mkWorld (flushed g (store w)) (configs w)
         end.
Proof.
  intros Hv. rewrite ToBlock_eq. simpl.
  destruct (Genesis.Config g) as [c|]; [|done].
  by destruct (Hv c eq_refl) as [cfg ->].
Qed.

Lemma flushed_same_chain_records g db : same_chain_records db (flushed g db).
Proof.
  unfold flushed, rawdb.commit_state, same_chain_records.
  by destruct (map_to_list _).
Qed.

(** C2.  [ToBlock] and [flush] do not depend on the order in which the
    runtime visits the allocation table and the storage maps: any two
    orders, the reversed one among them, give the same state root, the
    same store and the same block, hence the same block hash; and the
    block is the same whatever store it is materialized into. *)
Theorem materialize_deterministic order1 order2 g db w :
  flush order1 (Genesis.Alloc g) (store w) = flush order2 (Genesis.Alloc g) (store w) /\
  ToBlock order1 g db w = ToBlock order2 g db w /\
  ToBlock (reverse_order order1) g db w = ToBlock order1 g db w /\
  (forall db1 db2 st1 st2,
      result (ToBlock order1 g db1 (mkWorld st1 (configs w)))
      = result (ToBlock order2 g db2 (mkWorld st2 (configs w)))) /\
  (forall block w', ToBlock order1 g db w = Done block w' ->
      types.Header.Root (types.header block)
      = state_root (account_of <$> Genesis.Alloc g) /\
      Block_Hash block = genesis_hash (configs w) g).
Proof.
  repeat split.
  - by rewrite !flush_eq.
  - by rewrite !ToBlock_eq.
  - by rewrite !ToBlock_eq.
  - intros db1 db2 st1 st2. rewrite !ToBlock_eq. simpl.
    destruct (Genesis.Config g) as [c|]; [|done].
    by destruct (configs w !! c).
  - rewrite ToBlock_eq in H. simpl in H.
    destruct (Genesis.Config g) as [c|] eqn:Ec.
    + destruct (configs w !! c); [|done]. injection H as <- _.
      unfold genesis_block, NewBlock, genesis_header. simpl.
      by repeat case_match.
    + injection H as <- _.
      unfold genesis_block, NewBlock, genesis_header. simpl.
      by repeat case_match.
  - rewrite ToBlock_eq in H. simpl in H.
    destruct (Genesis.Config g) as [c|] eqn:Ec.
    + destruct (configs w !! c); [|done]. by injection H as <- _.
    + by injection H as <- _.
Qed.

(** C8.  The header [ToBlock] produces: the default gas limit for a zero
    gas limit; the default difficulty for an unset difficulty with a zero
    mix hash; with London active at block zero the base fee of the
    specification, or the initial base fee when it has none; otherwise
    the specification's own values.  Every other field is the
    specification's, the state root is that of the allocation, and the
    configuration heap is untouched. *)
Theorem ToBlock_defaults order g db w :
  config_valid (configs w) (Genesis.Config g) ->
  exists block w', ToBlock order g db w = Done block w' /\
    configs w' = configs w /\
    let head := types.header block in
    (Genesis.GasLimit g = 0%N ->
       types.Header.GasLimit head = GenesisGasLimit) /\
    (Genesis.GasLimit g ≠ 0%N ->
       types.Header.GasLimit head = Genesis.GasLimit g) /\
    (Genesis.Difficulty g = None /\ Genesis.Mixhash g = 0%N ->
       types.Header.Difficulty head = Some GenesisDifficulty) /\
    (~ (Genesis.Difficulty g = None /\ Genesis.Mixhash g = 0%N) ->
       types.Header.Difficulty head = Genesis.Difficulty g) /\
    (london_at_genesis (configs w) g = true ->
       types.Header.BaseFee head
       = Some (default (Z.of_N InitialBaseFee) (Genesis.BaseFee g))) /\
    (london_at_genesis (configs w) g = false ->
       types.Header.BaseFee head = Genesis.BaseFee g) /\
    types.Header.Number head = Z.of_N (Genesis.Number g) /\
    types.Header.Nonce head = Genesis.Nonce g /\
    types.Header.Time head = Genesis.Timestamp g /\
    types.Header.ParentHash head = Genesis.ParentHash g /\
    types.Header.Extra head = Genesis.ExtraData g /\
    types.Header.GasUsed head = Genesis.GasUsed g /\
    types.Header.MixDigest head = Genesis.Mixhash g /\
    types.Header.Coinbase head = Genesis.Coinbase g /\
    types.Header.Root head = state_root (account_of <$> Genesis.Alloc g) /\
    types.Header.TxHash head = EmptyRootHash /\
    types.Header.ReceiptHash head = EmptyRootHash /\
    types.Header.UncleHash head = EmptyUncleHash.
Proof.
  intros Hv. rewrite (ToBlock_valid _ _ _ _ Hv).
  eexists _, _. split; [reflexivity|].
  split; [by destruct db|].
  unfold genesis_block, NewBlock, genesis_header. simpl.
  destruct (london_at_genesis (configs w) g);
    destruct (decide (Genesis.GasLimit g = 0%N));
    destruct (decide (Genesis.Difficulty g = None /\ Genesis.Mixhash g = 0%N));
    destruct (Genesis.BaseFee g); simpl; repeat split; try done.
Qed.
End genesis_facts.

Section commit_facts.
Import genesis genesis_spec.
Context {ext : Externals}.
Implicit Types (order : MapOrder) (g : Genesis.t) (w : World).

Lemma load_inv p w c w' :
  load p w = Done c w' -> w' = w /\ p ≫= (fun l => configs w !! l) = Some c.
Proof. unfold load. destruct (p ≫= _); [|done]. by intros [= <- <-]. Qed.

Lemma write_inv ga hash w r w' :
  write ga hash w = Done r w' ->
  (exists e, r = Some e /\ w' = w) \/
  (exists blob, r = None /\
     w' = mkWorld (rawdb.WriteGenesisState hash blob (store w)) (configs w)).
Proof.
  unfold write. destruct (json_Marshal ga) as [e|blob].
  - intros [= <- <-]. left. eauto.
  - intros [= <- <-]. right. eauto.
Qed.

Lemma genesis_block_Number cfgs g :
  Block_Number (genesis_block cfgs g) = Z.of_N (Genesis.Number g).
Proof.
  unfold Block_Number, genesis_block, NewBlock, genesis_header. simpl.
  by repeat case_match.
Qed.

Lemma genesis_block_Extra cfgs g :
  Block_Extra (genesis_block cfgs g) = Genesis.ExtraData g.
Proof.
  unfold Block_Extra, genesis_block, NewBlock, genesis_header. simpl.
  by repeat case_match.
Qed.


(** C1, as the code has it.  When [Commit] returns an error, the three
    structural ones among them, no chain record has been written: the
    allocation blob, total difficulties, blocks, receipts, canonical
    hashes, head pointers and chain configurations are those of the
    store before the call.  The store after the call is the store before
    it with the state of the allocation flushed into it, which [ToBlock]
    does ahead of every check. *)
Theorem Commit_error_keeps_chain_records order g w err w' :
  Commit order g w = Done (inl err) w' ->
  configs w' = configs w /\
  store w' = flushed g (store w) /\
  same_chain_records (store w) (store w').
Proof.
  intros H.
  assert (Hw : w' = mkWorld (flushed g (store w)) (configs w)).
  { unfold Commit in H.
    apply bind_inv in H as (block & w1 & Hb & H).
    rewrite ToBlock_eq in Hb. cbv zeta in Hb.
    assert (Hw1 : w1 = mkWorld (flushed g (store w)) (configs w)).
    { destruct (Genesis.Config g) as [c|]; [destruct (configs w !! c)|];
        by try injection Hb as _ <-. }
    clear Hb. subst w1.
    destruct (decide (Z.sgn (Block_Number block) ≠ 0%Z)); [by injection H as _ <-|].
    apply bind_inv in H as (cfg & w1 & [-> _]%load_inv & H).
    destruct (CheckConfigForkOrder cfg); [by injection H as _ <-|].
    destruct (decide _); [by injection H as _ <-|].
    apply bind_inv in H as (werr & w1 & Hwr & H).
    apply write_inv in Hwr as [(e & -> & ->) | (blob & -> & ->)];
      [by injection H as _ <-|].
    unfold bind, rawdb_write, ret in H. discriminate. }
  subst w'. simpl. repeat split; try done; apply flushed_same_chain_records.
Qed.

(** When each structural error arises. *)
Lemma Commit_invalid_height order g w :
  config_valid (configs w) (Genesis.Config g) ->
  Genesis.Number g ≠ 0%N ->
  Commit order g w
  = Done (inl InvalidGenesisHeight) (mkWorld (flushed g (store w)) (configs w)).
Proof.
  intros Hv Hn. unfold Commit.
  rewrite (bind_Done _ _ _ _ _ (ToBlock_valid order g db_store w Hv)).
  rewrite decide_True; [done|].
  rewrite genesis_block_Number. lia.
Qed.

Lemma Commit_fork_order order g w l cfg e :
  config_valid (configs w) (Genesis.Config g) ->
  Genesis.Number g = 0%N ->
  commit_config g = Some l -> configs w !! l = Some cfg ->
  CheckConfigForkOrder cfg = Some e ->
  Commit order g w = Done (inl e) (mkWorld (flushed g (store w)) (configs w)).
Proof.
  intros Hv Hn Hl Hcfg He. unfold Commit.
  rewrite (bind_Done _ _ _ _ _ (ToBlock_valid order g db_store w Hv)).
  rewrite decide_False by (rewrite genesis_block_Number, Hn; cbn; auto).
  fold (commit_config g). rewrite Hl.
  rewrite (bind_load l cfg) by done. by rewrite He.
Qed.

Lemma Commit_missing_signers order g w l cfg :
  config_valid (configs w) (Genesis.Config g) ->
  Genesis.Number g = 0%N ->
  commit_config g = Some l -> configs w !! l = Some cfg ->
  CheckConfigForkOrder cfg = None ->
  params.Clique cfg ≠ None ->
  length (Genesis.ExtraData g) < 32 + SignatureLength ->
  Commit order g w
  = Done (inl MissingSignerSet) (mkWorld (flushed g (store w)) (configs w)).
Proof.
  intros Hv Hn Hl Hcfg He Hc Hx. unfold Commit.
  rewrite (bind_Done _ _ _ _ _ (ToBlock_valid order g db_store w Hv)).
  rewrite decide_False by (rewrite genesis_block_Number, Hn; cbn; auto).
  fold (commit_config g). rewrite Hl.
  rewrite (bind_load l cfg) by done. rewrite He.
  rewrite decide_True; [done|]. by rewrite genesis_block_Extra.
Qed.
End commit_facts.

Section setup_facts.
Import genesis genesis_spec.
Context {ext : Externals}.
Implicit Types (order : MapOrder) (g : Genesis.t) (w : World).

Lemma apply_overrides_run ag ttd l c w :
  configs w !! l = Some c ->
  apply_overrides ag ttd (Some l) w
  = Done tt (mkWorld (store w) (<[l := overridden ag ttd c]> (configs w))).
Proof.
  intros Hc. unfold apply_overrides, overridden, bind, assign, ret.
  destruct ag, ttd; cbn [configs store]; rewrite ?Hc; cbn [configs store];
    rewrite ?lookup_insert_eq, ?insert_insert_eq; try done.
  by rewrite insert_id, World_eta.
Qed.

Lemma ReadChainConfig_run stored sc w :
  rawdb.ReadChainConfig stored (store w) = Some sc ->
  ReadChainConfig stored w
  = Done (Some (fresh (dom (configs w))))
         (mkWorld (store w) (<[fresh (dom (configs w)) := sc]> (configs w))).
Proof. intros Hs. unfold ReadChainConfig. by rewrite Hs. Qed.

Lemma ReadChainConfig_none stored w :
  rawdb.ReadChainConfig stored (store w) = None ->
  ReadChainConfig stored w = Done None w.
Proof. intros Hs. unfold ReadChainConfig. by rewrite Hs. Qed.


(** A supplied specification without a configuration is refused before
    the store is read: whatever the store and the overrides, the run
    returns [AllEthashProtocolChanges], the zero hash and
    [errGenesisNoConfig], and changes nothing. *)
Lemma missing_config_is_refused order g ag ttd w :
  Genesis.Config g = None ->
  SetupGenesisBlockWithOverride order (Some g) ag ttd w
  = Done (Some AllEthashProtocolChanges, 0%N, Some errGenesisNoConfig) w.
Proof.
  intros Hc. unfold SetupGenesisBlockWithOverride.
  by rewrite bool_decide_eq_true_2 by done.
Qed.

(** C3, as the code has it.  On a store whose genesis block is present
    (a canonical hash at height zero with a readable header), a run with
    a supplied specification that carries a chain configuration and whose
    recomputed block hash differs from the stored hash returns
    [GenesisMismatchError] with exactly the stored and the recomputed
    hash, together with the specification's configuration and the
    recomputed hash, and leaves the store and the configuration heap as
    they were.  The same holds without a supplied specification, for the
    default genesis, when the stored state cannot be opened.  A supplied
    specification without a configuration is refused before any hash is
    computed. *)
Theorem mismatch_is_reported order genesis g ag ttd w stored header :
  rawdb.ReadCanonicalHash 0 (store w) = stored ->
  stored ≠ 0%N ->
  rawdb.ReadHeader stored 0 (store w) = Some header ->
  (genesis = Some g /\ Genesis.Config g ≠ None) \/
  (genesis = None /\ DefaultGenesisBlock w = Done g w /\
   state_New (types.Header.Root header) (store w) = false) ->
  config_valid (configs w) (Genesis.Config g) ->
  genesis_hash (configs w) g ≠ stored ->
  SetupGenesisBlockWithOverride order genesis ag ttd w
  = Done (Genesis.Config g, genesis_hash (configs w) g,
          Some (GenesisMismatchError stored (genesis_hash (configs w) g))) w.
Proof.
  intros Hst Hnz Hh Hg Hv Hne.
  assert (Heff : effective genesis w = Done g w).
  { by destruct Hg as [[-> _] | (-> & Hd & _)]. }
  unfold SetupGenesisBlockWithOverride.
  assert (Hnc : match genesis with
                | Some g0 => bool_decide (Genesis.Config g0 = None)
                | None => false
                end = false).
  { destruct Hg as [[-> Hc] | (-> & _)]; [|done]. by apply bool_decide_eq_false_2. }
  rewrite Hnc. cbv iota.
  rewrite bind_rawdb_read, Hst. rewrite decide_False by done.
  rewrite bind_rawdb_read, Hh. cbv iota beta.
  rewrite bind_rawdb_read.
  destruct (state_New (types.Header.Root header) (store w)) eqn:Hr; cbn [negb].
  - destruct Hg as [[-> Hc] | (_ & _ & ?)]; [|done].
    unfold bind at 1. unfold bind at 1.
    rewrite (ToBlock_valid _ _ _ _ Hv).
    fold (genesis_hash (configs w) g).
    by rewrite decide_True by done.
  - fold (effective genesis).
    rewrite (bind_Done _ _ _ _ _ Heff).
    rewrite (bind_Done _ _ _ _ _ (ToBlock_valid order g db_nil w Hv)).
    fold (genesis_hash (configs w) g).
    by rewrite decide_True by done.
Qed.


(** A run on a store whose genesis is present, readable and matches the
    supplied specification, and which holds a chain configuration. *)
Lemma Setup_healthy order genesis ag ttd w stored header p0 c0 sc :
  rawdb.ReadCanonicalHash 0 (store w) = stored ->
  stored ≠ 0%N ->
  rawdb.ReadHeader stored 0 (store w) = Some header ->
  state_New (types.Header.Root header) (store w) = true ->
  (forall g, genesis = Some g ->
     Genesis.Config g ≠ None /\ genesis_hash (configs w) g = stored) ->
  configOrDefault genesis stored = Some p0 ->
  configs w !! p0 = Some c0 ->
  CheckConfigForkOrder (overridden ag ttd c0) = None ->
  rawdb.ReadChainConfig stored (store w) = Some sc ->
  exists p cfgs,
    cfgs !! p = Some (candidate genesis stored ag ttd c0 sc) /\
    (if decide (genesis = None /\ stored ≠ MainnetGenesisHash)
     then configs w !! p = None else p = p0) /\
    SetupGenesisBlockWithOverride order genesis ag ttd w
    = compat_outcome stored (Some p) (stored_operand genesis stored ag ttd sc)
                     (candidate genesis stored ag ttd c0 sc) (store w) cfgs.
Proof.
  intros Hst Hnz Hh Hr Hgen Hp0 Hc0 Hfo Hsc.
  set (w1 := mkWorld (store w) (<[p0 := overridden ag ttd c0]> (configs w))).
  set (l := fresh (dom (configs w1))).
  assert (Hl : configs w1 !! l = None) by (apply not_elem_of_dom, is_fresh).
  assert (Hlp : l ≠ p0).
  { intros Heq. rewrite Heq in Hl. subst w1. cbn [configs] in Hl.
    by rewrite lookup_insert_eq in Hl. }
  set (w2 := mkWorld (store w1) (<[l := sc]> (configs w1))).
  unfold candidate, stored_operand, compat_outcome.
  destruct (decide (genesis = None /\ stored ≠ MainnetGenesisHash)) as [Hpriv|Hpub].
  - exists l, (<[l := overridden ag ttd sc]> (configs w2)).
    split; [apply lookup_insert_eq|].
    split.
    { subst w1. cbn [configs] in Hl. by rewrite lookup_insert_ne in Hl. }
    unfold SetupGenesisBlockWithOverride.
    destruct Hpriv as [-> Hmain]. cbv iota.
    rewrite bind_rawdb_read, Hst. rewrite decide_False by done.
    rewrite bind_rawdb_read, Hh. cbv iota beta.
    rewrite bind_rawdb_read, Hr. cbn [negb]. cbv iota.
    rewrite bind_ret. cbv iota zeta. rewrite Hp0.
    rewrite (bind_Done _ _ _ _ _ (apply_overrides_run ag ttd p0 c0 w Hc0)).
    rewrite (bind_load p0 (overridden ag ttd c0)) by apply lookup_insert_eq.
    rewrite Hfo.
    rewrite (bind_Done _ _ _ _ _ (ReadChainConfig_run stored sc w1 Hsc)).
    cbv iota. fold l. fold w2.
    rewrite decide_True by done.
    assert (H2 : configs w2 !! l = Some sc) by apply lookup_insert_eq.
    assert (H3 : (apply_overrides ag ttd (Some l);; ret (Some l)) w2
                 = Done (Some l)
                     (mkWorld (store w2) (<[l := overridden ag ttd sc]> (configs w2)))).
    { by rewrite (bind_Done _ _ _ _ _ (apply_overrides_run ag ttd l sc w2 H2)). }
    rewrite (bind_Done _ _ _ _ _ H3).
    rewrite !bind_rawdb_read. cbn [store configs].
    destruct (rawdb.ReadHeaderNumber _ _) as [height|]; [|done].
    rewrite !(bind_load l (overridden ag ttd sc)) by apply lookup_insert_eq.
    by destruct (CheckCompatible _ _ _) as [e|]; [destruct (decide _)|].
  - exists p0, (configs w2).
    split.
    { subst w2 w1. cbn [configs]. rewrite lookup_insert_ne by done.
      apply lookup_insert_eq. }
    split; [done|].
    unfold SetupGenesisBlockWithOverride.
    assert (Hnc : match genesis with
                  | Some g0 => bool_decide (Genesis.Config g0 = None)
                  | None => false
                  end = false).
    { destruct genesis as [g|]; [|done].
      apply bool_decide_eq_false_2. by apply (Hgen g). }
    rewrite Hnc. cbv iota.
    rewrite bind_rawdb_read, Hst. rewrite decide_False by done.
    rewrite bind_rawdb_read, Hh. cbv iota beta.
    rewrite bind_rawdb_read, Hr. cbn [negb]. cbv iota.
    (* the supplied specification hashes to the stored hash *)
    match goal with
    | |- bind ?m _ w = _ => assert (Hm : m w = Done None w)
    end.
    { destruct genesis as [g|]; [|done].
      destruct (Hgen g eq_refl) as [Hc Hhash].
      assert (Hv : config_valid (configs w) (Genesis.Config g)).
      { intros l' Hl'. simpl in Hp0. rewrite Hl' in Hp0. injection Hp0 as ->. eauto. }
      rewrite (bind_Done _ _ _ _ _ (ToBlock_valid order g db_nil w Hv)).
      fold (genesis_hash (configs w) g).
      by rewrite decide_False by (intros Hne; by apply Hne). }
    rewrite (bind_Done _ _ _ _ _ Hm). cbv iota zeta. rewrite Hp0.
    rewrite (bind_Done _ _ _ _ _ (apply_overrides_run ag ttd p0 c0 w Hc0)).
    rewrite (bind_load p0 (overridden ag ttd c0)) by apply lookup_insert_eq.
    rewrite Hfo.
    rewrite (bind_Done _ _ _ _ _ (ReadChainConfig_run stored sc w1 Hsc)).
    cbv iota. fold l. fold w2.
    rewrite decide_False by done.
    rewrite bind_ret, !bind_rawdb_read. cbn [store configs].
    destruct (rawdb.ReadHeaderNumber _ _) as [height|]; [|done].
    rewrite (bind_load l sc) by apply lookup_insert_eq.
    rewrite (bind_load p0 (overridden ag ttd c0))
      by (subst w2 w1; cbn [configs]; rewrite lookup_insert_ne by done;
          apply lookup_insert_eq).
    by destruct (CheckCompatible _ _ _) as [e|]; [destruct (decide _)|].
Qed.

(** C4, as the code has it.  On a store whose genesis is present,
    readable and matches the supplied specification, when the
    compatibility check of the stored configuration against the candidate
    at head height [height] reports an incompatibility [e]: if both the
    height and the rewind target of [e] are nonzero, the run returns [e]
    and leaves the store as it was; if either is zero, the run returns no
    error and the store has the candidate as the chain configuration of
    the genesis hash.  In both cases the configuration returned is the
    candidate. *)
Theorem compat_error_by_height order genesis ag ttd w stored header p0 c0 sc height e :
  rawdb.ReadCanonicalHash 0 (store w) = stored ->
  stored ≠ 0%N ->
  rawdb.ReadHeader stored 0 (store w) = Some header ->
  state_New (types.Header.Root header) (store w) = true ->
  (forall g, genesis = Some g ->
     Genesis.Config g ≠ None /\ genesis_hash (configs w) g = stored) ->
  configOrDefault genesis stored = Some p0 ->
  configs w !! p0 = Some c0 ->
  CheckConfigForkOrder (overridden ag ttd c0) = None ->
  rawdb.ReadChainConfig stored (store w) = Some sc ->
  rawdb.ReadHeaderNumber (rawdb.ReadHeadHeaderHash (store w)) (store w) = Some height ->
  CheckCompatible (stored_operand genesis stored ag ttd sc)
                  (candidate genesis stored ag ttd c0 sc) height = Some e ->
  (height ≠ 0%N /\ RewindTo e ≠ 0%N ->
     exists p w',
       SetupGenesisBlockWithOverride order genesis ag ttd w
       = Done (Some p, stored, Some (ConfigCompat e)) w' /\
       store w' = store w /\
       configs w' !! p = Some (candidate genesis stored ag ttd c0 sc)) /\
  (height = 0%N \/ RewindTo e = 0%N ->
     exists p w',
       SetupGenesisBlockWithOverride order genesis ag ttd w
       = Done (Some p, stored, None) w' /\
       store w' = rawdb.WriteChainConfig stored (candidate genesis stored ag ttd c0 sc)
                                         (store w) /\
       configs w' !! p = Some (candidate genesis stored ag ttd c0 sc)).
Proof.
  intros Hst Hnz Hh Hr Hgen Hp0 Hc0 Hfo Hsc Hheight He.
  destruct (Setup_healthy order genesis ag ttd w stored header p0 c0 sc)
    as (p & cfgs & Hp & _ & Hrun); try done.
  unfold compat_outcome in Hrun. rewrite Hheight, He in Hrun.
  split.
  - intros Hboth. rewrite decide_True in Hrun by done.
    by exists p, (mkWorld (store w) cfgs).
  - intros Hzero. rewrite decide_False in Hrun.
    + by eexists p, _.
    + intros [? ?]. by destruct Hzero.
Qed.

(** C5, as the code has it.  On a store whose genesis is present and
    readable, a run without a supplied specification returns as the
    candidate: the stored configuration with the overrides applied, a new
    object, whenever the stored hash is not the main-net hash; and the
    main-net default with the overrides applied when it is.  When the run
    returns no error the candidate is what the store then holds. *)
Theorem candidate_without_specification order ag ttd w stored header p0 c0 sc :
  rawdb.ReadCanonicalHash 0 (store w) = stored ->
  stored ≠ 0%N ->
  rawdb.ReadHeader stored 0 (store w) = Some header ->
  state_New (types.Header.Root header) (store w) = true ->
  configOrDefault None stored = Some p0 ->
  configs w !! p0 = Some c0 ->
  CheckConfigForkOrder (overridden ag ttd c0) = None ->
  rawdb.ReadChainConfig stored (store w) = Some sc ->
  exists p err w',
    SetupGenesisBlockWithOverride order None ag ttd w = Done (Some p, stored, err) w' /\
    (stored ≠ MainnetGenesisHash ->
       configs w !! p = None /\
       configs w' !! p = Some (overridden ag ttd sc)) /\
    (stored = MainnetGenesisHash ->
       p = MainnetChainConfig /\
       configs w' !! p = Some (overridden ag ttd c0)) /\
    (err = None ->
       rawdb.ReadChainConfig stored (store w') = configs w' !! p).
Proof.
  intros Hst Hnz Hh Hr Hp0 Hc0 Hfo Hsc.
  destruct (Setup_healthy order None ag ttd w stored header p0 c0 sc)
    as (p & cfgs & Hp & Hfresh & Hrun); try done.
  assert (Hout : exists err db,
             compat_outcome stored (Some p) (stored_operand None stored ag ttd sc)
               (candidate None stored ag ttd c0 sc) (store w) cfgs
             = Done (Some p, stored, err) (mkWorld db cfgs) /\
             (err = None ->
                rawdb.ReadChainConfig stored db
                = Some (candidate None stored ag ttd c0 sc))).
  { unfold compat_outcome.
    destruct (rawdb.ReadHeaderNumber _ _) as [height|]; [|by eexists _, _].
    destruct (CheckCompatible _ _ _) as [e|];
      [destruct (decide (height ≠ 0%N /\ RewindTo e ≠ 0%N))|];
      eexists _, _; (split; [reflexivity|]); try done;
      intros _; apply lookup_insert_eq. }
  destruct Hout as (err & db & Hout & Herr).
  exists p, err, (mkWorld db cfgs). rewrite Hrun, Hout.
  split; [done|]. cbn [configs store].
  unfold candidate in *.
  destruct (decide (None = None /\ stored ≠ MainnetGenesisHash)) as [[_ Hm]|Hm].
  - split; [by intros _|]. split; [by intros Heq|].
    intros He. by rewrite Herr.
  - assert (Heq : stored = MainnetGenesisHash).
    { destruct (decide (stored = MainnetGenesisHash)); [done|].
      exfalso. by apply Hm. }
    split; [by intros Hne|]. split.
    + intros _. split; [|done]. subst p. unfold configOrDefault in Hp0.
      rewrite decide_True in Hp0 by done. by injection Hp0 as <-.
    + intros He. by rewrite Herr.
Qed.
End setup_facts.

Section genesis_examples.
Import genesis genesis_spec.
#[local] Existing Instance sample.externals.

Ltac evaluate :=
  repeat match goal with |- _ /\ _ => split end; vm_compute; exact eq_refl.


Lemma sample_config_valid c :
  config_valid (<[5%positive := c]> sample.heap) (Some 5%positive).
Proof. intros l [= <-]. rewrite lookup_insert_eq. eauto. Qed.

Lemma heap_config_valid : config_valid sample.heap (Some 5%positive).
Proof. intros l [= <-]. by eexists. Qed.

(** ** C1 *)

(** The sample genesis at height 1 on the empty store: [Commit] fails
    with the height error and no chain record is written. *)
Lemma Commit_error_keeps_chain_records_witness :
  same_chain_records (store sample.fresh_world)
    (flushed (sample.spec 1 100) (store sample.fresh_world)).
Proof.
  refine (proj2 (proj2 (Commit_error_keeps_chain_records sample.order (sample.spec 1 100)
            sample.fresh_world InvalidGenesisHeight
            (mkWorld (flushed (sample.spec 1 100) (store sample.fresh_world)) sample.heap) _))).
  apply (Commit_invalid_height sample.order (sample.spec 1 100) sample.fresh_world).
  - exact heap_config_valid.
  - discriminate.
Defined.

(** C1 as stated fails on the same input: the failed [Commit] has
    written the state of the allocation under its root. *)
Lemma Commit_error_writes_state :
  exists w',
    Commit sample.order (sample.spec 1 100) sample.fresh_world
    = Done (inl InvalidGenesisHeight) w' /\
    rawdb.states (store sample.fresh_world) !! 102%N = None /\
    rawdb.states (store w') !! 102%N
    = Some {[ 1%N := state.mkAccount 100 0 [] ∅ ]} /\
    store w' ≠ store sample.fresh_world.
Proof.
  exists (default sample.fresh_world
            (final_state (Commit sample.order (sample.spec 1 100) sample.fresh_world))).
  split; [evaluate|]. split; [evaluate|]. split; [evaluate|].
  intros H. apply (f_equal (fun db => rawdb.states db !! 102%N)) in H.
  vm_compute in H. discriminate.
Qed.

(** ** C3 *)

Lemma committed_canonical :
  rawdb.ReadCanonicalHash 0 (store sample.committed_world) = sample.stored_hash.
Proof. evaluate. Qed.

Lemma committed_header :
  rawdb.ReadHeader sample.stored_hash 0 (store sample.committed_world) = Some sample.stored_header.
Proof. evaluate. Qed.

(** The sample genesis with another balance against the committed
    store. *)
Lemma mismatch_is_reported_witness :
  SetupGenesisBlockWithOverride sample.order (Some (sample.spec 0 200)) None None
    sample.committed_world
  = Done (Some 5%positive, 4843670%N, Some (GenesisMismatchError 4843570 4843670))
         sample.committed_world.
Proof.
  apply (mismatch_is_reported sample.order (Some (sample.spec 0 200)) (sample.spec 0 200)
           None None sample.committed_world sample.stored_hash sample.stored_header).
  - evaluate.
  - discriminate.
  - evaluate.
  - left. split; [reflexivity | discriminate].
  - intros l [= <-]. vm_compute. eauto.
  - vm_compute. discriminate.
Defined.

(** C3 as stated fails for a supplied specification without a
    configuration: its hash differs from the stored one, and the run
    returns [errGenesisNoConfig], the all-protocol configuration and the
    zero hash. *)
Lemma missing_config_is_not_mismatch :
  rawdb.ReadCanonicalHash 0 (store sample.committed_world) = 4843570%N /\
  genesis_hash (configs sample.committed_world) sample.spec_without_config = 4843670%N /\
  SetupGenesisBlockWithOverride sample.order (Some sample.spec_without_config) None None
    sample.committed_world
  = Done (Some 4%positive, 0%N, Some errGenesisNoConfig) sample.committed_world.
Proof. evaluate. Qed.

(** ** C4 *)

Lemma advanced_canonical n c :
  rawdb.ReadCanonicalHash 0 (store (sample.advanced_world n c)) = sample.stored_hash.
Proof. evaluate. Qed.

(** At head height 10, the stored configuration has Berlin at 4 and the
    candidate at 8: the rewind target is 3. *)
Lemma compat_error_by_height_witness :
  exists w',
    SetupGenesisBlockWithOverride sample.order (Some (sample.spec 0 100)) None None
      (sample.advanced_world 10 (sample.config (Some 8%N) (Some 8%N)))
    = Done (Some 5%positive, sample.stored_hash,
            Some (ConfigCompat (mkConfigCompatError "Berlin fork block" 3))) w' /\
    store w' = store (sample.advanced_world 10 (sample.config (Some 8%N) (Some 8%N))).
Proof.
  pose proof (compat_error_by_height sample.order (Some (sample.spec 0 100)) None None
    (sample.advanced_world 10 (sample.config (Some 8%N) (Some 8%N)))
    sample.stored_hash sample.stored_header 5%positive (sample.config (Some 8%N) (Some 8%N))
    (sample.config (Some 4%N) (Some 6%N)) 10%N
    (mkConfigCompatError "Berlin fork block" 3)) as H.
  destruct H as [H _].
  - evaluate.
  - discriminate.
  - evaluate.
  - evaluate.
  - intros g [= <-]. split; [discriminate | evaluate].
  - reflexivity.
  - evaluate.
  - evaluate.
  - evaluate.
  - evaluate.
  - evaluate.
  - destruct H as (p & w' & Hrun & Hstore & Hp); [split; discriminate|].
    exists w'. split; [|done].
    rewrite Hrun. f_equal. f_equal. f_equal.
    assert (Hr : result (SetupGenesisBlockWithOverride sample.order
                           (Some (sample.spec 0 100)) None None
                           (sample.advanced_world 10 (sample.config (Some 8%N) (Some 8%N))))
                 = Some (Some p, sample.stored_hash,
                         Some (ConfigCompat (mkConfigCompatError "Berlin fork block" 3))))
      by (by rewrite Hrun).
    vm_compute in Hr. by injection Hr as <-.
Defined.

(** C4 as stated fails where the incompatibility has rewind target zero
    at a nonzero head height: with Berlin moved from 4 to 1 at head
    height 10 the run returns no error and overwrites the stored
    configuration. *)
Lemma compat_error_with_zero_rewind :
  exists w',
    rawdb.ReadHeaderNumber
      (rawdb.ReadHeadHeaderHash
         (store (sample.advanced_world 10 (sample.config (Some 1%N) (Some 6%N)))))
      (store (sample.advanced_world 10 (sample.config (Some 1%N) (Some 6%N))))
    = Some 10%N /\
    rawdb.ReadChainConfig sample.stored_hash
      (store (sample.advanced_world 10 (sample.config (Some 1%N) (Some 6%N))))
    = Some (sample.config (Some 4%N) (Some 6%N)) /\
    CheckCompatible (sample.config (Some 4%N) (Some 6%N))
      (sample.config (Some 1%N) (Some 6%N)) 10
    = Some (mkConfigCompatError "Berlin fork block" 0) /\
    SetupGenesisBlockWithOverride sample.order (Some (sample.spec 0 100)) None None
      (sample.advanced_world 10 (sample.config (Some 1%N) (Some 6%N)))
    = Done (Some 5%positive, sample.stored_hash, None) w' /\
    rawdb.ReadChainConfig sample.stored_hash (store w')
    = Some (sample.config (Some 1%N) (Some 6%N)).
Proof.
  exists (default sample.fresh_world
            (final_state
               (SetupGenesisBlockWithOverride sample.order (Some (sample.spec 0 100))
                  None None
                  (sample.advanced_world 10 (sample.config (Some 1%N) (Some 6%N)))))).
  evaluate.
Qed.

(** ** C5 *)

(** No supplied specification, the stored hash not the main-net one. *)
Lemma candidate_without_specification_witness :
  exists p err w',
    SetupGenesisBlockWithOverride sample.order None None None
      (sample.advanced_world 10 (sample.config (Some 4%N) (Some 6%N)))
    = Done (Some p, sample.stored_hash, err) w' /\
    configs w' !! p = Some (sample.config (Some 4%N) (Some 6%N)).
Proof.
  destruct (candidate_without_specification sample.order None None
    (sample.advanced_world 10 (sample.config (Some 4%N) (Some 6%N)))
    sample.stored_hash sample.stored_header 3%positive (sample.config (Some 0%N) (Some 0%N))
    (sample.config (Some 4%N) (Some 6%N)))
    as (p & err & w' & Hrun & Hpriv & _).
  - evaluate.
  - discriminate.
  - evaluate.
  - evaluate.
  - reflexivity.
  - evaluate.
  - evaluate.
  - evaluate.
  - exists p, err, w'. split; [done|]. apply Hpriv. discriminate.
Defined.

(** C5 as stated fails where the stored hash is the test-net hash: the
    test-net default configuration is discarded for the stored one. *)
Lemma testnet_default_is_discarded :
  exists w',
    rawdb.ReadCanonicalHash 0
      (store (sample.advanced_world 10 (sample.config (Some 4%N) (Some 6%N))))
    = TestnetGenesisHash /\
    configOrDefault None TestnetGenesisHash = Some TestnetChainConfig /\
    configs (sample.advanced_world 10 (sample.config (Some 4%N) (Some 6%N)))
      !! TestnetChainConfig
    = Some (sample.config (Some 0%N) (Some 0%N)) /\
    SetupGenesisBlockWithOverride sample.order None None None
      (sample.advanced_world 10 (sample.config (Some 4%N) (Some 6%N)))
    = Done (Some 6%positive, TestnetGenesisHash, None) w' /\
    configs w' !! 6%positive = Some (sample.config (Some 4%N) (Some 6%N)) /\
    rawdb.ReadChainConfig TestnetGenesisHash (store w')
    = Some (sample.config (Some 4%N) (Some 6%N)).
Proof.
  exists (default sample.fresh_world
            (final_state
               (SetupGenesisBlockWithOverride sample.order None None None
                  (sample.advanced_world 10 (sample.config (Some 4%N) (Some 6%N)))))).
  evaluate.
Qed.

(** ** C8 *)

(** The sample genesis: zero gas limit, unset difficulty, base fee 7. *)
Lemma ToBlock_defaults_witness :
  exists block w',
    ToBlock sample.order (sample.spec 0 100) db_store sample.fresh_world = Done block w' /\
    types.Header.GasLimit (types.header block) = 4712388%N /\
    types.Header.Difficulty (types.header block) = Some 131072%Z /\
    types.Header.BaseFee (types.header block) = Some 7%Z.
Proof.
  destruct (ToBlock_defaults sample.order (sample.spec 0 100) db_store sample.fresh_world
              heap_config_valid)
    as (block & w' & Hrun & _ & Hgas & _ & Hdiff & _ & _ & Hfee & _).
  exists block, w'. split; [done|].
  split; [by apply Hgas|]. split; [by apply Hdiff|].
  by apply Hfee.
Defined.

End genesis_examples.

(** * core/types/priority_tx.go: the shape of a copy *)

Section copy_shape.
Import priority_tx.
Context {AccessTuple : Type} (zero_tuple : AccessTuple).
Implicit Types (h : @Heap AccessTuple) (tx : PriorityTx).

(** The steps of a run of [copy], inverted. *)
Ltac invert_copy H :=
  unfold copy in H;
  do 14 step H; cbv zeta in H; do 11 step H;
  injection H as <- <-;
  repeat match goal with
  | E : new_Int _ = _ |- _ => apply new_Int_inv in E as (? & ? & ? & ? & ? & ? & ?)
  | E : Set_if_not_nil _ _ _ = _ |- _ =>
      apply Set_if_not_nil_inv in E as (? & ? & ? & ? & ?)
  end.

(** Which pointers of the copy are nil. *)
Lemma copy_pointers tx h cpy h' :
  copy zero_tuple tx h = Done cpy h' ->
  (To cpy = None <-> To tx = None) /\
  (Data cpy = None <-> Data tx = None) /\
  exists al, AccessList cpy = Some al /\ al ∈ dom (tuple_arrays h').
Proof.
  intros H. invert_copy H.
  match goal with E : copyAddressPtr _ _ = _ |- _ => rename E into Eto end.
  match goal with E : CopyBytes _ _ = _ |- _ => rename E into Edata end.
  match goal with E : len_AccessList _ _ = _ |- _ =>
    apply len_AccessList_inv in E as (-> & ->) end.
  match goal with E : make_AccessList _ _ _ = _ |- _ =>
    apply (make_AccessList_inv zero_tuple) in E
      as (_ & _ & _ & _ & (al & -> & _ & _)) end.
  match goal with E : copy_AccessList _ _ _ = _ |- _ =>
    apply copy_AccessList_inv in E as (_ & _ & _ & _ & Hal) end.
  cbn [To Data AccessList]. split; [|split].
  - unfold copyAddressPtr in Eto. destruct (To tx); by injection Eto as <- _.
  - unfold CopyBytes in Edata. destruct (Data tx); by injection Edata as <- _.
  - exists al. split; [done|]. apply elem_of_dom.
    repeat match goal with
    | E : tuple_arrays _ = tuple_arrays _ |- _ => rewrite E; clear E
    end.
    eauto.
Qed.

Lemma copy_is_well_formed_aux tx h :
  valid h tx ->
  exists cpy h', copy zero_tuple tx h = Done cpy h' /\ valid h' cpy /\ valid h' tx.
Proof.
  intros Hv. destruct (copy_Done zero_tuple tx h) as (cpy & h' & Hrun).
  exists cpy, h'. split; [done|].
  destruct (copy_ints zero_tuple tx h cpy h' Hv Hrun) as (Hf & Hold & _).
  destruct (copy_others zero_tuple tx h cpy h' Hv Hrun)
    as (_ & _ & Hto & Hdata & _ & Ha & Hb & Ht & _).
  destruct (copy_pointers tx h cpy h' Hrun) as (Hton & Hdn & al & Hal & Hald).
  destruct Hv as (Hvi & Hvt & Hvd & Hva).
  split.
  - split; [|split; [|split]].
    + intros f l Hl. destruct (Hf f) as (l' & Hl' & _ & Hv').
      rewrite Hl in Hl'. injection Hl' as <-. apply elem_of_dom. eauto.
    + intros l Hl. rewrite Hl in Hto, Hton.
      destruct (To tx) as [p|] eqn:Ep;
        [|destruct Hton as [_ Hton]; by specialize (Hton eq_refl)].
      unfold addr_value in Hto. simpl in Hto.
      pose proof (Hvt p eq_refl) as [v Hv']%elem_of_dom.
      unfold Address in *. rewrite Hv' in Hto. apply elem_of_dom. eauto.
    + intros l Hl. rewrite Hl in Hdata, Hdn.
      destruct (Data tx) as [p|] eqn:Ep;
        [|destruct Hdn as [_ Hdn]; by specialize (Hdn eq_refl)].
      unfold bytes_value in Hdata. simpl in Hdata.
      pose proof (Hvd p eq_refl) as [v Hv']%elem_of_dom.
      rewrite Hv' in Hdata. apply elem_of_dom. eauto.
    + intros l Hl. rewrite Hal in Hl. by injection Hl as <-.
  - split; [|split; [|split]].
    + intros f l Hl. apply elem_of_dom. rewrite Hold by (by apply (Hvi f)).
      by apply elem_of_dom, (Hvi f).
    + intros l Hl. apply elem_of_dom. rewrite Ha by (by apply Hvt).
      by apply elem_of_dom, Hvt.
    + intros l Hl. apply elem_of_dom. rewrite Hb by (by apply Hvd).
      by apply elem_of_dom, Hvd.
    + intros l Hl. apply elem_of_dom. rewrite Ht by (by apply Hva).
      by apply elem_of_dom, Hva.
Qed.

(** X19.  [copy] never fails on a transaction whose pointers
    are valid, and returns one whose pointers are valid in the new heap
    while those of the source stay valid: every big-integer field and
    the access list of the copy are non-nil, whatever the source has, and
    [To] and [Data] are nil exactly when the source's are. *)
Theorem copy_is_well_formed tx h :
  valid h tx ->
  exists cpy h', copy zero_tuple tx h = Done cpy h' /\
    valid h' cpy /\ valid h' tx /\
    (forall f, is_Some (field f cpy)) /\
    is_Some (AccessList cpy) /\
    (To cpy = None <-> To tx = None) /\
    (Data cpy = None <-> Data tx = None).
Proof.
  intros Hv.
  destruct (copy_is_well_formed_aux tx h Hv) as (cpy & h' & Hrun & Hv1 & Hvtx).
  exists cpy, h'. split; [done|]. split; [done|]. split; [done|].
  destruct (copy_ints zero_tuple tx h cpy h' Hv Hrun) as (Hf & _).
  destruct (copy_pointers tx h cpy h' Hrun) as (Hton & Hdn & al & Hal & _).
  split; [intros f; destruct (Hf f) as (l & -> & _); eauto|].
  split; [rewrite Hal; eauto|]. done.
Qed.

(** X20.  A copy of a copy equals the copy in value in every
    field, the big-integer fields included, and making it changes
    neither the first copy nor the source. *)
Theorem copy_of_copy tx h :
  valid h tx ->
  exists cpy h1 cpy2 h2,
    copy zero_tuple tx h = Done cpy h1 /\
    copy zero_tuple cpy h1 = Done cpy2 h2 /\
    Nonce cpy2 = Nonce cpy /\ Gas cpy2 = Gas cpy /\
    (forall f, int_value h2 (field f cpy2) = int_value h1 (field f cpy)) /\
    addr_value h2 (To cpy2) = addr_value h1 (To cpy) /\
    bytes_value h2 (Data cpy2) = bytes_value h1 (Data cpy) /\
    tuples_value h2 (AccessList cpy2) = tuples_value h1 (AccessList cpy) /\
    (forall f, int_value h2 (field f cpy) = int_value h1 (field f cpy)) /\
    (forall f, int_value h2 (field f tx) = int_value h (field f tx)).
Proof.
  intros Hv.
  destruct (copy_is_well_formed_aux tx h Hv) as (cpy & h1 & Hrun1 & Hv1 & Hvtx).
  destruct (copy_Done zero_tuple cpy h1) as (cpy2 & h2 & Hrun2).
  exists cpy, h1, cpy2, h2. split; [done|]. split; [done|].
  destruct (copy_ints zero_tuple tx h cpy h1 Hv Hrun1) as (Hf1 & Hold1 & _).
  destruct (copy_ints zero_tuple cpy h1 cpy2 h2 Hv1 Hrun2) as (Hf2 & Hold2 & _).
  destruct (copy_others zero_tuple cpy h1 cpy2 h2 Hv1 Hrun2)
    as (Hn & Hg & Hto & Hdata & Hal & _).
  repeat split; try done.
  - intros f. destruct (Hf2 f) as (l2 & -> & _ & Hl2).
    destruct (Hf1 f) as (l1 & El1 & _ & Hl1).
    unfold int_value at 1. simpl. rewrite Hl2.
    rewrite El1. unfold int_value. simpl. by rewrite Hl1.
  - intros f. destruct (Hf1 f) as (l1 & -> & _ & Hl1).
    unfold int_value. simpl. apply Hold2. apply elem_of_dom. eauto.
  - intros f. destruct Hv as (Hvi & _).
    destruct (field f tx) as [l|] eqn:El; [|done].
    unfold int_value. simpl.
    pose proof (Hvi f l El) as Hl.
    rewrite Hold2, Hold1; [done|done|].
    apply elem_of_dom. rewrite Hold1 by done. by apply elem_of_dom.
Qed.
End copy_shape.

(** * The priority-transactor registry: the keys of the mapping *)

Section registry_keys.
Import priority_transactors.
Context {reg : Registry}.

Lemma build_is_Some ts k : is_Some (build ts !! k) <-> k ∈ key_of <$> ts.
Proof.
  induction ts as [|t ts IH] using rev_ind.
  - unfold build. simpl. rewrite lookup_empty. split; [by intros [? ?]|].
    by intros ?%elem_of_nil.
  - rewrite build_snoc, fmap_app. simpl. rewrite elem_of_app, list_elem_of_singleton.
    destruct (decide (key_of t = k)) as [<-|Hne].
    + rewrite lookup_insert_eq. split; eauto.
    + rewrite lookup_insert_ne by done. rewrite IH. split; [by left|].
      by intros [?|?].
Qed.

Lemma build_size ts :
  size (build ts) <= length ts /\
  (size (build ts) = length ts -> NoDup (key_of <$> ts)).
Proof.
  induction ts as [|t ts [IHle IHeq]] using rev_ind.
  - split; [done|]. intros _. constructor.
  - rewrite build_snoc, length_app, fmap_app. simpl.
    destruct (build ts !! key_of t) as [e|] eqn:Hk.
    + rewrite map_size_insert_Some by done. split; [lia|]. intros Hs. lia.
    + rewrite map_size_insert_None by done. split; [lia|]. intros Hs.
      apply NoDup_app. split; [apply IHeq; lia|]. split; [|apply NoDup_singleton].
      intros k Hin ->%list_elem_of_singleton.
      apply build_is_Some in Hin. rewrite Hk in Hin. by destruct Hin.
Qed.

(** X21.  On a successful call and decode the mapping
    [GetPriorityTransactors] returns has exactly the public keys of the
    decoded tuples as its keys; it never has more entries than there are
    tuples, and has as many exactly when the public keys of the tuples
    are pairwise distinct. *)
Theorem GetPriorityTransactors_keys blockNumber config evm tr out ts :
  let address := GetPriorityTransactorsContractAddress config blockNumber in
  let c := mkCall address address (Pack "getTransactors" []) MaxGasLimit in
  address ≠ 0%N ->
  length (GetCode evm address) ≠ 0 ->
  StaticCall evm c = (out, None) ->
  Unpack_getTransactors out = inr ts ->
  exists m,
    GetPriorityTransactors blockNumber config evm tr = Done (m, None) (tr ++ [c]) /\
    (forall k, is_Some (m !! k) <-> k ∈ key_of <$> ts) /\
    size m <= length ts /\
    (size m = length ts <-> NoDup (key_of <$> ts)).
Proof.
  intros address c Hnz Hcode Hcall Hdec.
  exists (build ts). split.
  - unfold GetPriorityTransactors. fold address.
    rewrite decide_True by done. rewrite decide_False by done.
    unfold bind, evm_StaticCall, AccountRef. fold c.
    by rewrite Hcall, Hdec.
  - split; [apply build_is_Some|].
    destruct (build_size ts) as [Hle Heq]. split; [done|].
    split; [done|]. intros Hnd. by apply build_NoDup.
Qed.
End registry_keys.

(** Two tuples under the key ["K"]: one entry. *)
Lemma GetPriorityTransactors_keys_witness :
  exists m,
    priority_transactors.GetPriorityTransactors (reg := sample.registry) None 7%N
      sample.evm_duplicate_key []
    = Done (m, None) [priority_transactors.mkCall 7 7 [] 0x7fffffffffffffff] /\
    size m <= 2.
Proof.
  destruct (GetPriorityTransactors_keys (reg := sample.registry) None 7%N
              sample.evm_duplicate_key []
              [Byte.x4b; Byte.x41; Byte.x4b; Byte.x42]
              [priority_transactors.TransactorMeta.mk "K" true "A";
               priority_transactors.TransactorMeta.mk "K" false "B"])
    as (m & Hrun & _ & Hle & _).
  - discriminate.
  - simpl. discriminate.
  - reflexivity.
  - reflexivity.
  - exists m. split; [exact Hrun | exact Hle].
Defined.

(** * core/genesis.go: [storageJSON] *)

Section storageJSON_facts.
Import hex storageJSON.
Implicit Types (h dst src text bs : list byte) (v c : byte).

Lemma decode_encode_byte v :
  fromHexChar (digit (N.shiftr (Byte.to_N v) 4)) = Some (N.shiftr (Byte.to_N v) 4) /\
  fromHexChar (digit (N.land (Byte.to_N v) 0x0f)) = Some (N.land (Byte.to_N v) 0x0f) /\
  byte_of_N (N.lor (N.shiftl (N.shiftr (Byte.to_N v) 4) 4) (N.land (Byte.to_N v) 0x0f))
  = v /\
  digit (N.land (Byte.to_N v) 0x0f) ≠ Byte.x78.
Proof. destruct v; vm_compute; repeat split; discriminate. Qed.

Lemma Encode_cons v bs :
  Encode (v :: bs)
  = digit (N.shiftr (Byte.to_N v) 4) :: digit (N.land (Byte.to_N v) 0x0f) :: Encode bs.
Proof. done. Qed.

Lemma Encode_length bs : length (Encode bs) = 2 * length bs.
Proof. induction bs as [|v bs IH]; [done|]. rewrite Encode_cons. simpl. lia. Qed.

Lemma div2_SS n : S (S n) / 2 = S (n / 2).
Proof. replace (S (S n)) with (n + 1 * 2) by lia. rewrite Nat.div_add by done. lia. Qed.

(** Decoding what [Encode] wrote gives the bytes back, in place. *)
Lemma Decode_loop_Encode bs i dst :
  i + length bs <= length dst ->
  Decode_loop i (Encode bs) dst
  = Done (i + length bs, None) (take i dst ++ bs ++ drop (i + length bs) dst).
Proof.
  revert i dst. induction bs as [|v bs IH]; intros i dst Hlen.
  - simpl. rewrite Nat.add_0_r, take_drop. done.
  - rewrite Encode_cons. cbn [Decode_loop].
    destruct (decode_encode_byte v) as (-> & -> & Hv & _). rewrite Hv.
    simpl in Hlen.
    unfold bind at 1. unfold get.
    rewrite decide_True by lia.
    unfold bind at 1. unfold put.
    rewrite IH by (rewrite length_insert; lia).
    f_equal.
    + f_equal. simpl. lia.
    + rewrite (take_S_r _ _ v) by (apply list_lookup_insert_eq; lia).
      rewrite take_insert_ge by lia.
      rewrite drop_insert_lt by lia.
      rewrite <- app_assoc. simpl.
      by replace (i + S (length bs)) with (S i + length bs) by lia.
Qed.

(** [hex.Decode] stays within a destination that has room for every pair
    of digits, and succeeds exactly on an even number of hex digits. *)
Lemma Decode_loop_spec n : forall src i dst,
  length src <= n ->
  i + length src / 2 <= length dst ->
  exists k e dst',
    Decode_loop i src dst = Done (k, e) dst' /\
    length dst' = length dst /\
    take i dst' = take i dst /\
    (e = None <-> Nat.Even (length src) /\ Forall is_hex src).
Proof.
  induction n as [|n IH]; intros src i dst Hn Hroom.
  - destruct src; [|simpl in Hn; lia].
    exists i, None, dst. repeat split; try done. by exists 0.
  - destruct src as [|p [|q src]].
    + exists i, None, dst. repeat split; try done. by exists 0.
    + cbn [Decode_loop]. destruct (fromHexChar p) as [a|] eqn:Hp.
      * exists i, (Some ErrLength), dst. repeat split; try done.
        intros [[k Hk] _]. simpl in Hk. lia.
      * exists i, (Some (InvalidByteError p)), dst. repeat split; try done.
        intros [[k Hk] _]. simpl in Hk. lia.
    + cbn [Decode_loop]. cbn [length] in Hroom, Hn. rewrite div2_SS in Hroom.
      destruct (fromHexChar p) as [a|] eqn:Hp.
      2:{ exists i, (Some (InvalidByteError p)), dst. repeat split; try done.
          intros [_ Hall]. apply Forall_cons in Hall as [[? Hx] _].
          unfold is_hex in *. congruence. }
      destruct (fromHexChar q) as [b|] eqn:Hq.
      2:{ exists i, (Some (InvalidByteError q)), dst. repeat split; try done.
          intros [_ Hall]. apply Forall_cons in Hall as [_ Hall].
          apply Forall_cons in Hall as [[? Hx] _]. congruence. }
      unfold bind at 1. unfold get. rewrite decide_True by lia.
      unfold bind at 1. unfold put.
      destruct (IH src (S i) (<[i := byte_of_N (N.lor (N.shiftl a 4) b)]> dst))
        as (k & e & dst' & -> & Hl & Ht & He).
      { lia. }
      { rewrite length_insert. lia. }
      exists k, e, dst'. split; [done|].
      rewrite length_insert in Hl. split; [done|]. split.
      * apply (f_equal (take i)) in Ht.
        rewrite !take_take in Ht. rewrite Nat.min_l in Ht by lia.
        by rewrite take_insert_ge in Ht by lia.
      * rewrite He. cbn [length]. rewrite Nat.Even_succ_succ.
        split; intros [He1 He2]; (split; [done|]).
        -- apply Forall_cons; split; [by eexists|].
           apply Forall_cons; split; [by eexists|]. done.
        -- apply Forall_cons in He2 as [_ He2]. by apply Forall_cons in He2 as [_ He2].
Qed.

Lemma TrimPrefix_prefix text : TrimPrefix (prefix_0x ++ text) prefix_0x = text.
Proof. unfold TrimPrefix. by rewrite decide_True by done. Qed.

Lemma TrimPrefix_Encode bs : TrimPrefix (Encode bs) prefix_0x = Encode bs.
Proof.
  unfold TrimPrefix. rewrite decide_False; [done|].
  destruct bs as [|v bs]; [done|]. rewrite Encode_cons. simpl.
  destruct (decode_encode_byte v) as (_ & _ & _ & Hx).
  intros [= _ Hd]. done.
Qed.

Lemma UnmarshalText_Encode_trimmed bs h :
  length h = 32 -> length bs <= 32 ->
  TrimPrefix (Encode bs) prefix_0x = Encode bs /\
  forall text, TrimPrefix text prefix_0x = Encode bs ->
    UnmarshalText text h = Done None (take (32 - length bs) h ++ bs).
Proof.
  intros Hh Hbs. split; [apply TrimPrefix_Encode|].
  intros text Ht. unfold UnmarshalText. rewrite Ht.
  rewrite decide_False by (rewrite Encode_length; lia).
  unfold bind at 1. unfold get.
  rewrite Encode_length, Hh.
  replace (2 * length bs / 2) with (length bs)
    by (rewrite Nat.mul_comm, Nat.div_mul; done).
  rewrite decide_False by lia.
  match goal with
  | |- context [Z.to_nat ?z] => replace (Z.to_nat z) with (32 - length bs) by lia
  end.
  unfold Decode. rewrite Decode_loop_Encode by (rewrite length_drop; lia).
  simpl take at 2. cbn [Nat.add].
  rewrite (drop_ge (drop _ _)) by (rewrite length_drop; lia).
  by rewrite app_nil_r.
Qed.

(** X1.  Unmarshalling the hex text of at most 32 bytes, with or
    without the ["0x"] prefix, never fails and stores the bytes
    right-aligned in the array; the bytes to their left are left as they
    were, so a zero array ends as the left-padded value. *)
Theorem UnmarshalText_round_trip bs h :
  length h = 32 -> length bs <= 32 ->
  UnmarshalText (prefix_0x ++ Encode bs) h = Done None (take (32 - length bs) h ++ bs) /\
  UnmarshalText (Encode bs) h = Done None (take (32 - length bs) h ++ bs) /\
  (h = replicate 32 Byte.x00 ->
   UnmarshalText (prefix_0x ++ Encode bs) h
   = Done None (replicate (32 - length bs) Byte.x00 ++ bs)).
Proof.
  intros Hh Hbs.
  destruct (UnmarshalText_Encode_trimmed bs h Hh Hbs) as [Htrim Hrun].
  assert (H1 := Hrun (prefix_0x ++ Encode bs) (TrimPrefix_prefix _)).
  split; [done|]. split; [by apply Hrun|].
  intros ->. rewrite H1. by rewrite take_replicate, Nat.min_l by lia.
Qed.

(** X2.  On a 32-byte array [UnmarshalText] never panics and keeps
    the length; it returns no error exactly when the text after an
    optional ["0x"] is an even number, at most 64, of hex digits.  More
    than 64 characters are refused with the array untouched; otherwise
    the bytes left of the value are untouched, whatever the outcome. *)
Theorem UnmarshalText_accepts_iff text h :
  length h = 32 ->
  let t := TrimPrefix text prefix_0x in
  exists r h',
    UnmarshalText text h = Done r h' /\
    length h' = 32 /\
    (r = None <-> length t <= 64 /\ Nat.Even (length t) /\ Forall is_hex t) /\
    (64 < length t -> r = Some (TooManyHexCharacters t) /\ h' = h) /\
    (length t <= 64 ->
       take (32 - length t / 2) h' = take (32 - length t / 2) h /\
       (r = None \/ r = Some (InvalidHex t))).
Proof.
  intros Hh t. unfold UnmarshalText. fold t.
  destruct (decide (64 < length t)) as [Hlong|Hshort].
  - exists (Some (TooManyHexCharacters t)), h. repeat split; try done; lia.
  - unfold bind at 1. unfold get. rewrite Hh.
    assert (Hdiv : length t / 2 <= 32).
    { apply Nat.Div0.div_le_upper_bound. lia. }
    rewrite decide_False by lia.
    match goal with
    | |- context [Z.to_nat ?z] =>
        replace (Z.to_nat z) with (32 - length t / 2) by lia
    end.
    destruct (Decode_loop_spec (length t) t 0 (drop (32 - length t / 2) h))
      as (k & e & dst' & Hrun & Hl & _ & He).
    { done. }
    { rewrite length_drop. lia. }
    unfold Decode. rewrite Hrun.
    rewrite length_drop in Hl.
    exists (match e with Some _ => Some (InvalidHex t) | None => None end),
           (take (32 - length t / 2) h ++ dst').
    split; [by destruct e|].
    split; [rewrite length_app, length_take; lia|].
    split.
    { split.
      - intros Hr. split; [lia|]. apply He. by destruct e.
      - intros (_ & H1 & H2). destruct He as [_ He]. by rewrite He. }
    split; [lia|].
    intros _. split.
    + rewrite take_app_le by (rewrite length_take; lia).
      rewrite take_take. by rewrite Nat.min_id.
    + destruct e; auto.
Qed.
End storageJSON_facts.

(** A three-byte value into a zero array. *)
Lemma UnmarshalText_round_trip_witness :
  storageJSON.UnmarshalText
    (storageJSON.prefix_0x ++ hex.Encode [Byte.x01; Byte.xab; Byte.xff])
    (replicate 32 Byte.x00)
  = Done None (replicate 29 Byte.x00 ++ [Byte.x01; Byte.xab; Byte.xff]).
Proof.
  refine (proj2 (proj2 (UnmarshalText_round_trip [Byte.x01; Byte.xab; Byte.xff]
                          (replicate 32 Byte.x00) _ _)) _).
  - reflexivity.
  - simpl. lia.
  - reflexivity.
Defined.

(** The text ["0x1"], an odd number of digits, is refused. *)
Lemma UnmarshalText_accepts_iff_witness :
  exists r h',
    storageJSON.UnmarshalText [Byte.x30; Byte.x78; Byte.x31] (replicate 32 Byte.x00)
    = Done r h' /\ length h' = 32 /\ r ≠ None.
Proof.
  destruct (UnmarshalText_accepts_iff [Byte.x30; Byte.x78; Byte.x31]
              (replicate 32 Byte.x00) eq_refl)
    as (r & h' & Hrun & Hlen & Hiff & _).
  exists r, h'. split; [done|]. split; [done|].
  intros Hr. apply Hiff in Hr as (_ & [k Hk] & _). simpl in Hk. lia.
Defined.

(** * core/genesis.go: a successful [Commit], and [SetupGenesisBlock] around it *)

Section commit_success.
Import genesis genesis_spec genesis_tools.
Context {ext : Externals}.
Implicit Types (order : MapOrder) (g : Genesis.t) (w : World).

Lemma bind_write_ok {B} ga hash blob (f : option error -> M World B) w :
  json_Marshal ga = inr blob ->
  bind (write ga hash) f w
  = f None (mkWorld (rawdb.WriteGenesisState hash blob (store w)) (configs w)).
Proof. intros Hj. unfold write. by rewrite Hj. Qed.

(** The run of a [Commit] that passes its three checks. *)
Lemma Commit_ok order g w l cfg blob :
  config_valid (configs w) (Genesis.Config g) ->
  Genesis.Number g = 0%N ->
  commit_config g = Some l -> configs w !! l = Some cfg ->
  CheckConfigForkOrder cfg = None ->
  signers_ok cfg g ->
  json_Marshal (Genesis.Alloc g) = inr blob ->
  Commit order g w
  = Done (inr (genesis_block (configs w) g))
         (mkWorld (committed_store (genesis_block (configs w) g) cfg blob
                     (flushed g (store w)))
                  (configs w)).
Proof.
  intros Hv Hn Hl Hcfg Hfo Hs Hj. unfold Commit.
  rewrite (bind_Done _ _ _ _ _ (ToBlock_valid order g db_store w Hv)).
  rewrite decide_False by (rewrite genesis_block_Number, Hn; cbn; auto).
  fold (commit_config g). rewrite Hl.
  rewrite (bind_load l cfg) by done. rewrite Hfo.
  rewrite decide_False.
  2:{ rewrite genesis_block_Extra. intros [Hc Hlen]. destruct Hs as [Hs|Hs]; [done|lia]. }
  rewrite (bind_write_ok _ _ blob) by done.
  rewrite !bind_rawdb_write. done.
Qed.

Lemma genesis_block_NumberU64 cfgs g :
  Genesis.Number g = 0%N -> Block_NumberU64 (genesis_block cfgs g) = 0%N.
Proof. intros Hn. unfold Block_NumberU64. by rewrite genesis_block_Number, Hn. Qed.

(** What the store holds after the record writes of [Commit]. *)
Lemma committed_store_reads (block : types.Block) (cfg : ChainConfig) blob (db : DB) :
  let db' := committed_store block cfg blob db in
  let hash := Block_Hash block in
  let number := Block_NumberU64 block in
  rawdb.ReadCanonicalHash number db' = hash /\
  rawdb.ReadHeader hash number db' = Some (types.header block) /\
  rawdb.ReadHeaderNumber hash db' = Some number /\
  rawdb.ReadHeadHeaderHash db' = hash /\
  rawdb.head_block db' = Some hash /\
  rawdb.head_fast_block db' = Some hash /\
  rawdb.ReadChainConfig hash db' = Some cfg /\
  ReadGenesisState hash db' = blob /\
  rawdb.td db' !! (number, hash) = Some (Block_Difficulty block) /\
  rawdb.receipts db' !! (number, hash) = Some [] /\
  rawdb.states db' = rawdb.states db.
Proof.
  intros db' hash number. subst db'. unfold committed_store.
  fold hash. fold number.
  unfold rawdb.ReadCanonicalHash, rawdb.ReadHeader, rawdb.ReadHeaderNumber,
    rawdb.ReadHeadHeaderHash, rawdb.ReadChainConfig, ReadGenesisState.
  cbn -[hash number].
  rewrite !lookup_insert_eq. done.
Qed.

(** X3.  A [Commit] of a specification at height zero whose
    configuration passes the fork-order and signer checks returns the
    materialized block and leaves it the canonical head: the canonical
    hash at height zero and the three head pointers are the block's hash,
    under which the header, its number, the total difficulty, an empty
    receipt list, the allocation blob and the configuration can be
    read; a specification without configuration is stored with
    [AllEthashProtocolChanges].  The configuration objects are not
    touched. *)
Theorem Commit_makes_canonical_head order g w l cfg blob :
  config_valid (configs w) (Genesis.Config g) ->
  Genesis.Number g = 0%N ->
  commit_config g = Some l -> configs w !! l = Some cfg ->
  CheckConfigForkOrder cfg = None ->
  signers_ok cfg g ->
  json_Marshal (Genesis.Alloc g) = inr blob ->
  exists block w',
    Commit order g w = Done (inr block) w' /\
    block = genesis_block (configs w) g /\
    configs w' = configs w /\
    rawdb.ReadCanonicalHash 0 (store w') = Block_Hash block /\
    rawdb.ReadHeader (Block_Hash block) 0 (store w') = Some (types.header block) /\
    rawdb.ReadHeaderNumber (Block_Hash block) (store w') = Some 0%N /\
    rawdb.ReadHeadHeaderHash (store w') = Block_Hash block /\
    rawdb.head_block (store w') = Some (Block_Hash block) /\
    rawdb.head_fast_block (store w') = Some (Block_Hash block) /\
    rawdb.ReadChainConfig (Block_Hash block) (store w') = Some cfg /\
    ReadGenesisState (Block_Hash block) (store w') = blob /\
    rawdb.td (store w') !! (0%N, Block_Hash block) = Some (Block_Difficulty block) /\
    rawdb.receipts (store w') !! (0%N, Block_Hash block) = Some [] /\
    rawdb.states (store w') = rawdb.states (flushed g (store w)).
Proof.
  intros Hv Hn Hl Hcfg Hfo Hs Hj.
  eexists _, _. split; [by apply (Commit_ok order g w l cfg blob)|].
  split; [done|]. split; [done|]. cbn [store].
  pose proof (committed_store_reads (genesis_block (configs w) g) cfg blob
                (flushed g (store w))) as H.
  cbv zeta in H. rewrite (genesis_block_NumberU64 _ _ Hn) in H. exact H.
Qed.
End commit_success.

Section setup_more.
Import genesis genesis_spec genesis_tools.
Context {ext : Externals}.
Implicit Types (order : MapOrder) (g : Genesis.t) (w : World).

(** On a store without a genesis, [SetupGenesisBlockWithOverride] is
    [Commit]. *)
Lemma Setup_empty_eq order genesis g ag ttd w :
  rawdb.ReadCanonicalHash 0 (store w) = 0%N ->
  (genesis = Some g /\ Genesis.Config g ≠ None) \/
  (genesis = None /\ DefaultGenesisBlock w = Done g w) ->
  SetupGenesisBlockWithOverride order genesis ag ttd w
  = match Commit order g w with
    | Done (inl err) w' => Done (Genesis.Config g, 0%N, Some err) w'
    | Done (inr block) w' => Done (Genesis.Config g, Block_Hash block, None) w'
    | Panic msg => Panic msg
    end.
Proof.
  intros Hst Hg. unfold SetupGenesisBlockWithOverride.
  assert (Hnc : match genesis with
                | Some g0 => bool_decide (Genesis.Config g0 = None)
                | None => false
                end = false).
  { destruct Hg as [[-> Hc] | (-> & _)]; [|done]. by apply bool_decide_eq_false_2. }
  rewrite Hnc. cbv iota.
  rewrite bind_rawdb_read, Hst. rewrite decide_True by done.
  assert (Heff : match genesis with
                 | Some g0 => ret g0
                 | None => DefaultGenesisBlock
                 end w = Done g w).
  { by destruct Hg as [[-> _] | (-> & Hd)]. }
  rewrite (bind_Done _ _ _ _ _ Heff).
  unfold bind at 1. destruct (Commit order g w) as [[e|b] w'|]; done.
Qed.

(** X4.  On a store without a genesis block the run is a [Commit]
    of the specification and the override parameters have no effect: a
    [Commit] error is returned with the zero hash; otherwise the run
    returns the specification's configuration and the hash of the new
    block, which is then the canonical block at height zero, stored with
    the configuration as the specification has it, and the configuration
    objects are unchanged. *)
Theorem Setup_initializes_empty_store order g ag ttd w c cfg blob :
  rawdb.ReadCanonicalHash 0 (store w) = 0%N ->
  Genesis.Config g = Some c -> configs w !! c = Some cfg ->
  (forall err w', Commit order g w = Done (inl err) w' ->
     SetupGenesisBlockWithOverride order (Some g) ag ttd w
     = Done (Some c, 0%N, Some err) w') /\
  (Genesis.Number g = 0%N ->
   CheckConfigForkOrder cfg = None ->
   signers_ok cfg g ->
   json_Marshal (Genesis.Alloc g) = inr blob ->
   exists w',
     SetupGenesisBlockWithOverride order (Some g) ag ttd w
     = Done (Some c, genesis_hash (configs w) g, None) w' /\
     configs w' = configs w /\
     rawdb.ReadCanonicalHash 0 (store w') = genesis_hash (configs w) g /\
     rawdb.ReadChainConfig (genesis_hash (configs w) g) (store w') = Some cfg).
Proof.
  intros Hst Hc Hcfg.
  assert (Heq := Setup_empty_eq order (Some g) g ag ttd w Hst).
  rewrite Hc in Heq. split.
  - intros err w' Hrun. rewrite Heq, Hrun; [done|]. by left.
  - intros Hn Hfo Hs Hm.
    assert (Hv : config_valid (configs w) (Genesis.Config g)).
    { intros l Hl. rewrite Hc in Hl. injection Hl as <-. eauto. }
    assert (Hl : commit_config g = Some c) by (unfold commit_config; by rewrite Hc).
    pose proof (Commit_ok order g w c cfg blob Hv Hn Hl Hcfg Hfo Hs Hm) as Hrun.
    eexists. rewrite Heq, Hrun by (by left).
    split; [done|]. split; [done|]. cbn [store].
    pose proof (committed_store_reads (genesis_block (configs w) g) cfg blob
                  (flushed g (store w))) as H.
    cbv zeta in H. rewrite (genesis_block_NumberU64 _ _ Hn) in H.
    destruct H as (H1 & _ & _ & _ & _ & _ & H7 & _). done.
Qed.

(** X7.  On a store whose genesis is present, readable and
    matches the supplied specification, a candidate configuration that
    fails the fork-order check with the overrides applied is returned
    with the zero hash and that error; nothing is written to the store,
    but the overrides have been assigned to the candidate object itself
    (the configuration of the supplied specification, or the global
    default of the network). *)
Theorem Setup_fork_order_fails order genesis ag ttd w stored header p0 c0 e :
  rawdb.ReadCanonicalHash 0 (store w) = stored ->
  stored ≠ 0%N ->
  rawdb.ReadHeader stored 0 (store w) = Some header ->
  state_New (types.Header.Root header) (store w) = true ->
  (forall g, genesis = Some g ->
     Genesis.Config g ≠ None /\ genesis_hash (configs w) g = stored) ->
  configOrDefault genesis stored = Some p0 ->
  configs w !! p0 = Some c0 ->
  CheckConfigForkOrder (overridden ag ttd c0) = Some e ->
  SetupGenesisBlockWithOverride order genesis ag ttd w
  = Done (Some p0, 0%N, Some e)
         (mkWorld (store w) (<[p0 := overridden ag ttd c0]> (configs w))).
Proof.
  intros Hst Hnz Hh Hr Hgen Hp0 Hc0 Hfo.
  unfold SetupGenesisBlockWithOverride.
  assert (Hnc : match genesis with
                | Some g0 => bool_decide (Genesis.Config g0 = None)
                | None => false
                end = false).
  { destruct genesis as [g|]; [|done].
    apply bool_decide_eq_false_2. by apply (Hgen g). }
  rewrite Hnc. cbv iota.
  rewrite bind_rawdb_read, Hst. rewrite decide_False by done.
  rewrite bind_rawdb_read, Hh. cbv iota beta.
  rewrite bind_rawdb_read, Hr. cbn [negb]. cbv iota.
  match goal with
  | |- bind ?m _ w = _ => assert (Hm : m w = Done None w)
  end.
  { destruct genesis as [g|]; [|done].
    destruct (Hgen g eq_refl) as [Hc Hhash].
    assert (Hv : config_valid (configs w) (Genesis.Config g)).
    { intros l' Hl'. simpl in Hp0. rewrite Hl' in Hp0. injection Hp0 as ->. eauto. }
    rewrite (bind_Done _ _ _ _ _ (ToBlock_valid order g db_nil w Hv)).
    fold (genesis_hash (configs w) g).
    by rewrite decide_False by (intros Hne; by apply Hne). }
  rewrite (bind_Done _ _ _ _ _ Hm). cbv iota zeta. rewrite Hp0.
  rewrite (bind_Done _ _ _ _ _ (apply_overrides_run ag ttd p0 c0 w Hc0)).
  rewrite (bind_load p0 (overridden ag ttd c0)) by apply lookup_insert_eq.
  by rewrite Hfo.
Qed.

(** X8.  On a store whose genesis is present, readable and
    matches, but which holds no chain configuration for it, the candidate
    with the overrides applied is written as the chain configuration and
    returned with the stored hash and no error; no compatibility check
    is made and the head height is not read. *)
Theorem Setup_no_stored_config order genesis ag ttd w stored header p0 c0 :
  rawdb.ReadCanonicalHash 0 (store w) = stored ->
  stored ≠ 0%N ->
  rawdb.ReadHeader stored 0 (store w) = Some header ->
  state_New (types.Header.Root header) (store w) = true ->
  (forall g, genesis = Some g ->
     Genesis.Config g ≠ None /\ genesis_hash (configs w) g = stored) ->
  configOrDefault genesis stored = Some p0 ->
  configs w !! p0 = Some c0 ->
  CheckConfigForkOrder (overridden ag ttd c0) = None ->
  rawdb.ReadChainConfig stored (store w) = None ->
  SetupGenesisBlockWithOverride order genesis ag ttd w
  = Done (Some p0, stored, None)
         (mkWorld (rawdb.WriteChainConfig stored (overridden ag ttd c0) (store w))
                  (<[p0 := overridden ag ttd c0]> (configs w))).
Proof.
  intros Hst Hnz Hh Hr Hgen Hp0 Hc0 Hfo Hsc.
  unfold SetupGenesisBlockWithOverride.
  assert (Hnc : match genesis with
                | Some g0 => bool_decide (Genesis.Config g0 = None)
                | None => false
                end = false).
  { destruct genesis as [g|]; [|done].
    apply bool_decide_eq_false_2. by apply (Hgen g). }
  rewrite Hnc. cbv iota.
  rewrite bind_rawdb_read, Hst. rewrite decide_False by done.
  rewrite bind_rawdb_read, Hh. cbv iota beta.
  rewrite bind_rawdb_read, Hr. cbn [negb]. cbv iota.
  match goal with
  | |- bind ?m _ w = _ => assert (Hm : m w = Done None w)
  end.
  { destruct genesis as [g|]; [|done].
    destruct (Hgen g eq_refl) as [Hc Hhash].
    assert (Hv : config_valid (configs w) (Genesis.Config g)).
    { intros l' Hl'. simpl in Hp0. rewrite Hl' in Hp0. injection Hp0 as ->. eauto. }
    rewrite (bind_Done _ _ _ _ _ (ToBlock_valid order g db_nil w Hv)).
    fold (genesis_hash (configs w) g).
    by rewrite decide_False by (intros Hne; by apply Hne). }
  rewrite (bind_Done _ _ _ _ _ Hm). cbv iota zeta. rewrite Hp0.
  rewrite (bind_Done _ _ _ _ _ (apply_overrides_run ag ttd p0 c0 w Hc0)).
  rewrite (bind_load p0 (overridden ag ttd c0)) by apply lookup_insert_eq.
  rewrite Hfo.
  set (w1 := mkWorld (store w) (<[p0 := overridden ag ttd c0]> (configs w))).
  rewrite (bind_Done _ _ _ _ _ (ReadChainConfig_none stored w1 Hsc)).
  cbv iota.
  rewrite (bind_load p0 (overridden ag ttd c0)) by apply lookup_insert_eq.
  by rewrite bind_rawdb_write.
Qed.
End setup_more.

Section setup_outcomes.
Import genesis genesis_spec genesis_tools.
Context {ext : Externals}.
Implicit Types (order : MapOrder) (g : Genesis.t) (w : World).

Lemma overridden_None (c : ChainConfig) : overridden None None c = c.
Proof. done. Qed.

Lemma WriteChainConfig_id hash (cfg : ChainConfig) (db : DB) :
  rawdb.ReadChainConfig hash db = Some cfg -> rawdb.WriteChainConfig hash cfg db = db.
Proof.
  unfold rawdb.ReadChainConfig, rawdb.WriteChainConfig. intros H.
  rewrite insert_id by done. by destruct db.
Qed.

(** The state [flush] wrote can be opened at its root. *)
Lemma state_New_flushed g (db db' : DB) :
  rawdb.states db' = rawdb.states (flushed g db) ->
  state_New (state_root (account_of <$> Genesis.Alloc g)) db' = true.
Proof.
  intros Hs. unfold state_New. rewrite Hs. unfold flushed, rawdb.commit_state.
  destruct (map_to_list (account_of <$> Genesis.Alloc g)) as [|x l] eqn:Hl.
  - apply map_to_list_empty_iff in Hl. rewrite Hl.
    rewrite (bool_decide_eq_true_2 (state_root ∅ = state_root ∅)) by done.
    by rewrite orb_true_r.
  - cbn [rawdb.states]. rewrite lookup_insert_eq.
    rewrite (bool_decide_eq_true_2 (is_Some _)) by eauto.
    by rewrite orb_true_r.
Qed.

Lemma genesis_block_Root cfgs g :
  types.Header.Root (types.header (genesis_block cfgs g))
  = state_root (account_of <$> Genesis.Alloc g).
Proof.
  unfold genesis_block, NewBlock, genesis_header. simpl. by repeat case_match.
Qed.

(** X5.  [SetupGenesisBlock] with a specification on a store
    without genesis, run a second time with the same specification on
    the store the first run left: both runs return the specification's
    configuration and the same hash with no error, and the second run
    leaves the store as the first one left it. *)
Theorem SetupGenesisBlock_idempotent order g w c cfg blob :
  rawdb.ReadCanonicalHash 0 (store w) = 0%N ->
  Genesis.Config g = Some c -> configs w !! c = Some cfg ->
  Genesis.Number g = 0%N ->
  CheckConfigForkOrder cfg = None ->
  signers_ok cfg g ->
  json_Marshal (Genesis.Alloc g) = inr blob ->
  genesis_hash (configs w) g ≠ 0%N ->
  exists w1 w2,
    SetupGenesisBlock order (Some g) w
    = Done (Some c, genesis_hash (configs w) g, None) w1 /\
    SetupGenesisBlock order (Some g) w1
    = Done (Some c, genesis_hash (configs w) g, None) w2 /\
    store w2 = store w1 /\
    configs w2 !! c = Some cfg.
Proof.
  intros Hst Hc Hcfg Hn Hfo Hs Hm Hnz.
  set (hash := genesis_hash (configs w) g) in *.
  set (block := genesis_block (configs w) g).
  set (w1 := mkWorld (committed_store block cfg blob (flushed g (store w))) (configs w)).
  assert (Hv : config_valid (configs w) (Genesis.Config g)).
  { intros l Hl. rewrite Hc in Hl. injection Hl as <-. eauto. }
  assert (Hl : commit_config g = Some c) by (unfold commit_config; by rewrite Hc).
  assert (Hrun1 : SetupGenesisBlock order (Some g) w = Done (Some c, hash, None) w1).
  { unfold SetupGenesisBlock.
    rewrite (Setup_empty_eq order (Some g) g None None w Hst)
      by (left; split; [done | by rewrite Hc]).
    rewrite (Commit_ok order g w c cfg blob Hv Hn Hl Hcfg Hfo Hs Hm).
    by rewrite Hc. }
  pose proof (committed_store_reads block cfg blob (flushed g (store w))) as Hreads.
  cbv zeta in Hreads. subst block.
  rewrite (genesis_block_NumberU64 _ _ Hn) in Hreads.
  fold (genesis_hash (configs w) g) in Hreads. fold hash in Hreads.
  destruct Hreads as (R1 & R2 & R3 & R4 & _ & _ & R7 & _ & _ & _ & R11).
  destruct (Setup_healthy order (Some g) None None w1 hash
              (types.header (genesis_block (configs w) g)) c cfg cfg)
    as (p & cfgs & Hcand & Hp & Hrun2); try done.
  { rewrite genesis_block_Root. by apply (state_New_flushed g (store w)). }
  { intros g' [= <-]. split; [by rewrite Hc | done]. }
  exists w1, (mkWorld (store w1) cfgs).
  split; [done|].
  rewrite decide_False in Hp by (by intros [? _]). subst p.
  unfold candidate, stored_operand in Hcand, Hrun2.
  rewrite decide_False in Hcand, Hrun2 by (by intros [? _]).
  rewrite overridden_None in Hcand, Hrun2.
  unfold SetupGenesisBlock. rewrite Hrun2.
  unfold compat_outcome. subst w1. cbn [store] in *. rewrite R4, R3.
  split; [|done].
  destruct (CheckCompatible _ _ _) as [e|].
  - destruct (decide _) as [[? _]|]; [done|].
    f_equal. f_equal. by apply WriteChainConfig_id.
  - f_equal. f_equal. by apply WriteChainConfig_id.
Qed.

(** X9.  On a store whose genesis is present, readable and
    matches, when the compatibility check of the stored configuration
    against the candidate at the head height reports nothing, the
    candidate is written as the chain configuration and returned with the
    stored hash and no error. *)
Theorem Setup_compatible_persists order genesis ag ttd w stored header p0 c0 sc height :
  rawdb.ReadCanonicalHash 0 (store w) = stored ->
  stored ≠ 0%N ->
  rawdb.ReadHeader stored 0 (store w) = Some header ->
  state_New (types.Header.Root header) (store w) = true ->
  (forall g, genesis = Some g ->
     Genesis.Config g ≠ None /\ genesis_hash (configs w) g = stored) ->
  configOrDefault genesis stored = Some p0 ->
  configs w !! p0 = Some c0 ->
  CheckConfigForkOrder (overridden ag ttd c0) = None ->
  rawdb.ReadChainConfig stored (store w) = Some sc ->
  rawdb.ReadHeaderNumber (rawdb.ReadHeadHeaderHash (store w)) (store w) = Some height ->
  CheckCompatible (stored_operand genesis stored ag ttd sc)
                  (candidate genesis stored ag ttd c0 sc) height = None ->
  exists p w',
    SetupGenesisBlockWithOverride order genesis ag ttd w
    = Done (Some p, stored, None) w' /\
    store w' = rawdb.WriteChainConfig stored (candidate genesis stored ag ttd c0 sc)
                                      (store w) /\
    configs w' !! p = Some (candidate genesis stored ag ttd c0 sc).
Proof.
  intros Hst Hnz Hh Hr Hgen Hp0 Hc0 Hfo Hsc Hheight Hcompat.
  destruct (Setup_healthy order genesis ag ttd w stored header p0 c0 sc)
    as (p & cfgs & Hcand & _ & Hrun); try done.
  unfold compat_outcome in Hrun. rewrite Hheight, Hcompat in Hrun.
  by eexists p, _.
Qed.

(** X10.  On a store whose genesis is present, readable and matches,
    when the number of the head header cannot be read, the run returns
    the candidate, the stored hash and the error "missing block number
    for head header hash", and writes nothing to the store. *)
Theorem Setup_missing_head_number order genesis ag ttd w stored header p0 c0 sc :
  rawdb.ReadCanonicalHash 0 (store w) = stored ->
  stored ≠ 0%N ->
  rawdb.ReadHeader stored 0 (store w) = Some header ->
  state_New (types.Header.Root header) (store w) = true ->
  (forall g, genesis = Some g ->
     Genesis.Config g ≠ None /\ genesis_hash (configs w) g = stored) ->
  configOrDefault genesis stored = Some p0 ->
  configs w !! p0 = Some c0 ->
  CheckConfigForkOrder (overridden ag ttd c0) = None ->
  rawdb.ReadChainConfig stored (store w) = Some sc ->
  rawdb.ReadHeaderNumber (rawdb.ReadHeadHeaderHash (store w)) (store w) = None ->
  exists p w',
    SetupGenesisBlockWithOverride order genesis ag ttd w
    = Done (Some p, stored,
            Some (errors_New "missing block number for head header hash")) w' /\
    store w' = store w /\
    configs w' !! p = Some (candidate genesis stored ag ttd c0 sc).
Proof.
  intros Hst Hnz Hh Hr Hgen Hp0 Hc0 Hfo Hsc Hheight.
  destruct (Setup_healthy order genesis ag ttd w stored header p0 c0 sc)
    as (p & cfgs & Hcand & _ & Hrun); try done.
  unfold compat_outcome in Hrun. rewrite Hheight in Hrun.
  by eexists p, _.
Qed.

Lemma DefaultGenesisBlock_inv w g w' :
  DefaultGenesisBlock w = Done g w' ->
  w' = w /\ Genesis.Config g = Some MainnetChainConfig.
Proof.
  unfold DefaultGenesisBlock, GenerateGenesisExtraDataForIBFTValSet.
  destruct (rlp_EncodeToBytes _) as [e|bs]; [done|].
  by intros [= <- <-].
Qed.

(** X11.  "The returned chain configuration is never nil":
    whatever the store, the specification and the overrides, a run that
    returns at all returns a configuration pointer that is not nil, also
    beside an error. *)
Theorem Setup_config_never_nil order genesis ag ttd w p hash err w' :
  SetupGenesisBlockWithOverride order genesis ag ttd w = Done (p, hash, err) w' ->
  is_Some p.
Proof.
  intros H. unfold SetupGenesisBlockWithOverride in H.
  assert (Hgen : forall g w0 w1,
            match genesis with
            | Some g0 => ret g0
            | None => DefaultGenesisBlock
            end w0 = Done g w1 ->
            match genesis with
            | Some g0 => bool_decide (Genesis.Config g0 = None)
            | None => false
            end = false ->
            is_Some (Genesis.Config g)).
  { intros g w0 w1 Hg Hb. destruct genesis as [g0|].
    - injection Hg as <- _. apply bool_decide_eq_false in Hb.
      by destruct (Genesis.Config g0).
    - apply DefaultGenesisBlock_inv in Hg as [_ ->]. eauto. }
  destruct (match genesis with
            | Some g0 => bool_decide (Genesis.Config g0 = None)
            | None => false
            end) eqn:Hb.
  { injection H as <- _ _ _. eauto. }
  rewrite bind_rawdb_read in H.
  destruct (decide (rawdb.ReadCanonicalHash 0 (store w) = 0%N)) as [Hz|Hnz].
  { apply bind_inv in H as (g & w1 & Hg & H).
    apply bind_inv in H as (r & w2 & _ & H).
    destruct r; injection H as <- _ _ _; by apply (Hgen g w w1). }
  rewrite bind_rawdb_read in H.
  destruct (rawdb.ReadHeader _ 0 (store w)) as [header|]; [|done].
  rewrite bind_rawdb_read in H.
  destruct (state_New _ _); cbn [negb] in H; cbv iota in H.
  2:{ apply bind_inv in H as (g & w1 & Hg & H).
      apply bind_inv in H as (b & w2 & _ & H).
      destruct (decide _).
      - injection H as <- _ _ _. by apply (Hgen g w w1).
      - apply bind_inv in H as (r & w3 & _ & H).
        destruct r; injection H as <- _ _ _; by apply (Hgen g w w1). }
  apply bind_inv in H as (mm & w1 & Hmm & H).
  destruct mm as [res|].
  { destruct genesis as [g|]; [|done].
    apply bind_inv in Hmm as (b & w2 & _ & Hmm).
    destruct (decide _); [|done].
    injection Hmm as <- _. injection H as <- _ _ _.
    apply (Hgen g w w); done. }
  cbv zeta in H.
  assert (Hnew : is_Some (configOrDefault genesis (rawdb.ReadCanonicalHash 0 (store w)))).
  { destruct genesis as [g|]; simpl.
    - apply (Hgen g w w); done.
    - by repeat case_match. }
  destruct (configOrDefault genesis _) as [p0|] eqn:Hp0; [|by destruct Hnew].
  apply bind_inv in H as ([] & w2 & _ & H).
  apply bind_inv in H as (cfg & w3 & _ & H).
  destruct (CheckConfigForkOrder cfg); [injection H as <- _ _ _; eauto|].
  apply bind_inv in H as (storedcfg & w4 & Hsc & H).
  destruct storedcfg as [l|].
  2:{ apply bind_inv in H as (cfg' & w5 & _ & H).
      rewrite bind_rawdb_write in H. injection H as <- _ _ _. eauto. }
  apply bind_inv in H as (newcfg & w5 & Hnewcfg & H).
  assert (Hsome : is_Some newcfg).
  { destruct (decide _).
    - apply bind_inv in Hnewcfg as (? & ? & _ & Hnewcfg).
      injection Hnewcfg as <- _. eauto.
    - injection Hnewcfg as <- _. eauto. }
  rewrite !bind_rawdb_read in H.
  destruct (rawdb.ReadHeaderNumber _ _) as [height|];
    [|injection H as <- _ _ _; done].
  apply bind_inv in H as (scfg & w6 & _ & H).
  apply bind_inv in H as (ncfg & w7 & _ & H).
  destruct (CheckCompatible scfg ncfg height) as [e|].
  - destruct (decide (height ≠ 0%N /\ RewindTo e ≠ 0%N));
      [injection H as <- _ _ _; done|].
    rewrite bind_rawdb_write in H. injection H as <- _ _ _. done.
  - rewrite bind_rawdb_write in H. injection H as <- _ _ _. done.
Qed.
End setup_outcomes.

(** * core/genesis.go: [flush], [CommitGenesisState] and the test and developer blocks *)

Section tools_facts.
Import genesis genesis_spec genesis_tools.
Context {ext : Externals}.
Implicit Types (order : MapOrder) (g : Genesis.t) (w : World) (ga : GenesisAlloc).

(** X13.  [flush] builds, whatever the visiting order, the state
    that holds for each address of the allocation an account with the
    entry's balance, nonce, code and storage, and no other account; it
    returns the root of that state and a nil error, makes the state
    resolvable by its root when the allocation is not empty, and writes
    no other record. *)
Theorem flush_builds_allocation_state order ga (db : DB) :
  exists (s : state.StateDB) (db' : DB),
    flush order ga db = (state_root s, None, db') /\
    (forall addr,
       s !! addr
       = (fun a => state.mkAccount (GenesisAccount.Balance a) (GenesisAccount.Nonce a)
                     (GenesisAccount.Code a) (GenesisAccount.Storage a))
         <$> ga !! addr) /\
    (ga ≠ ∅ -> rawdb.states db' !! state_root s = Some s) /\
    (ga = ∅ -> db' = db) /\
    (forall root, root ≠ state_root s ->
       rawdb.states db' !! root = rawdb.states db !! root) /\
    same_chain_records db db'.
Proof.
  exists (account_of <$> ga), (flushed (Genesis.mk None 0 0 [] 0 None 0 0 ga 0 0 0 None) db).
  split; [by rewrite flush_eq|].
  split; [intros addr; by rewrite lookup_fmap|].
  unfold flushed. cbn [Genesis.Alloc].
  split; [|split; [|split]].
  - intros Hne. unfold rawdb.commit_state.
    destruct (map_to_list (account_of <$> ga)) as [|x l] eqn:Hl.
    + apply map_to_list_empty_iff, fmap_empty_inv in Hl. done.
    + cbn [rawdb.states]. apply lookup_insert_eq.
  - intros ->. unfold rawdb.commit_state. by rewrite fmap_empty, map_to_list_empty.
  - intros root Hroot. unfold rawdb.commit_state.
    destruct (map_to_list (account_of <$> ga)); [done|].
    cbn [rawdb.states]. by rewrite lookup_insert_ne.
  - apply (flushed_same_chain_records (Genesis.mk None 0 0 [] 0 None 0 0 ga 0 0 0 None)).
Qed.

Section unmarshal.
Context (json_Unmarshal : list byte -> error + GenesisAlloc).

Lemma insert_foldl (l : list (Address * GenesisAccount.t)) (s : GenesisAlloc) :
  foldl (fun (ga : GenesisAlloc) '(addr, a) => <[addr := a]> ga) s l
  = list_to_map (reverse l) ∪ s.
Proof.
  revert s. induction l as [|[a x] l IH]; intros s; cbn [foldl].
  - rewrite reverse_nil. simpl. by rewrite (left_id_L ∅ (∪)).
  - rewrite IH, reverse_cons, list_to_map_app. simpl.
    rewrite <- (assoc_L (∪)). f_equal.
    by rewrite insert_empty, insert_union_singleton_l.
Qed.

(** The copy loop of [UnmarshalJSON] keeps every entry. *)
Lemma UnmarshalJSON_eq order data :
  UnmarshalJSON order json_Unmarshal data = json_Unmarshal data.
Proof.
  unfold UnmarshalJSON. destruct (json_Unmarshal data) as [e|m]; [done|].
  f_equal. rewrite insert_foldl, (right_id_L ∅ (∪)).
  rewrite <- (list_to_map_to_list m) at 2.
  apply list_to_map_proper.
  - rewrite fmap_reverse, reverse_Permutation, (range_alloc_perm order m).
    apply NoDup_fst_map_to_list.
  - rewrite reverse_Permutation. apply range_alloc_perm.
Qed.

Lemma CommitGenesisState_blob order hash w blob :
  ReadGenesisState hash (store w) = blob ->
  blob ≠ [] ->
  CommitGenesisState order json_Unmarshal hash w
  = match json_Unmarshal blob with
    | inl err => Done (Some err) w
    | inr ga =>
        Done None
          (mkWorld (rawdb.commit_state (state_root (account_of <$> ga))
                      (account_of <$> ga) (store w))
                   (configs w))
    end.
Proof.
  intros Hb Hne. unfold CommitGenesisState.
  rewrite bind_rawdb_read, Hb.
  rewrite decide_True by (by destruct blob).
  rewrite bind_ret, UnmarshalJSON_eq.
  destruct (json_Unmarshal blob) as [e|ga]; [done|].
  unfold bind at 1. unfold get. by rewrite flush_eq.
Qed.

(** X14.  [CommitGenesisState] for a hash under which no
    allocation is stored, or an empty one: for a hash that is none of
    the three network hashes it returns the error "not found" and writes
    nothing; for the main-net hash it flushes the allocation of the
    default main-net genesis and returns no error. *)
Theorem CommitGenesisState_without_blob order hash w :
  ReadGenesisState hash (store w) = [] ->
  (hash ≠ MainnetGenesisHash -> hash ≠ StagenetGenesisHash ->
   hash ≠ TestnetGenesisHash ->
   CommitGenesisState order json_Unmarshal hash w
   = Done (Some (errors_New "not found")) w) /\
  (forall g, hash = MainnetGenesisHash ->
     DefaultGenesisBlock w = Done g w ->
     CommitGenesisState order json_Unmarshal hash w
     = Done None (mkWorld (flushed g (store w)) (configs w))).
Proof.
  intros Hb. unfold CommitGenesisState. rewrite bind_rawdb_read, Hb.
  rewrite decide_False by (simpl; lia). split.
  - intros H1 H2 H3. by rewrite !decide_False by done.
  - intros g Hm Hd. rewrite decide_True by done.
    assert (H1 : (g0 <- DefaultGenesisBlock;; ret (Some g0)) w = Done (Some g) w)
      by (by rewrite (bind_Done _ _ _ _ _ Hd)).
    assert (H2 : (genesis <- (g0 <- DefaultGenesisBlock;; ret (Some g0));;
                  match genesis with
                  | Some g0 => ret (inr (Genesis.Alloc g0))
                  | None => ret (inl (errors_New "not found"))
                  end) w = Done (inr (Genesis.Alloc g)) w)
      by (by rewrite (bind_Done _ _ _ _ _ H1)).
    rewrite (bind_Done _ _ _ _ _ H2).
    unfold bind at 1. unfold get. by rewrite flush_eq.
Qed.

(** X15.  The allocation blob [write] stores under a hash is what
    [CommitGenesisState] recovers the state from: with a codec that
    reads back what it wrote, [write] followed by [CommitGenesisState]
    for the same hash returns no error and leaves the store with the
    blob written and the state of the allocation flushed, resolvable by
    its root. *)
Theorem CommitGenesisState_after_write order ga hash blob w :
  json_Marshal ga = inr blob ->
  blob ≠ [] ->
  json_Unmarshal blob = inr ga ->
  exists w',
    (write ga hash;; CommitGenesisState order json_Unmarshal hash) w = Done None w' /\
    configs w' = configs w /\
    store w' = flushed (Genesis.mk None 0 0 [] 0 None 0 0 ga 0 0 0 None)
                 (rawdb.WriteGenesisState hash blob (store w)) /\
    ReadGenesisState hash (store w') = blob /\
    (ga ≠ ∅ ->
       rawdb.states (store w') !! state_root (account_of <$> ga)
       = Some (account_of <$> ga)).
Proof.
  intros Hm Hne Hu.
  set (w1 := mkWorld (rawdb.WriteGenesisState hash blob (store w)) (configs w)).
  assert (Hw : write ga hash w = Done None w1).
  { unfold write. by rewrite Hm. }
  assert (Hr : ReadGenesisState hash (store w1) = blob).
  { unfold ReadGenesisState. simpl. by rewrite lookup_insert_eq. }
  eexists. rewrite (bind_Done _ _ _ _ _ Hw).
  rewrite (CommitGenesisState_blob order hash w1 blob Hr Hne), Hu.
  split; [done|]. split; [done|]. split; [done|]. cbn [store]. split.
  - unfold ReadGenesisState, rawdb.commit_state.
    destruct (map_to_list _); simpl; by rewrite lookup_insert_eq.
  - intros Hga. unfold rawdb.commit_state.
    destruct (map_to_list (account_of <$> ga)) as [|x l] eqn:Hl.
    + apply map_to_list_empty_iff, fmap_empty_inv in Hl. done.
    + cbn [rawdb.states]. apply lookup_insert_eq.
Qed.
End unmarshal.

(** X17.  [GenesisBlockForTesting] commits a block at height zero
    whose state holds the one account [addr] with the balance given, with
    the default gas limit and difficulty and the initial base fee, stored
    as the canonical head with the configuration
    [AllEthashProtocolChanges]; it panics when that configuration has a
    Clique section, the block having no extra-data for signers. *)
Theorem GenesisBlockForTesting_funds order addr balance w cfg :
  configs w !! AllEthashProtocolChanges = Some cfg ->
  CheckConfigForkOrder cfg = None ->
  (params.Clique cfg ≠ None ->
   GenesisBlockForTesting order addr balance w
   = Panic "can't start clique chain without signers") /\
  (forall blob,
   params.Clique cfg = None ->
   json_Marshal ({[ addr := GenesisAccount.mk [] ∅ balance 0 [] ]} : GenesisAlloc)
   = inr blob ->
   exists block w',
     GenesisBlockForTesting order addr balance w = Done block w' /\
     let head := types.header block in
     types.Header.Number head = 0%Z /\
     types.Header.Root head
     = state_root ({[ addr := state.mkAccount balance 0 [] ∅ ]} : state.StateDB) /\
     types.Header.GasLimit head = GenesisGasLimit /\
     types.Header.Difficulty head = Some GenesisDifficulty /\
     types.Header.BaseFee head = Some (Z.of_N InitialBaseFee) /\
     rawdb.states (store w') !! types.Header.Root head
     = Some ({[ addr := state.mkAccount balance 0 [] ∅ ]} : state.StateDB) /\
     rawdb.ReadCanonicalHash 0 (store w') = Block_Hash block /\
     rawdb.ReadHeadHeaderHash (store w') = Block_Hash block /\
     rawdb.ReadChainConfig (Block_Hash block) (store w') = Some cfg /\
     configs w' = configs w).
Proof.
  intros Hcfg Hfo.
  set (g := Genesis.mk None 0 0 [] 0 None 0 0
              ({[ addr := GenesisAccount.mk [] ∅ balance 0 [] ]} : GenesisAlloc)
              0 0 0 (Some (Z.of_N InitialBaseFee))).
  assert (Hv : config_valid (configs w) (Genesis.Config g)) by (intros l; done).
  assert (Hacc : account_of <$> Genesis.Alloc g
                 = ({[ addr := state.mkAccount balance 0 [] ∅ ]} : state.StateDB)).
  { simpl. by rewrite map_fmap_singleton. }
  unfold GenesisBlockForTesting, MustCommit. fold g. split.
  - intros Hc.
    rewrite (bind_Done _ _ _ _ _
               (Commit_missing_signers order g w AllEthashProtocolChanges cfg
                  Hv eq_refl eq_refl Hcfg Hfo Hc ltac:(simpl; lia))).
    done.
  - intros blob Hc Hm.
    rewrite (bind_Done _ _ _ _ _
               (Commit_ok order g w AllEthashProtocolChanges cfg blob
                  Hv eq_refl eq_refl Hcfg Hfo (or_introl Hc) Hm)).
    eexists _, _. split; [done|]. cbn [store configs].
    pose proof (committed_store_reads (genesis_block (configs w) g) cfg blob
                  (flushed g (store w))) as H.
    cbv zeta in H. rewrite (genesis_block_NumberU64 _ g eq_refl) in H.
    destruct H as (R1 & _ & _ & R4 & _ & _ & R7 & _ & _ & _ & R11).
    rewrite genesis_block_Root, Hacc.
    repeat split; try done.
    rewrite R11. unfold flushed. rewrite Hacc. unfold rawdb.commit_state.
    rewrite map_to_list_singleton. cbn [rawdb.states]. apply lookup_insert_eq.
Qed.

Section developer.
Context (AllCliqueProtocolChanges : loc).

Lemma Address_bytes_length a : length (Address_bytes a) = 20.
Proof. unfold Address_bytes. by rewrite length_fmap, length_seq. Qed.

(** X18.  [DeveloperGenesisBlock] copies the global Clique
    configuration into a new object, with the period given and the epoch
    of the global one, and leaves the global object and the store
    untouched; it panics when the global configuration has no Clique
    section.  The specification it returns is at height zero, has 32
    zero bytes, the faucet address and [SignatureLength] zero bytes as
    extra-data, funds the faucet with [2^256 - 9] and each of the
    addresses 1 to 9 that is not the faucet with 1, and passes the
    signer check of [Commit]: such a [Commit] can only fail in the
    fork-order check or in writing the allocation blob. *)
Theorem DeveloperGenesisBlock_commits order period gasLimit faucet w c0 :
  configs w !! AllCliqueProtocolChanges = Some c0 ->
  (params.Clique c0 = None ->
   DeveloperGenesisBlock AllCliqueProtocolChanges period gasLimit faucet w
   = Panic "invalid memory address or nil pointer dereference") /\
  (forall clique, params.Clique c0 = Some clique ->
   let c := params.mkChainConfig (params.ArrowGlacierBlock c0)
              (params.TerminalTotalDifficulty c0)
              (Some (params.mkCliqueConfig period (params.Epoch clique)))
              (params.forks c0) in
   exists g p,
     DeveloperGenesisBlock AllCliqueProtocolChanges period gasLimit faucet w
     = Done g (mkWorld (store w) (<[p := c]> (configs w))) /\
     configs w !! p = None /\
     Genesis.Config g = Some p /\
     Genesis.Number g = 0%N /\
     Genesis.GasLimit g = gasLimit /\
     Genesis.ExtraData g
     = replicate 32 Byte.x00 ++ Address_bytes faucet
       ++ replicate SignatureLength Byte.x00 /\
     length (Genesis.ExtraData g) = 32 + 20 + SignatureLength /\
     Genesis.Alloc g !! faucet
     = Some (GenesisAccount.mk [] ∅ (2 ^ 256 - 9)%Z 0 []) /\
     (forall a, (1 <= a <= 9)%N -> a ≠ faucet ->
        Genesis.Alloc g !! a = Some (GenesisAccount.mk [] ∅ 1%Z 0 [])) /\
     (forall a, is_Some (Genesis.Alloc g !! a) <-> a = faucet \/ (1 <= a <= 9)%N) /\
     (forall blob, CheckConfigForkOrder c = None ->
        json_Marshal (Genesis.Alloc g) = inr blob ->
        exists block w',
          Commit order g (mkWorld (store w) (<[p := c]> (configs w)))
          = Done (inr block) w')).
Proof.
  intros Hc0. unfold DeveloperGenesisBlock. rewrite (bind_load _ c0) by done.
  split; [by intros ->|].
  intros clique Hcl. rewrite Hcl. cbv zeta.
  set (c := params.mkChainConfig _ _ _ _).
  unfold bind at 1. unfold new_config.
  set (p := fresh (dom (configs w))).
  assert (Hp : configs w !! p = None) by (apply not_elem_of_dom, is_fresh).
  eexists _, p. split; [reflexivity|].
  cbn [Genesis.Config Genesis.Number Genesis.GasLimit Genesis.ExtraData Genesis.Alloc].
  split; [done|]. split; [done|]. split; [done|]. split; [done|].
  split; [by rewrite <- app_assoc|].
  split.
  { rewrite !length_app, !length_replicate, Address_bytes_length. lia. }
  split; [apply lookup_insert_eq|].
  split.
  { intros a Ha Hne. rewrite lookup_insert_ne by done.
    assert (Hcases : (a = 1 \/ a = 2 \/ a = 3 \/ a = 4 \/ a = 5 \/ a = 6
                      \/ a = 7 \/ a = 8 \/ a = 9)%N) by lia.
    repeat destruct Hcases as [Hcases|Hcases]; subst a; reflexivity. }
  split.
  { intros a. split.
    - intros Ha. destruct (decide (a = faucet)) as [|Hne]; [by left|right].
      rewrite lookup_insert_ne in Ha by done.
      repeat (rewrite lookup_insert in Ha;
              let H := fresh in destruct (decide (_ = a)) as [H|H];
              [subst a; lia|]).
      rewrite lookup_empty in Ha. by destruct Ha.
    - intros [->|Ha]; [rewrite lookup_insert_eq; eauto|].
      destruct (decide (a = faucet)) as [->|Hne]; [rewrite lookup_insert_eq; eauto|].
      rewrite lookup_insert_ne by done.
      assert (Hcases : (a = 1 \/ a = 2 \/ a = 3 \/ a = 4 \/ a = 5 \/ a = 6
                        \/ a = 7 \/ a = 8 \/ a = 9)%N) by lia.
      repeat destruct Hcases as [Hcases|Hcases]; subst a; by eexists. }
  intros blob Hfo Hm.
  eexists _, _.
  eapply (Commit_ok order _ _ p c blob); try done.
  - intros l [= <-]. cbn [configs]. rewrite lookup_insert_eq. eauto.
  - cbn [configs]. apply lookup_insert_eq.
  - right. cbn [Genesis.ExtraData].
    rewrite !length_app, !length_replicate, Address_bytes_length. lia.
Qed.
End developer.
End tools_facts.

(** * core/genesis.go: recovering a missing state *)

Section recovery.
Import genesis genesis_spec genesis_tools.
Context {ext : Externals}.
Implicit Types (order : MapOrder) (g : Genesis.t) (w : World).

(** X12.  [ToBlock] with a nil database computes the block in a
    scratch store: it writes nothing and changes no configuration, and
    the block is the one [ToBlock] yields with the store, which then has
    the state of the allocation flushed into it and is otherwise
    unchanged. *)
Theorem ToBlock_nil_discards order g w :
  config_valid (configs w) (Genesis.Config g) ->
  exists block,
    ToBlock order g db_nil w = Done block w /\
    ToBlock order g db_store w
    = Done block (mkWorld (flushed g (store w)) (configs w)) /\
    same_chain_records (store w) (flushed g (store w)) /\
    state_New (types.Header.Root (types.header block)) (flushed g (store w)) = true.
Proof.
  intros Hv. exists (genesis_block (configs w) g).
  split; [by rewrite (ToBlock_valid order g db_nil w Hv)|].
  split; [by rewrite (ToBlock_valid order g db_store w Hv)|].
  split; [apply flushed_same_chain_records|].
  rewrite genesis_block_Root. by apply (state_New_flushed g (store w)).
Qed.

(** The run on a store whose genesis state cannot be opened, with a
    matching specification. *)
Lemma Setup_unreadable_eq order g ag ttd w stored header :
  rawdb.ReadCanonicalHash 0 (store w) = stored ->
  stored ≠ 0%N ->
  rawdb.ReadHeader stored 0 (store w) = Some header ->
  state_New (types.Header.Root header) (store w) = false ->
  Genesis.Config g ≠ None ->
  config_valid (configs w) (Genesis.Config g) ->
  genesis_hash (configs w) g = stored ->
  SetupGenesisBlockWithOverride order (Some g) ag ttd w
  = match Commit order g w with
    | Done (inl err) w' => Done (Genesis.Config g, stored, Some err) w'
    | Done (inr block) w' => Done (Genesis.Config g, Block_Hash block, None) w'
    | Panic msg => Panic msg
    end.
Proof.
  intros Hst Hnz Hh Hr Hc Hv Hhash. unfold SetupGenesisBlockWithOverride.
  rewrite bool_decide_eq_false_2 by done. cbv iota.
  rewrite bind_rawdb_read, Hst. rewrite decide_False by done.
  rewrite bind_rawdb_read, Hh. cbv iota beta.
  rewrite bind_rawdb_read, Hr. cbn [negb]. cbv iota.
  rewrite bind_ret.
  rewrite (bind_Done _ _ _ _ _ (ToBlock_valid order g db_nil w Hv)).
  fold (genesis_hash (configs w) g). rewrite Hhash.
  rewrite decide_False by (intros Hne; by apply Hne).
  unfold bind at 1. destruct (Commit order g w) as [[e|b] w'|]; done.
Qed.

(** X6.  On a store that holds the genesis block but whose
    genesis state cannot be opened, a run with a specification whose
    hash matches the stored one commits it again, whatever the
    overrides: an error of [Commit] is returned beside the stored hash;
    otherwise the run returns the specification's configuration and the
    stored hash, and the state of the allocation can be opened
    afterwards. *)
Theorem Setup_recommits_missing_state order g ag ttd w stored header c cfg :
  rawdb.ReadCanonicalHash 0 (store w) = stored ->
  stored ≠ 0%N ->
  rawdb.ReadHeader stored 0 (store w) = Some header ->
  state_New (types.Header.Root header) (store w) = false ->
  Genesis.Config g = Some c -> configs w !! c = Some cfg ->
  genesis_hash (configs w) g = stored ->
  (forall err w', Commit order g w = Done (inl err) w' ->
     SetupGenesisBlockWithOverride order (Some g) ag ttd w
     = Done (Some c, stored, Some err) w') /\
  (forall blob,
     Genesis.Number g = 0%N ->
     CheckConfigForkOrder cfg = None ->
     signers_ok cfg g ->
     json_Marshal (Genesis.Alloc g) = inr blob ->
     exists w',
       SetupGenesisBlockWithOverride order (Some g) ag ttd w
       = Done (Some c, stored, None) w' /\
       configs w' = configs w /\
       rawdb.ReadCanonicalHash 0 (store w') = stored /\
       state_New (state_root (account_of <$> Genesis.Alloc g)) (store w') = true).
Proof.
  intros Hst Hnz Hh Hr Hc Hcfg Hhash.
  assert (Hv : config_valid (configs w) (Genesis.Config g)).
  { intros l Hl. rewrite Hc in Hl. injection Hl as <-. eauto. }
  assert (Heq := Setup_unreadable_eq order g ag ttd w stored header Hst Hnz Hh Hr
                   ltac:(by rewrite Hc) Hv Hhash).
  rewrite Hc in Heq. split.
  - intros err w' Hrun. by rewrite Heq, Hrun.
  - intros blob Hn Hfo Hs Hm.
    assert (Hl : commit_config g = Some c) by (unfold commit_config; by rewrite Hc).
    pose proof (Commit_ok order g w c cfg blob Hv Hn Hl Hcfg Hfo Hs Hm) as Hrun.
    eexists. rewrite Heq, Hrun.
    fold (genesis_hash (configs w) g). rewrite Hhash.
    split; [done|]. split; [done|]. cbn [store].
    pose proof (committed_store_reads (genesis_block (configs w) g) cfg blob
                  (flushed g (store w))) as H.
    cbv zeta in H. rewrite (genesis_block_NumberU64 _ _ Hn) in H.
    fold (genesis_hash (configs w) g) in H. rewrite Hhash in H.
    destruct H as (H1 & _ & _ & _ & _ & _ & _ & _ & _ & _ & H11).
    split; [done|]. by apply (state_New_flushed g (store w)).
Qed.

Section with_codec.
Context (json_Unmarshal : list byte -> error + GenesisAlloc).

Lemma commit_state_again root (s : state.StateDB) (db : DB) :
  map_to_list s = [] \/ rawdb.states db !! root = Some s ->
  rawdb.commit_state root s db = db.
Proof.
  unfold rawdb.commit_state. intros [->|Hs]; [done|].
  destruct (map_to_list s); [done|].
  rewrite insert_id by done. by destruct db.
Qed.

(** X16.  After a successful [Commit], [CommitGenesisState] for the
    hash of the committed block reads back the allocation blob and
    flushes the same state again: with a codec that reads back what it
    wrote, it returns no error and leaves the store exactly as [Commit]
    left it. *)
Theorem CommitGenesisState_after_Commit order g w l cfg blob :
  config_valid (configs w) (Genesis.Config g) ->
  Genesis.Number g = 0%N ->
  commit_config g = Some l -> configs w !! l = Some cfg ->
  CheckConfigForkOrder cfg = None ->
  signers_ok cfg g ->
  json_Marshal (Genesis.Alloc g) = inr blob ->
  blob ≠ [] ->
  json_Unmarshal blob = inr (Genesis.Alloc g) ->
  exists block w',
    Commit order g w = Done (inr block) w' /\
    CommitGenesisState order json_Unmarshal (Block_Hash block) w' = Done None w'.
Proof.
  intros Hv Hn Hl Hcfg Hfo Hs Hm Hne Hu.
  eexists _, _. split; [by apply (Commit_ok order g w l cfg blob)|].
  pose proof (committed_store_reads (genesis_block (configs w) g) cfg blob
                (flushed g (store w))) as H.
  cbv zeta in H. destruct H as (_ & _ & _ & _ & _ & _ & _ & H8 & _ & _ & H11).
  rewrite (CommitGenesisState_blob json_Unmarshal order _ _ blob) by done.
  rewrite Hu. cbn [store configs]. f_equal. f_equal.
  apply commit_state_again. rewrite H11.
  unfold flushed, rawdb.commit_state.
  destruct (map_to_list (account_of <$> Genesis.Alloc g)); [by left|right].
  cbn [rawdb.states]. apply lookup_insert_eq.
Qed.
End with_codec.
End recovery.

(** * The further statements on sample inputs *)

Section tools_examples.
Import genesis genesis_spec genesis_tools.
#[local] Existing Instance sample.externals.

Ltac evaluate :=
  repeat match goal with |- _ /\ _ => split end; vm_compute; exact eq_refl.

(** The sample genesis committed to the empty store. *)
Lemma Commit_makes_canonical_head_witness :
  exists block w',
    Commit sample.order (sample.spec 0 100) sample.fresh_world = Done (inr block) w' /\
    rawdb.ReadCanonicalHash 0 (store w') = Block_Hash block /\
    rawdb.ReadChainConfig (Block_Hash block) (store w')
    = Some (sample.config (Some 4%N) (Some 6%N)).
Proof.
  destruct (Commit_makes_canonical_head sample.order (sample.spec 0 100)
              sample.fresh_world 5%positive (sample.config (Some 4%N) (Some 6%N)) [])
    as (block & w' & Hrun & _ & _ & Hc & _ & _ & _ & _ & _ & Hcfg & _).
  - exact heap_config_valid.
  - reflexivity.
  - reflexivity.
  - reflexivity.
  - reflexivity.
  - by left.
  - reflexivity.
  - by exists block, w'.
Defined.

(** The same through [SetupGenesisBlockWithOverride], with an override
    that is not applied. *)
Lemma Setup_initializes_empty_store_witness :
  exists w',
    SetupGenesisBlockWithOverride sample.order (Some (sample.spec 0 100))
      (Some 9%Z) None sample.fresh_world
    = Done (Some 5%positive, sample.stored_hash, None) w' /\
    configs w' = configs sample.fresh_world /\
    rawdb.ReadChainConfig sample.stored_hash (store w')
    = Some (sample.config (Some 4%N) (Some 6%N)).
Proof.
  destruct (proj2 (Setup_initializes_empty_store sample.order (sample.spec 0 100)
                     (Some 9%Z) None sample.fresh_world 5%positive
                     (sample.config (Some 4%N) (Some 6%N)) []
                     eq_refl eq_refl eq_refl)
                  eq_refl eq_refl (or_introl eq_refl) eq_refl)
    as (w' & Hrun & Hcfgs & _ & Hcfg).
  exists w'. split; [|split].
  - rewrite Hrun. f_equal.
  - exact Hcfgs.
  - exact Hcfg.
Defined.

(** Berlin scheduled after London in the configuration of the supplied
    specification. *)
Lemma Setup_fork_order_fails_witness :
  SetupGenesisBlockWithOverride sample.order (Some (sample.spec 0 100)) None None
    (sample.advanced_world 10 (sample.config (Some 8%N) (Some 6%N)))
  = Done (Some 5%positive, 0%N, Some (errors_New "unsupported fork ordering"))
         (mkWorld (store (sample.advanced_world 10 (sample.config (Some 8%N) (Some 6%N))))
            (<[5%positive := overridden None None (sample.config (Some 8%N) (Some 6%N))]>
               (configs (sample.advanced_world 10
                           (sample.config (Some 8%N) (Some 6%N)))))).
Proof.
  apply (Setup_fork_order_fails sample.order (Some (sample.spec 0 100)) None None
           (sample.advanced_world 10 (sample.config (Some 8%N) (Some 6%N)))
           sample.stored_hash sample.stored_header 5%positive
           (sample.config (Some 8%N) (Some 6%N))).
  - evaluate.
  - discriminate.
  - evaluate.
  - evaluate.
  - intros g [= <-]. split; [discriminate | evaluate].
  - reflexivity.
  - evaluate.
  - evaluate.
Defined.

(** The committed store without its chain configuration. *)
Lemma Setup_no_stored_config_witness :
  exists w',
    SetupGenesisBlockWithOverride sample.order (Some (sample.spec 0 100)) None None
      sample_tools.world_without_config
    = Done (Some 5%positive, sample.stored_hash, None) w' /\
    rawdb.ReadChainConfig sample.stored_hash (store sample_tools.world_without_config)
    = None /\
    rawdb.ReadChainConfig sample.stored_hash (store w')
    = Some (sample.config (Some 4%N) (Some 6%N)).
Proof.
  eexists. split; [|split].
  - apply (Setup_no_stored_config sample.order (Some (sample.spec 0 100)) None None
             sample_tools.world_without_config
             sample.stored_hash sample.stored_header 5%positive
             (sample.config (Some 4%N) (Some 6%N))).
    + evaluate.
    + discriminate.
    + evaluate.
    + evaluate.
    + intros g [= <-]. split; [discriminate | evaluate].
    + reflexivity.
    + evaluate.
    + evaluate.
    + evaluate.
  - evaluate.
  - evaluate.
Defined.

(** Two runs with the sample genesis, from the empty store. *)
Lemma SetupGenesisBlock_idempotent_witness :
  exists w1 w2,
    SetupGenesisBlock sample.order (Some (sample.spec 0 100)) sample.fresh_world
    = Done (Some 5%positive, sample.stored_hash, None) w1 /\
    SetupGenesisBlock sample.order (Some (sample.spec 0 100)) w1
    = Done (Some 5%positive, sample.stored_hash, None) w2 /\
    store w2 = store w1.
Proof.
  destruct (SetupGenesisBlock_idempotent sample.order (sample.spec 0 100)
              sample.fresh_world 5%positive (sample.config (Some 4%N) (Some 6%N)) [])
    as (w1 & w2 & H1 & H2 & Hs & _).
  - reflexivity.
  - reflexivity.
  - reflexivity.
  - reflexivity.
  - reflexivity.
  - by left.
  - reflexivity.
  - vm_compute. discriminate.
  - exists w1, w2. split; [|split; [|exact Hs]].
    + rewrite H1. f_equal.
    + rewrite H2. f_equal.
Defined.

(** The stored configuration and the candidate agree, at head height 10. *)
Lemma Setup_compatible_persists_witness :
  exists p w',
    SetupGenesisBlockWithOverride sample.order (Some (sample.spec 0 100)) None None
      (sample.advanced_world 10 (sample.config (Some 4%N) (Some 6%N)))
    = Done (Some p, sample.stored_hash, None) w' /\
    configs w' !! p = Some (sample.config (Some 4%N) (Some 6%N)).
Proof.
  destruct (Setup_compatible_persists sample.order (Some (sample.spec 0 100)) None None
              (sample.advanced_world 10 (sample.config (Some 4%N) (Some 6%N)))
              sample.stored_hash sample.stored_header 5%positive
              (sample.config (Some 4%N) (Some 6%N))
              (sample.config (Some 4%N) (Some 6%N)) 10%N)
    as (p & w' & Hrun & _ & Hp).
  - evaluate.
  - discriminate.
  - evaluate.
  - evaluate.
  - intros g [= <-]. split; [discriminate | evaluate].
  - reflexivity.
  - evaluate.
  - evaluate.
  - evaluate.
  - evaluate.
  - evaluate.
  - by exists p, w'.
Defined.

(** The head header points to a hash without a stored number. *)
Lemma Setup_missing_head_number_witness :
  exists p w',
    SetupGenesisBlockWithOverride sample.order (Some (sample.spec 0 100)) None None
      sample_tools.world_with_unknown_head
    = Done (Some p, sample.stored_hash,
            Some (errors_New "missing block number for head header hash")) w' /\
    store w' = store sample_tools.world_with_unknown_head.
Proof.
  destruct (Setup_missing_head_number sample.order (Some (sample.spec 0 100)) None None
              sample_tools.world_with_unknown_head
              sample.stored_hash sample.stored_header 5%positive
              (sample.config (Some 4%N) (Some 6%N))
              (sample.config (Some 4%N) (Some 6%N)))
    as (p & w' & Hrun & Hs & _).
  - evaluate.
  - discriminate.
  - evaluate.
  - evaluate.
  - intros g [= <-]. split; [discriminate | evaluate].
  - reflexivity.
  - evaluate.
  - evaluate.
  - evaluate.
  - evaluate.
  - by exists p, w'.
Defined.

(** A specification without configuration: the configuration returned
    beside the error is [AllEthashProtocolChanges]. *)
Lemma Setup_config_never_nil_witness :
  SetupGenesisBlockWithOverride sample.order (Some sample.spec_without_config) None None
    sample.fresh_world
  = Done (Some 4%positive, 0%N, Some errGenesisNoConfig) sample.fresh_world /\
  is_Some (Some 4%positive : option loc).
Proof.
  assert (H : SetupGenesisBlockWithOverride sample.order
                (Some sample.spec_without_config) None None sample.fresh_world
              = Done (Some 4%positive, 0%N, Some errGenesisNoConfig) sample.fresh_world)
    by evaluate.
  split; [exact H|].
  exact (Setup_config_never_nil sample.order (Some sample.spec_without_config) None None
           sample.fresh_world (Some 4%positive) 0%N (Some errGenesisNoConfig)
           sample.fresh_world H).
Defined.

(** A hash of no network, nothing stored. *)
Lemma CommitGenesisState_without_blob_witness :
  CommitGenesisState sample.order sample_tools.unmarshal 5%N sample.fresh_world
  = Done (Some (errors_New "not found")) sample.fresh_world.
Proof.
  apply (proj1 (CommitGenesisState_without_blob sample_tools.unmarshal sample.order
                  5%N sample.fresh_world eq_refl)); discriminate.
Defined.

(** The test block for address 1 with balance 100. *)
Lemma GenesisBlockForTesting_funds_witness :
  exists block w',
    GenesisBlockForTesting sample.order 1%N 100%Z sample.fresh_world = Done block w' /\
    rawdb.states (store w') !! types.Header.Root (types.header block)
    = Some ({[ 1%N := state.mkAccount 100 0 [] ∅ ]} : state.StateDB).
Proof.
  destruct (proj2 (GenesisBlockForTesting_funds sample.order 1%N 100%Z sample.fresh_world
                     (sample.config (Some 0%N) (Some 0%N)) eq_refl eq_refl)
                  [] eq_refl eq_refl)
    as (block & w' & Hrun & _ & _ & _ & _ & _ & Hst & _).
  by exists block, w'.
Defined.

(** The developer block from the sample Clique configuration. *)
Lemma DeveloperGenesisBlock_commits_witness :
  exists g p,
    DeveloperGenesisBlock 6%positive 5 8000000 77 sample_tools.clique_world
    = Done g (mkWorld (store sample_tools.clique_world)
                (<[p := params.mkChainConfig None None
                          (Some (params.mkCliqueConfig 5 30000))
                          (sample.mkForks (Some 0%N) (Some 0%N))]>
                   (configs sample_tools.clique_world))) /\
    length (Genesis.ExtraData g) = 32 + 20 + 65.
Proof.
  destruct (proj2 (DeveloperGenesisBlock_commits 6%positive sample.order 5 8000000 77
                     sample_tools.clique_world sample_tools.clique_config eq_refl)
                  (params.mkCliqueConfig 15 30000) eq_refl)
    as (g & p & Hrun & _ & _ & _ & _ & _ & Hlen & _).
  by exists g, p.
Defined.
(** The block of the sample genesis, computed without a store. *)
Lemma ToBlock_nil_discards_witness :
  exists block,
    ToBlock sample.order (sample.spec 0 100) db_nil sample.fresh_world
    = Done block sample.fresh_world /\
    Block_Hash block = sample.stored_hash.
Proof.
  destruct (ToBlock_nil_discards sample.order (sample.spec 0 100) sample.fresh_world
              heap_config_valid) as (block & Hnil & _).
  exists block. split; [exact Hnil|].
  assert (Hr : result (ToBlock sample.order (sample.spec 0 100) db_nil sample.fresh_world)
               = Some block) by (by rewrite Hnil).
  vm_compute in Hr. by injection Hr as <-.
Defined.

(** The committed store with its state lost, and the same genesis. *)
Lemma Setup_recommits_missing_state_witness :
  exists w',
    state_New 102%N (store sample_tools.world_without_state) = false /\
    SetupGenesisBlockWithOverride sample.order (Some (sample.spec 0 100)) None None
      sample_tools.world_without_state
    = Done (Some 5%positive, sample.stored_hash, None) w' /\
    state_New 102%N (store w') = true.
Proof.
  destruct (proj2 (Setup_recommits_missing_state sample.order (sample.spec 0 100)
                     None None sample_tools.world_without_state
                     sample.stored_hash sample.stored_header 5%positive
                     (sample.config (Some 4%N) (Some 6%N))
                     ltac:(evaluate) ltac:(discriminate) ltac:(evaluate)
                     ltac:(evaluate) eq_refl ltac:(evaluate) ltac:(evaluate))
                  [] eq_refl eq_refl (or_introl eq_refl) eq_refl)
    as (w' & Hrun & _ & _ & Hst).
  exists w'. split; [evaluate|]. split; [exact Hrun|]. exact Hst.
Defined.
End tools_examples.

Section codec_examples.
Import genesis genesis_spec genesis_tools.

(** The sample allocation written and recovered with the sample codec. *)
Lemma CommitGenesisState_after_write_witness :
  exists w',
    (write (ext := sample_tools.externals) sample_tools.alloc 9%N;;
     CommitGenesisState (ext := sample_tools.externals) sample.order
       sample_tools.unmarshal 9%N) sample.fresh_world
    = Done None w' /\
    ReadGenesisState (ext := sample_tools.externals) 9%N (store w')
    = [Byte.x7b; Byte.x01; Byte.x64; Byte.x7d].
Proof.
  destruct (CommitGenesisState_after_write (ext := sample_tools.externals)
              sample_tools.unmarshal sample.order
              sample_tools.alloc 9%N [Byte.x7b; Byte.x01; Byte.x64; Byte.x7d]
              sample.fresh_world)
    as (w' & Hrun & _ & _ & Hblob & _).
  - vm_compute. reflexivity.
  - discriminate.
  - vm_compute. reflexivity.
  - by exists w'.
Defined.

(** The sample genesis committed, and its state committed again. *)
Lemma CommitGenesisState_after_Commit_witness :
  exists block w',
    Commit (ext := sample_tools.externals) sample.order (sample.spec 0 100)
      sample.fresh_world
    = Done (inr block) w' /\
    CommitGenesisState (ext := sample_tools.externals) sample.order
      sample_tools.unmarshal (Block_Hash (ext := sample_tools.externals) block) w'
    = Done None w'.
Proof.
  apply (CommitGenesisState_after_Commit (ext := sample_tools.externals)
           sample_tools.unmarshal sample.order (sample.spec 0 100) sample.fresh_world
           5%positive (sample.config (Some 4%N) (Some 6%N))
           [Byte.x7b; Byte.x01; Byte.x64; Byte.x7d]).
  - intros l [= <-]. by eexists.
  - reflexivity.
  - reflexivity.
  - reflexivity.
  - reflexivity.
  - by left.
  - vm_compute. reflexivity.
  - discriminate.
  - vm_compute. reflexivity.
Defined.
End codec_examples.

(** The sample transaction, copied and copied again. *)
Lemma copy_is_well_formed_witness :
  exists cpy h',
    priority_tx.copy tt sample.tx sample.tx_heap = Done cpy h' /\
    priority_tx.valid h' cpy /\
    priority_tx.To cpy = None.
Proof.
  destruct (copy_is_well_formed tt sample.tx sample.tx_heap sample_tx_valid)
    as (cpy & h' & Hrun & Hv & _ & _ & _ & Hto & _).
  exists cpy, h'. split; [exact Hrun|]. split; [exact Hv|]. by apply Hto.
Defined.

Lemma copy_of_copy_witness :
  exists cpy h1 cpy2 h2,
    priority_tx.copy tt sample.tx sample.tx_heap = Done cpy h1 /\
    priority_tx.copy tt cpy h1 = Done cpy2 h2 /\
    priority_tx.int_value h2 (priority_tx.GasTipCap cpy2)
    = priority_tx.int_value h1 (priority_tx.GasTipCap cpy).
Proof.
  destruct (copy_of_copy tt sample.tx sample.tx_heap sample_tx_valid)
    as (cpy & h1 & cpy2 & h2 & H1 & H2 & _ & _ & Hf & _).
  exists cpy, h1, cpy2, h2. split; [exact H1|]. split; [exact H2|].
  exact (Hf priority_tx.FGasTipCap).
Defined.
